(** * obsidian-auto-anki: flashcard generation core

    A shallow embedding of the generation core of the plugin
    (the gpt module, [src/unnamed/part_000], and [src/utils/image-utils.ts])
    together with the properties the specification states about it.

    Conventions of the embedding.

    - A JavaScript string is the list of its UTF-16 code units ([jsstring]).
      The source's string literals are ASCII; [js] lifts a literal.
    - The builtins the code calls (String.prototype.trim and toLowerCase,
      RegExp matching, JSON.parse, JSON.stringify, btoa, property lookup
      on an object literal) are modelled after ECMAScript, each next to
      its first use.  What ECMAScript leaves to the engine, the number of
      arguments a call can take, is a parameter of the run.
    - The code is async but sequential: every await is a plain call here.
      The vault and the provider are arguments; reading a file's bytes
      leaves an event in a trace.
    - An exception is a value of [js_error]; a function that can raise
      returns a [js_result].
    - A count (questions, samples, tokens, bytes) is an integer; the
      source holds it in a double, which is exact, in its arithmetic and
      in its printing, for integers below 2^53 and 10^21.  The sampling
      options, which the code only passes on, are rationals.
    - The logging side channel is left out, except where evaluating the
      logged expression can itself raise. *)

From Stdlib Require Import ZArith NArith List Bool Lia String Ascii QArith.
From Stdlib Require Import DecimalString.
Import ListNotations.

Set Implicit Arguments.
Set Warnings "-register-all".

(* ===================================================================== *)
(** ** JavaScript strings *)
(* ===================================================================== *)

Module JsString.

(** A string value: its UTF-16 code units. *)
Definition jsstring := list N.

(** An ASCII literal of the source as a [jsstring]. *)
Definition js (s : string) : jsstring :=
  map N_of_ascii (list_ascii_of_string s).

(** One code unit, from its ASCII character. *)
Definition cu (a : ascii) : N := N_of_ascii a.

Definition LF : N := 10%N.
Definition QUOTE : N := 34%N.

(** Strict equality [===] on strings. *)
Fixpoint str_eqb (a b : jsstring) : bool :=
  match a, b with
  | [], [] => true
  | x :: a', y :: b' => N.eqb x y && str_eqb a' b'
  | _, _ => false
  end.

(** A string is falsy exactly when it is empty. *)
Definition str_truthy (s : jsstring) : bool :=
  match s with [] => false | _ :: _ => true end.

(** [s || d] on strings. *)
Definition str_or (s d : jsstring) : jsstring :=
  if str_truthy s then s else d.

(** WhiteSpace and LineTerminator of ECMAScript: what [\s] matches and
    what [trim] removes. *)
Definition isWhiteSpace (c : N) : bool :=
  ((9 <=? c) && (c <=? 13) || (c =? 32) || (c =? 160) || (c =? 5760)
   || (8192 <=? c) && (c <=? 8202) || (c =? 8232) || (c =? 8233)
   || (c =? 8239) || (c =? 8287) || (c =? 12288) || (c =? 65279))%N.

Fixpoint trimStart (s : jsstring) : jsstring :=
  match s with
  | c :: s' => if isWhiteSpace c then trimStart s' else s
  | [] => []
  end.

Definition trimEnd (s : jsstring) : jsstring := rev (trimStart (rev s)).

(** String.prototype.trim *)
Definition trim (s : jsstring) : jsstring := trimEnd (trimStart s).

(** *** String.prototype.toLowerCase

    toLowerCase converts the code points of the string by the Unicode
    default case conversion: the lower-case mappings of UnicodeData.txt
    and the mappings of SpecialCasing.txt that depend on no language.  So
    a surrogate pair is one code point, U+0130 becomes two, and a capital
    sigma becomes the final sigma where it ends a word.  The tables below
    are those of Unicode 14.0. *)

(** Basic Latin: A-Z go to a-z. *)
Definition lowerUnit (c : N) : N :=
  if ((65 <=? c) && (c <=? 90))%N then (c + 32)%N else c.

Definition isLeadSurrogate (c : N) : bool :=
  ((0xD800 <=? c) && (c <=? 0xDBFF))%N.

Definition isTrailSurrogate (c : N) : bool :=
  ((0xDC00 <=? c) && (c <=? 0xDFFF))%N.

(** StringToCodePoints: a lead surrogate and the trail surrogate after it
    are one code point; a surrogate on its own stands for itself. *)
Fixpoint codePoints (s : jsstring) : list N :=
  match s with
  | [] => []
  | c :: r =>
      match r with
      | l :: r' =>
          if isLeadSurrogate c && isTrailSurrogate l
          then (0x10000 + (c - 0xD800) * 0x400 + (l - 0xDC00))%N
               :: codePoints r'
          else c :: codePoints r
      | [] => [c]
      end
  end.

(** The code units of a code point. *)
Definition codeUnits (cp : N) : jsstring :=
  if (cp <? 0x10000)%N then [cp]
  else [0xD800 + (cp - 0x10000) / 0x400; 0xDC00 + (cp - 0x10000) mod 0x400]%N.

(** Lower-case mappings above Basic Latin, one code point to one code
    point.  An entry (first, last, step, target) maps first to target,
    first + step to target + step, and so on up to last. *)
Definition lowerCaseMappings : list (N * N * N * N) := [
   (0xC0, 0xD6, 1, 0xE0); (0xD8, 0xDE, 1, 0xF8); (0x100, 0x12E, 2, 0x101);
   (0x132, 0x136, 2, 0x133); (0x139, 0x147, 2, 0x13A);
   (0x14A, 0x176, 2, 0x14B); (0x178, 0x178, 1, 0xFF);
   (0x179, 0x17D, 2, 0x17A); (0x181, 0x181, 1, 0x253);
   (0x182, 0x184, 2, 0x183); (0x186, 0x186, 1, 0x254);
   (0x187, 0x187, 1, 0x188); (0x189, 0x18A, 1, 0x256);
   (0x18B, 0x18B, 1, 0x18C); (0x18E, 0x18E, 1, 0x1DD);
   (0x18F, 0x18F, 1, 0x259); (0x190, 0x190, 1, 0x25B);
   (0x191, 0x191, 1, 0x192); (0x193, 0x193, 1, 0x260);
   (0x194, 0x194, 1, 0x263); (0x196, 0x196, 1, 0x269);
   (0x197, 0x197, 1, 0x268); (0x198, 0x198, 1, 0x199);
   (0x19C, 0x19C, 1, 0x26F); (0x19D, 0x19D, 1, 0x272);
   (0x19F, 0x19F, 1, 0x275); (0x1A0, 0x1A4, 2, 0x1A1);
   (0x1A6, 0x1A6, 1, 0x280); (0x1A7, 0x1A7, 1, 0x1A8);
   (0x1A9, 0x1A9, 1, 0x283); (0x1AC, 0x1AC, 1, 0x1AD);
   (0x1AE, 0x1AE, 1, 0x288); (0x1AF, 0x1AF, 1, 0x1B0);
   (0x1B1, 0x1B2, 1, 0x28A); (0x1B3, 0x1B5, 2, 0x1B4);
   (0x1B7, 0x1B7, 1, 0x292); (0x1B8, 0x1B8, 1, 0x1B9);
   (0x1BC, 0x1BC, 1, 0x1BD); (0x1C4, 0x1C4, 1, 0x1C6);
   (0x1C5, 0x1C5, 1, 0x1C6); (0x1C7, 0x1C7, 1, 0x1C9);
   (0x1C8, 0x1C8, 1, 0x1C9); (0x1CA, 0x1CA, 1, 0x1CC);
   (0x1CB, 0x1DB, 2, 0x1CC); (0x1DE, 0x1EE, 2, 0x1DF);
   (0x1F1, 0x1F1, 1, 0x1F3); (0x1F2, 0x1F4, 2, 0x1F3);
   (0x1F6, 0x1F6, 1, 0x195); (0x1F7, 0x1F7, 1, 0x1BF);
   (0x1F8, 0x21E, 2, 0x1F9); (0x220, 0x220, 1, 0x19E);
   (0x222, 0x232, 2, 0x223); (0x23A, 0x23A, 1, 0x2C65);
   (0x23B, 0x23B, 1, 0x23C); (0x23D, 0x23D, 1, 0x19A);
   (0x23E, 0x23E, 1, 0x2C66); (0x241, 0x241, 1, 0x242);
   (0x243, 0x243, 1, 0x180); (0x244, 0x244, 1, 0x289);
   (0x245, 0x245, 1, 0x28C); (0x246, 0x24E, 2, 0x247);
   (0x370, 0x372, 2, 0x371); (0x376, 0x376, 1, 0x377);
   (0x37F, 0x37F, 1, 0x3F3); (0x386, 0x386, 1, 0x3AC);
   (0x388, 0x38A, 1, 0x3AD); (0x38C, 0x38C, 1, 0x3CC);
   (0x38E, 0x38F, 1, 0x3CD); (0x391, 0x3A1, 1, 0x3B1);
   (0x3A3, 0x3AB, 1, 0x3C3); (0x3CF, 0x3CF, 1, 0x3D7);
   (0x3D8, 0x3EE, 2, 0x3D9); (0x3F4, 0x3F4, 1, 0x3B8);
   (0x3F7, 0x3F7, 1, 0x3F8); (0x3F9, 0x3F9, 1, 0x3F2);
   (0x3FA, 0x3FA, 1, 0x3FB); (0x3FD, 0x3FF, 1, 0x37B);
   (0x400, 0x40F, 1, 0x450); (0x410, 0x42F, 1, 0x430);
   (0x460, 0x480, 2, 0x461); (0x48A, 0x4BE, 2, 0x48B);
   (0x4C0, 0x4C0, 1, 0x4CF); (0x4C1, 0x4CD, 2, 0x4C2);
   (0x4D0, 0x52E, 2, 0x4D1); (0x531, 0x556, 1, 0x561);
   (0x10A0, 0x10C5, 1, 0x2D00); (0x10C7, 0x10C7, 1, 0x2D27);
   (0x10CD, 0x10CD, 1, 0x2D2D); (0x13A0, 0x13EF, 1, 0xAB70);
   (0x13F0, 0x13F5, 1, 0x13F8); (0x1C90, 0x1CBA, 1, 0x10D0);
   (0x1CBD, 0x1CBF, 1, 0x10FD); (0x1E00, 0x1E94, 2, 0x1E01);
   (0x1E9E, 0x1E9E, 1, 0xDF); (0x1EA0, 0x1EFE, 2, 0x1EA1);
   (0x1F08, 0x1F0F, 1, 0x1F00); (0x1F18, 0x1F1D, 1, 0x1F10);
   (0x1F28, 0x1F2F, 1, 0x1F20); (0x1F38, 0x1F3F, 1, 0x1F30);
   (0x1F48, 0x1F4D, 1, 0x1F40); (0x1F59, 0x1F5F, 2, 0x1F51);
   (0x1F68, 0x1F6F, 1, 0x1F60); (0x1F88, 0x1F8F, 1, 0x1F80);
   (0x1F98, 0x1F9F, 1, 0x1F90); (0x1FA8, 0x1FAF, 1, 0x1FA0);
   (0x1FB8, 0x1FB9, 1, 0x1FB0); (0x1FBA, 0x1FBB, 1, 0x1F70);
   (0x1FBC, 0x1FBC, 1, 0x1FB3); (0x1FC8, 0x1FCB, 1, 0x1F72);
   (0x1FCC, 0x1FCC, 1, 0x1FC3); (0x1FD8, 0x1FD9, 1, 0x1FD0);
   (0x1FDA, 0x1FDB, 1, 0x1F76); (0x1FE8, 0x1FE9, 1, 0x1FE0);
   (0x1FEA, 0x1FEB, 1, 0x1F7A); (0x1FEC, 0x1FEC, 1, 0x1FE5);
   (0x1FF8, 0x1FF9, 1, 0x1F78); (0x1FFA, 0x1FFB, 1, 0x1F7C);
   (0x1FFC, 0x1FFC, 1, 0x1FF3); (0x2126, 0x2126, 1, 0x3C9);
   (0x212A, 0x212A, 1, 0x6B); (0x212B, 0x212B, 1, 0xE5);
   (0x2132, 0x2132, 1, 0x214E); (0x2160, 0x216F, 1, 0x2170);
   (0x2183, 0x2183, 1, 0x2184); (0x24B6, 0x24CF, 1, 0x24D0);
   (0x2C00, 0x2C2F, 1, 0x2C30); (0x2C60, 0x2C60, 1, 0x2C61);
   (0x2C62, 0x2C62, 1, 0x26B); (0x2C63, 0x2C63, 1, 0x1D7D);
   (0x2C64, 0x2C64, 1, 0x27D); (0x2C67, 0x2C6B, 2, 0x2C68);
   (0x2C6D, 0x2C6D, 1, 0x251); (0x2C6E, 0x2C6E, 1, 0x271);
   (0x2C6F, 0x2C6F, 1, 0x250); (0x2C70, 0x2C70, 1, 0x252);
   (0x2C72, 0x2C72, 1, 0x2C73); (0x2C75, 0x2C75, 1, 0x2C76);
   (0x2C7E, 0x2C7F, 1, 0x23F); (0x2C80, 0x2CE2, 2, 0x2C81);
   (0x2CEB, 0x2CED, 2, 0x2CEC); (0x2CF2, 0x2CF2, 1, 0x2CF3);
   (0xA640, 0xA66C, 2, 0xA641); (0xA680, 0xA69A, 2, 0xA681);
   (0xA722, 0xA72E, 2, 0xA723); (0xA732, 0xA76E, 2, 0xA733);
   (0xA779, 0xA77B, 2, 0xA77A); (0xA77D, 0xA77D, 1, 0x1D79);
   (0xA77E, 0xA786, 2, 0xA77F); (0xA78B, 0xA78B, 1, 0xA78C);
   (0xA78D, 0xA78D, 1, 0x265); (0xA790, 0xA792, 2, 0xA791);
   (0xA796, 0xA7A8, 2, 0xA797); (0xA7AA, 0xA7AA, 1, 0x266);
   (0xA7AB, 0xA7AB, 1, 0x25C); (0xA7AC, 0xA7AC, 1, 0x261);
   (0xA7AD, 0xA7AD, 1, 0x26C); (0xA7AE, 0xA7AE, 1, 0x26A);
   (0xA7B0, 0xA7B0, 1, 0x29E); (0xA7B1, 0xA7B1, 1, 0x287);
   (0xA7B2, 0xA7B2, 1, 0x29D); (0xA7B3, 0xA7B3, 1, 0xAB53);
   (0xA7B4, 0xA7C2, 2, 0xA7B5); (0xA7C4, 0xA7C4, 1, 0xA794);
   (0xA7C5, 0xA7C5, 1, 0x282); (0xA7C6, 0xA7C6, 1, 0x1D8E);
   (0xA7C7, 0xA7C9, 2, 0xA7C8); (0xA7D0, 0xA7D0, 1, 0xA7D1);
   (0xA7D6, 0xA7D8, 2, 0xA7D7); (0xA7F5, 0xA7F5, 1, 0xA7F6);
   (0xFF21, 0xFF3A, 1, 0xFF41); (0x10400, 0x10427, 1, 0x10428);
   (0x104B0, 0x104D3, 1, 0x104D8); (0x10570, 0x1057A, 1, 0x10597);
   (0x1057C, 0x1058A, 1, 0x105A3); (0x1058C, 0x10592, 1, 0x105B3);
   (0x10594, 0x10595, 1, 0x105BB); (0x10C80, 0x10CB2, 1, 0x10CC0);
   (0x118A0, 0x118BF, 1, 0x118C0); (0x16E40, 0x16E5F, 1, 0x16E60);
   (0x1E900, 0x1E921, 1, 0x1E922)
]%N.

Definition mapsFrom (c : N) (entry : N * N * N * N) : bool :=
  let '(first, last, step, _) := entry in
  ((first <=? c) && (c <=? last) && ((c - first) mod step =? 0))%N.

Definition simpleLower (c : N) : N :=
  if (c <? 128)%N then lowerUnit c
  else match find (mapsFrom c) lowerCaseMappings with
       | Some (first, _, _, target) => (target + (c - first))%N
       | None => c
       end.

Definition inRanges (ranges : list (N * N)) (c : N) : bool :=
  existsb (fun r => (fst r <=? c) && (c <=? snd r))%N ranges.

(** The code points with the property Case_Ignorable. *)
Definition Case_Ignorable : list (N * N) := [
   (0x27, 0x27); (0x2E, 0x2E); (0x3A, 0x3A); (0x5E, 0x5E); (0x60, 0x60);
   (0xA8, 0xA8); (0xAD, 0xAD); (0xAF, 0xAF); (0xB4, 0xB4); (0xB7, 0xB8);
   (0x2B0, 0x36F); (0x374, 0x375); (0x37A, 0x37A); (0x384, 0x385);
   (0x387, 0x387); (0x483, 0x489); (0x559, 0x559); (0x55F, 0x55F);
   (0x591, 0x5BD); (0x5BF, 0x5BF); (0x5C1, 0x5C2); (0x5C4, 0x5C5);
   (0x5C7, 0x5C7); (0x5F4, 0x5F4); (0x600, 0x605); (0x610, 0x61A);
   (0x61C, 0x61C); (0x640, 0x640); (0x64B, 0x65F); (0x670, 0x670);
   (0x6D6, 0x6DD); (0x6DF, 0x6E8); (0x6EA, 0x6ED); (0x70F, 0x70F);
   (0x711, 0x711); (0x730, 0x74A); (0x7A6, 0x7B0); (0x7EB, 0x7F5);
   (0x7FA, 0x7FA); (0x7FD, 0x7FD); (0x816, 0x82D); (0x859, 0x85B);
   (0x888, 0x888); (0x890, 0x891); (0x898, 0x89F); (0x8C9, 0x902);
   (0x93A, 0x93A); (0x93C, 0x93C); (0x941, 0x948); (0x94D, 0x94D);
   (0x951, 0x957); (0x962, 0x963); (0x971, 0x971); (0x981, 0x981);
   (0x9BC, 0x9BC); (0x9C1, 0x9C4); (0x9CD, 0x9CD); (0x9E2, 0x9E3);
   (0x9FE, 0x9FE); (0xA01, 0xA02); (0xA3C, 0xA3C); (0xA41, 0xA42);
   (0xA47, 0xA48); (0xA4B, 0xA4D); (0xA51, 0xA51); (0xA70, 0xA71);
   (0xA75, 0xA75); (0xA81, 0xA82); (0xABC, 0xABC); (0xAC1, 0xAC5);
   (0xAC7, 0xAC8); (0xACD, 0xACD); (0xAE2, 0xAE3); (0xAFA, 0xAFF);
   (0xB01, 0xB01); (0xB3C, 0xB3C); (0xB3F, 0xB3F); (0xB41, 0xB44);
   (0xB4D, 0xB4D); (0xB55, 0xB56); (0xB62, 0xB63); (0xB82, 0xB82);
   (0xBC0, 0xBC0); (0xBCD, 0xBCD); (0xC00, 0xC00); (0xC04, 0xC04);
   (0xC3C, 0xC3C); (0xC3E, 0xC40); (0xC46, 0xC48); (0xC4A, 0xC4D);
   (0xC55, 0xC56); (0xC62, 0xC63); (0xC81, 0xC81); (0xCBC, 0xCBC);
   (0xCBF, 0xCBF); (0xCC6, 0xCC6); (0xCCC, 0xCCD); (0xCE2, 0xCE3);
   (0xD00, 0xD01); (0xD3B, 0xD3C); (0xD41, 0xD44); (0xD4D, 0xD4D);
   (0xD62, 0xD63); (0xD81, 0xD81); (0xDCA, 0xDCA); (0xDD2, 0xDD4);
   (0xDD6, 0xDD6); (0xE31, 0xE31); (0xE34, 0xE3A); (0xE46, 0xE4E);
   (0xEB1, 0xEB1); (0xEB4, 0xEBC); (0xEC6, 0xEC6); (0xEC8, 0xECD);
   (0xF18, 0xF19); (0xF35, 0xF35); (0xF37, 0xF37); (0xF39, 0xF39);
   (0xF71, 0xF7E); (0xF80, 0xF84); (0xF86, 0xF87); (0xF8D, 0xF97);
   (0xF99, 0xFBC); (0xFC6, 0xFC6); (0x102D, 0x1030); (0x1032, 0x1037);
   (0x1039, 0x103A); (0x103D, 0x103E); (0x1058, 0x1059); (0x105E, 0x1060);
   (0x1071, 0x1074); (0x1082, 0x1082); (0x1085, 0x1086); (0x108D, 0x108D);
   (0x109D, 0x109D); (0x10FC, 0x10FC); (0x135D, 0x135F); (0x1712, 0x1714);
   (0x1732, 0x1733); (0x1752, 0x1753); (0x1772, 0x1773); (0x17B4, 0x17B5);
   (0x17B7, 0x17BD); (0x17C6, 0x17C6); (0x17C9, 0x17D3); (0x17D7, 0x17D7);
   (0x17DD, 0x17DD); (0x180B, 0x180F); (0x1843, 0x1843); (0x1885, 0x1886);
   (0x18A9, 0x18A9); (0x1920, 0x1922); (0x1927, 0x1928); (0x1932, 0x1932);
   (0x1939, 0x193B); (0x1A17, 0x1A18); (0x1A1B, 0x1A1B); (0x1A56, 0x1A56);
   (0x1A58, 0x1A5E); (0x1A60, 0x1A60); (0x1A62, 0x1A62); (0x1A65, 0x1A6C);
   (0x1A73, 0x1A7C); (0x1A7F, 0x1A7F); (0x1AA7, 0x1AA7); (0x1AB0, 0x1ACE);
   (0x1B00, 0x1B03); (0x1B34, 0x1B34); (0x1B36, 0x1B3A); (0x1B3C, 0x1B3C);
   (0x1B42, 0x1B42); (0x1B6B, 0x1B73); (0x1B80, 0x1B81); (0x1BA2, 0x1BA5);
   (0x1BA8, 0x1BA9); (0x1BAB, 0x1BAD); (0x1BE6, 0x1BE6); (0x1BE8, 0x1BE9);
   (0x1BED, 0x1BED); (0x1BEF, 0x1BF1); (0x1C2C, 0x1C33); (0x1C36, 0x1C37);
   (0x1C78, 0x1C7D); (0x1CD0, 0x1CD2); (0x1CD4, 0x1CE0); (0x1CE2, 0x1CE8);
   (0x1CED, 0x1CED); (0x1CF4, 0x1CF4); (0x1CF8, 0x1CF9); (0x1D2C, 0x1D6A);
   (0x1D78, 0x1D78); (0x1D9B, 0x1DFF); (0x1FBD, 0x1FBD); (0x1FBF, 0x1FC1);
   (0x1FCD, 0x1FCF); (0x1FDD, 0x1FDF); (0x1FED, 0x1FEF); (0x1FFD, 0x1FFE);
   (0x200B, 0x200F); (0x2018, 0x2019); (0x2024, 0x2024); (0x2027, 0x2027);
   (0x202A, 0x202E); (0x2060, 0x2064); (0x2066, 0x206F); (0x2071, 0x2071);
   (0x207F, 0x207F); (0x2090, 0x209C); (0x20D0, 0x20F0); (0x2C7C, 0x2C7D);
   (0x2CEF, 0x2CF1); (0x2D6F, 0x2D6F); (0x2D7F, 0x2D7F); (0x2DE0, 0x2DFF);
   (0x2E2F, 0x2E2F); (0x3005, 0x3005); (0x302A, 0x302D); (0x3031, 0x3035);
   (0x303B, 0x303B); (0x3099, 0x309E); (0x30FC, 0x30FE); (0xA015, 0xA015);
   (0xA4F8, 0xA4FD); (0xA60C, 0xA60C); (0xA66F, 0xA672); (0xA674, 0xA67D);
   (0xA67F, 0xA67F); (0xA69C, 0xA69F); (0xA6F0, 0xA6F1); (0xA700, 0xA721);
   (0xA770, 0xA770); (0xA788, 0xA78A); (0xA7F2, 0xA7F4); (0xA7F8, 0xA7F9);
   (0xA802, 0xA802); (0xA806, 0xA806); (0xA80B, 0xA80B); (0xA825, 0xA826);
   (0xA82C, 0xA82C); (0xA8C4, 0xA8C5); (0xA8E0, 0xA8F1); (0xA8FF, 0xA8FF);
   (0xA926, 0xA92D); (0xA947, 0xA951); (0xA980, 0xA982); (0xA9B3, 0xA9B3);
   (0xA9B6, 0xA9B9); (0xA9BC, 0xA9BD); (0xA9CF, 0xA9CF); (0xA9E5, 0xA9E6);
   (0xAA29, 0xAA2E); (0xAA31, 0xAA32); (0xAA35, 0xAA36); (0xAA43, 0xAA43);
   (0xAA4C, 0xAA4C); (0xAA70, 0xAA70); (0xAA7C, 0xAA7C); (0xAAB0, 0xAAB0);
   (0xAAB2, 0xAAB4); (0xAAB7, 0xAAB8); (0xAABE, 0xAABF); (0xAAC1, 0xAAC1);
   (0xAADD, 0xAADD); (0xAAEC, 0xAAED); (0xAAF3, 0xAAF4); (0xAAF6, 0xAAF6);
   (0xAB5B, 0xAB5F); (0xAB69, 0xAB6B); (0xABE5, 0xABE5); (0xABE8, 0xABE8);
   (0xABED, 0xABED); (0xFB1E, 0xFB1E); (0xFBB2, 0xFBC2); (0xFE00, 0xFE0F);
   (0xFE13, 0xFE13); (0xFE20, 0xFE2F); (0xFE52, 0xFE52); (0xFE55, 0xFE55);
   (0xFEFF, 0xFEFF); (0xFF07, 0xFF07); (0xFF0E, 0xFF0E); (0xFF1A, 0xFF1A);
   (0xFF3E, 0xFF3E); (0xFF40, 0xFF40); (0xFF70, 0xFF70); (0xFF9E, 0xFF9F);
   (0xFFE3, 0xFFE3); (0xFFF9, 0xFFFB); (0x101FD, 0x101FD);
   (0x102E0, 0x102E0); (0x10376, 0x1037A); (0x10780, 0x10785);
   (0x10787, 0x107B0); (0x107B2, 0x107BA); (0x10A01, 0x10A03);
   (0x10A05, 0x10A06); (0x10A0C, 0x10A0F); (0x10A38, 0x10A3A);
   (0x10A3F, 0x10A3F); (0x10AE5, 0x10AE6); (0x10D24, 0x10D27);
   (0x10EAB, 0x10EAC); (0x10F46, 0x10F50); (0x10F82, 0x10F85);
   (0x11001, 0x11001); (0x11038, 0x11046); (0x11070, 0x11070);
   (0x11073, 0x11074); (0x1107F, 0x11081); (0x110B3, 0x110B6);
   (0x110B9, 0x110BA); (0x110BD, 0x110BD); (0x110C2, 0x110C2);
   (0x110CD, 0x110CD); (0x11100, 0x11102); (0x11127, 0x1112B);
   (0x1112D, 0x11134); (0x11173, 0x11173); (0x11180, 0x11181);
   (0x111B6, 0x111BE); (0x111C9, 0x111CC); (0x111CF, 0x111CF);
   (0x1122F, 0x11231); (0x11234, 0x11234); (0x11236, 0x11237);
   (0x1123E, 0x1123E); (0x112DF, 0x112DF); (0x112E3, 0x112EA);
   (0x11300, 0x11301); (0x1133B, 0x1133C); (0x11340, 0x11340);
   (0x11366, 0x1136C); (0x11370, 0x11374); (0x11438, 0x1143F);
   (0x11442, 0x11444); (0x11446, 0x11446); (0x1145E, 0x1145E);
   (0x114B3, 0x114B8); (0x114BA, 0x114BA); (0x114BF, 0x114C0);
   (0x114C2, 0x114C3); (0x115B2, 0x115B5); (0x115BC, 0x115BD);
   (0x115BF, 0x115C0); (0x115DC, 0x115DD); (0x11633, 0x1163A);
   (0x1163D, 0x1163D); (0x1163F, 0x11640); (0x116AB, 0x116AB);
   (0x116AD, 0x116AD); (0x116B0, 0x116B5); (0x116B7, 0x116B7);
   (0x1171D, 0x1171F); (0x11722, 0x11725); (0x11727, 0x1172B);
   (0x1182F, 0x11837); (0x11839, 0x1183A); (0x1193B, 0x1193C);
   (0x1193E, 0x1193E); (0x11943, 0x11943); (0x119D4, 0x119D7);
   (0x119DA, 0x119DB); (0x119E0, 0x119E0); (0x11A01, 0x11A0A);
   (0x11A33, 0x11A38); (0x11A3B, 0x11A3E); (0x11A47, 0x11A47);
   (0x11A51, 0x11A56); (0x11A59, 0x11A5B); (0x11A8A, 0x11A96);
   (0x11A98, 0x11A99); (0x11C30, 0x11C36); (0x11C38, 0x11C3D);
   (0x11C3F, 0x11C3F); (0x11C92, 0x11CA7); (0x11CAA, 0x11CB0);
   (0x11CB2, 0x11CB3); (0x11CB5, 0x11CB6); (0x11D31, 0x11D36);
   (0x11D3A, 0x11D3A); (0x11D3C, 0x11D3D); (0x11D3F, 0x11D45);
   (0x11D47, 0x11D47); (0x11D90, 0x11D91); (0x11D95, 0x11D95);
   (0x11D97, 0x11D97); (0x11EF3, 0x11EF4); (0x13430, 0x13438);
   (0x16AF0, 0x16AF4); (0x16B30, 0x16B36); (0x16B40, 0x16B43);
   (0x16F4F, 0x16F4F); (0x16F8F, 0x16F9F); (0x16FE0, 0x16FE1);
   (0x16FE3, 0x16FE4); (0x1AFF0, 0x1AFF3); (0x1AFF5, 0x1AFFB);
   (0x1AFFD, 0x1AFFE); (0x1BC9D, 0x1BC9E); (0x1BCA0, 0x1BCA3);
   (0x1CF00, 0x1CF2D); (0x1CF30, 0x1CF46); (0x1D167, 0x1D169);
   (0x1D173, 0x1D182); (0x1D185, 0x1D18B); (0x1D1AA, 0x1D1AD);
   (0x1D242, 0x1D244); (0x1DA00, 0x1DA36); (0x1DA3B, 0x1DA6C);
   (0x1DA75, 0x1DA75); (0x1DA84, 0x1DA84); (0x1DA9B, 0x1DA9F);
   (0x1DAA1, 0x1DAAF); (0x1E000, 0x1E006); (0x1E008, 0x1E018);
   (0x1E01B, 0x1E021); (0x1E023, 0x1E024); (0x1E026, 0x1E02A);
   (0x1E130, 0x1E13D); (0x1E2AE, 0x1E2AE); (0x1E2EC, 0x1E2EF);
   (0x1E8D0, 0x1E8D6); (0x1E944, 0x1E94B); (0x1F3FB, 0x1F3FF);
   (0xE0001, 0xE0001); (0xE0020, 0xE007F); (0xE0100, 0xE01EF)
]%N.

(** The code points with the property Cased that are not Case_Ignorable. *)
Definition Cased : list (N * N) := [
   (0x41, 0x5A); (0x61, 0x7A); (0xAA, 0xAA); (0xB5, 0xB5); (0xBA, 0xBA);
   (0xC0, 0xD6); (0xD8, 0xF6); (0xF8, 0x1BA); (0x1BC, 0x1BF);
   (0x1C4, 0x293); (0x295, 0x2AF); (0x370, 0x373); (0x376, 0x377);
   (0x37B, 0x37D); (0x37F, 0x37F); (0x386, 0x386); (0x388, 0x38A);
   (0x38C, 0x38C); (0x38E, 0x3A1); (0x3A3, 0x3F5); (0x3F7, 0x481);
   (0x48A, 0x52F); (0x531, 0x556); (0x560, 0x588); (0x10A0, 0x10C5);
   (0x10C7, 0x10C7); (0x10CD, 0x10CD); (0x10D0, 0x10FA); (0x10FD, 0x10FF);
   (0x13A0, 0x13F5); (0x13F8, 0x13FD); (0x1C80, 0x1C88); (0x1C90, 0x1CBA);
   (0x1CBD, 0x1CBF); (0x1D00, 0x1D2B); (0x1D6B, 0x1D77); (0x1D79, 0x1D9A);
   (0x1E00, 0x1F15); (0x1F18, 0x1F1D); (0x1F20, 0x1F45); (0x1F48, 0x1F4D);
   (0x1F50, 0x1F57); (0x1F59, 0x1F59); (0x1F5B, 0x1F5B); (0x1F5D, 0x1F5D);
   (0x1F5F, 0x1F7D); (0x1F80, 0x1FB4); (0x1FB6, 0x1FBC); (0x1FBE, 0x1FBE);
   (0x1FC2, 0x1FC4); (0x1FC6, 0x1FCC); (0x1FD0, 0x1FD3); (0x1FD6, 0x1FDB);
   (0x1FE0, 0x1FEC); (0x1FF2, 0x1FF4); (0x1FF6, 0x1FFC); (0x2102, 0x2102);
   (0x2107, 0x2107); (0x210A, 0x2113); (0x2115, 0x2115); (0x2119, 0x211D);
   (0x2124, 0x2124); (0x2126, 0x2126); (0x2128, 0x2128); (0x212A, 0x212D);
   (0x212F, 0x2134); (0x2139, 0x2139); (0x213C, 0x213F); (0x2145, 0x2149);
   (0x214E, 0x214E); (0x2160, 0x217F); (0x2183, 0x2184); (0x24B6, 0x24E9);
   (0x2C00, 0x2C7B); (0x2C7E, 0x2CE4); (0x2CEB, 0x2CEE); (0x2CF2, 0x2CF3);
   (0x2D00, 0x2D25); (0x2D27, 0x2D27); (0x2D2D, 0x2D2D); (0xA640, 0xA66D);
   (0xA680, 0xA69B); (0xA722, 0xA76F); (0xA771, 0xA787); (0xA78B, 0xA78E);
   (0xA790, 0xA7CA); (0xA7D0, 0xA7D1); (0xA7D3, 0xA7D3); (0xA7D5, 0xA7D9);
   (0xA7F5, 0xA7F6); (0xA7FA, 0xA7FA); (0xAB30, 0xAB5A); (0xAB60, 0xAB68);
   (0xAB70, 0xABBF); (0xFB00, 0xFB06); (0xFB13, 0xFB17); (0xFF21, 0xFF3A);
   (0xFF41, 0xFF5A); (0x10400, 0x1044F); (0x104B0, 0x104D3);
   (0x104D8, 0x104FB); (0x10570, 0x1057A); (0x1057C, 0x1058A);
   (0x1058C, 0x10592); (0x10594, 0x10595); (0x10597, 0x105A1);
   (0x105A3, 0x105B1); (0x105B3, 0x105B9); (0x105BB, 0x105BC);
   (0x10C80, 0x10CB2); (0x10CC0, 0x10CF2); (0x118A0, 0x118DF);
   (0x16E40, 0x16E7F); (0x1D400, 0x1D454); (0x1D456, 0x1D49C);
   (0x1D49E, 0x1D49F); (0x1D4A2, 0x1D4A2); (0x1D4A5, 0x1D4A6);
   (0x1D4A9, 0x1D4AC); (0x1D4AE, 0x1D4B9); (0x1D4BB, 0x1D4BB);
   (0x1D4BD, 0x1D4C3); (0x1D4C5, 0x1D505); (0x1D507, 0x1D50A);
   (0x1D50D, 0x1D514); (0x1D516, 0x1D51C); (0x1D51E, 0x1D539);
   (0x1D53B, 0x1D53E); (0x1D540, 0x1D544); (0x1D546, 0x1D546);
   (0x1D54A, 0x1D550); (0x1D552, 0x1D6A5); (0x1D6A8, 0x1D6C0);
   (0x1D6C2, 0x1D6DA); (0x1D6DC, 0x1D6FA); (0x1D6FC, 0x1D714);
   (0x1D716, 0x1D734); (0x1D736, 0x1D74E); (0x1D750, 0x1D76E);
   (0x1D770, 0x1D788); (0x1D78A, 0x1D7A8); (0x1D7AA, 0x1D7C2);
   (0x1D7C4, 0x1D7CB); (0x1DF00, 0x1DF09); (0x1DF0B, 0x1DF1E);
   (0x1E900, 0x1E943); (0x1F130, 0x1F149); (0x1F150, 0x1F169);
   (0x1F170, 0x1F189)
]%N.

Definition caseIgnorable (c : N) : bool := inRanges Case_Ignorable c.
Definition cased (c : N) : bool := inRanges Cased c.

(** Whether a cased letter follows, case-ignorable code points skipped. *)
Fixpoint followedByCased (l : list N) : bool :=
  match l with
  | [] => false
  | c :: r => if caseIgnorable c then followedByCased r else cased c
  end.

(** The conversion of a list of code points.  [afterCased] tells whether
    a cased letter precedes, case-ignorable code points skipped: a capital
    sigma (U+03A3) after a cased letter and before none is final. *)
Fixpoint lowerPoints (afterCased : bool) (l : list N) : list N :=
  match l with
  | [] => []
  | c :: r =>
      (if (c =? 0x3A3)%N then
         if afterCased && negb (followedByCased r) then [0x3C2%N]
         else [0x3C3%N]
       else if (c =? 0x130)%N then [0x69; 0x307]%N
       else [simpleLower c])
      ++ lowerPoints (if caseIgnorable c then afterCased else cased c) r
  end.

(** String.prototype.toLowerCase *)
Definition toLowerCase (s : jsstring) : jsstring :=
  flat_map codeUnits (lowerPoints false (codePoints s)).

(** String.prototype.startsWith *)
Fixpoint startsWith (s p : jsstring) : bool :=
  match p, s with
  | [], _ => true
  | x :: p', y :: s' => N.eqb x y && startsWith s' p'
  | _ :: _, [] => false
  end.

(** String.prototype.endsWith *)
Definition endsWith (s p : jsstring) : bool := startsWith (rev s) (rev p).

(** [s.split(sep).pop()] for a one-unit separator: what follows the last
    separator, the whole string when there is none.  The array [split]
    returns is never empty, so [pop] never yields undefined here. *)
Fixpoint split_pop_aux (sep : N) (s acc : jsstring) : jsstring :=
  match s with
  | [] => rev acc
  | c :: s' => if N.eqb c sep then split_pop_aux sep s' []
               else split_pop_aux sep s' (c :: acc)
  end.

Definition split_pop (sep : N) (s : jsstring) : jsstring :=
  split_pop_aux sep s [].

(** Number to string inside a template literal, for an integer. *)
Definition Z_toString (z : Z) : jsstring :=
  js (NilZero.string_of_int (Z.to_int z)).

(** Lines of a multi-line literal, joined by line feeds. *)
Fixpoint lines (l : list string) : jsstring :=
  match l with
  | [] => []
  | [x] => js x
  | x :: rest => js x ++ LF :: lines rest
  end.

(** A literal between double quotes. *)
Definition quoted (s : string) : jsstring := QUOTE :: js s ++ [QUOTE].

End JsString.
Import JsString.

(* ===================================================================== *)
(** ** Regular expressions *)
(* ===================================================================== *)

Module Regex.

(** The fragment of the pattern language the program's two regular
    expressions use.  Without the u flag a pattern matches code units.
    Quantified atoms are character classes in both patterns. *)
Inductive regex : Type :=
| Empty                         (* the empty pattern *)
| Unit (c : N)                  (* a literal code unit *)
| Class (p : N -> bool)         (* one unit of a class *)
| Seq (r1 r2 : regex)           (* r1 r2 *)
| Opt (r : regex)               (* r? , greedy *)
| Star (p : N -> bool)          (* c* , greedy *)
| LazyStar (p : N -> bool)      (* c*? *)
| Group (i : nat) (r : regex).  (* the i-th capturing group *)

(** c+ *)
Definition Plus (p : N -> bool) : regex := Seq (Class p) (Star p).

(** Patterns in a row. *)
Definition Cat (l : list regex) : regex := fold_right Seq Empty l.

(** A literal word. *)
Definition Word (w : string) : regex := Cat (map Unit (js w)).

(** Captured groups, by index. *)
Definition captures := list (nat * jsstring).

Fixpoint group (i : nat) (caps : captures) : option jsstring :=
  match caps with
  | [] => None
  | (j, s) :: rest => if Nat.eqb i j then Some s else group i rest
  end.

Section Matcher.
Variable A : Type.

(** What remains to be matched after a sub-pattern: the backtracking
    matcher of ECMAScript, in continuation-passing style.  An alternative
    is tried in priority order and the first that lets the continuation
    succeed wins. *)
Definition continuation := jsstring -> captures -> option A.

Definition or_else (x : option A) (y : unit -> option A) : option A :=
  match x with Some a => Some a | None => y tt end.

Fixpoint star (p : N -> bool) (s : jsstring) (caps : captures)
         (k : continuation) : option A :=
  match s with
  | c :: s' =>
      if p c then or_else (star p s' caps k) (fun _ => k s caps)
      else k s caps
  | [] => k s caps
  end.

Fixpoint lazy_star (p : N -> bool) (s : jsstring) (caps : captures)
         (k : continuation) : option A :=
  or_else (k s caps)
    (fun _ => match s with
              | c :: s' => if p c then lazy_star p s' caps k else None
              | [] => None
              end).

Fixpoint run (r : regex) (s : jsstring) (caps : captures)
         (k : continuation) : option A :=
  match r with
  | Empty => k s caps
  | Unit c =>
      match s with
      | x :: s' => if N.eqb x c then k s' caps else None
      | [] => None
      end
  | Class p =>
      match s with
      | x :: s' => if p x then k s' caps else None
      | [] => None
      end
  | Seq a b => run a s caps (fun s1 c1 => run b s1 c1 k)
  | Opt a => or_else (run a s caps k) (fun _ => k s caps)
  | Star p => star p s caps k
  | LazyStar p => lazy_star p s caps k
  | Group i a =>
      run a s caps
        (fun s1 c1 => k s1 ((i, firstn (List.length s - List.length s1) s) :: c1))
  end.
End Matcher.

(** A match anchored at the start of [s]: the text that follows the match
    and the groups. *)
Definition match_here (r : regex) (s : jsstring)
  : option (jsstring * captures) :=
  run r s [] (fun rest caps => Some (rest, caps)).

(** [s.match(r)] for a pattern without the g flag: the groups of the
    leftmost match, None for null. *)
Fixpoint search (r : regex) (s : jsstring) : option captures :=
  match match_here r s with
  | Some (_, caps) => Some caps
  | None => match s with
            | [] => None
            | _ :: s' => search r s'
            end
  end.

(** A subject string cut by a pattern with the g flag: the successive
    leftmost matches, and the units between them. *)
Inductive piece : Type :=
| Plain (c : N)
| Matched (caps : captures).

(** [skip] counts the units of the current match still to step over.  The
    global pattern of this program never matches the empty string, so a
    match always moves the scan forward. *)
Fixpoint scan (r : regex) (s : jsstring) (skip : nat) : list piece :=
  match s with
  | [] => []
  | c :: s' =>
      match skip with
      | S n => scan r s' n
      | O =>
          match match_here r s with
          | Some (rest, caps) =>
              Matched caps :: scan r s' (List.length s - List.length rest - 1)
          | None => Plain c :: scan r s' 0
          end
      end
  end.

End Regex.

(* ===================================================================== *)
(** ** JSON *)
(* ===================================================================== *)

Module Json.

(** A number token: the decimal [(-1)^negative * mantissa * 10^scale].
    JSON.parse yields the double nearest to it. *)
Record number_literal : Type := {
  negative : bool;
  mantissa : N;
  scale : Z
}.

(** What JSON.parse returns.  The members of an object are kept in source
    order, a repeated key included. *)
Inductive json : Type :=
| JNull
| JBool (b : bool)
| JNumber (n : number_literal)
| JString (s : jsstring)
| JArray (elements : list json)
| JObject (members : list (jsstring * json)).

(** Whether the double a token denotes is zero: the decimal is zero, or it
    is at most 2^-1075, half the least positive double, and rounds to zero
    (ties go to the even neighbour). *)
Definition number_is_zero (n : number_literal) : bool :=
  (N.eqb (mantissa n) 0
   || (scale n <? 0)%Z
      && (Z.of_N (mantissa n) * 2 ^ 1075 <=? 10 ^ (- scale n))%Z).

(** ToBoolean on a parsed value. *)
Definition truthy (v : json) : bool :=
  match v with
  | JNull => false
  | JBool b => b
  | JNumber n => negb (number_is_zero n)
  | JString s => str_truthy s
  | JArray _ | JObject _ => true
  end.

(** *** The grammar of JSON.parse (ECMA-404) *)

Definition isJsonSpace (c : N) : bool :=
  ((c =? 9) || (c =? 10) || (c =? 13) || (c =? 32))%N.

Fixpoint skip_ws (s : jsstring) : jsstring :=
  match s with
  | c :: s' => if isJsonSpace c then skip_ws s' else s
  | [] => []
  end.

Definition isDigit (c : N) : bool := ((48 <=? c) && (c <=? 57))%N.

Definition hexValue (c : N) : option N :=
  if isDigit c then Some (c - 48)%N
  else if ((97 <=? c) && (c <=? 102))%N then Some (c - 87)%N
  else if ((65 <=? c) && (c <=? 70))%N then Some (c - 55)%N
  else None.

Definition hex4 (a b c d : N) : option N :=
  match hexValue a, hexValue b, hexValue c, hexValue d with
  | Some x, Some y, Some z, Some w => Some (((x * 16 + y) * 16 + z) * 16 + w)%N
  | _, _, _, _ => None
  end.

(** The unit a one-letter escape stands for. *)
Definition escape (c : N) : option N :=
  if (c =? 34)%N then Some 34%N            (* quotation mark *)
  else if (c =? 92)%N then Some 92%N       (* reverse solidus *)
  else if (c =? 47)%N then Some 47%N       (* solidus *)
  else if (c =? 98)%N then Some 8%N        (* backspace *)
  else if (c =? 102)%N then Some 12%N      (* form feed *)
  else if (c =? 110)%N then Some 10%N      (* line feed *)
  else if (c =? 114)%N then Some 13%N      (* carriage return *)
  else if (c =? 116)%N then Some 9%N       (* tab *)
  else None.

(** A string, after its opening quote: its value and what follows the
    closing quote. *)
Fixpoint parse_string (s acc : jsstring) : option (jsstring * jsstring) :=
  match s with
  | [] => None
  | c :: r =>
      if (c =? 34)%N then Some (rev acc, r)
      else if (c =? 92)%N then
        match r with
        | [] => None
        | e :: r' =>
            if (e =? 117)%N then
              match r' with
              | h1 :: h2 :: h3 :: h4 :: r'' =>
                  match hex4 h1 h2 h3 h4 with
                  | Some u => parse_string r'' (u :: acc)
                  | None => None
                  end
              | _ => None
              end
            else
              match escape e with
              | Some u => parse_string r' (u :: acc)
              | None => None
              end
        end
      else if (c <? 32)%N then None
      else parse_string r (c :: acc)
  end.

(** A run of digits: its value continuing [acc], how many, what follows. *)
Fixpoint digits (s : jsstring) (acc : N) (n : nat) : N * nat * jsstring :=
  match s with
  | c :: s' =>
      if isDigit c then digits s' (acc * 10 + (c - 48))%N (S n)
      else (acc, n, s)
  | [] => (acc, n, s)
  end.

(** int: a single 0, or a digit from 1 to 9 and more digits. *)
Definition parse_int (s : jsstring) : option (N * jsstring) :=
  match s with
  | c :: s' =>
      if (c =? 48)%N then Some (0%N, s')
      else if isDigit c then
        let '(v, _, rest) := digits s' (c - 48)%N 1 in Some (v, rest)
      else None
  | [] => None
  end.

(** frac: nothing, or a point and at least one digit. *)
Definition parse_frac (m : N) (s : jsstring) : option (N * nat * jsstring) :=
  match s with
  | c :: s' =>
      if (c =? 46)%N then
        match digits s' m 0 with
        | (_, O, _) => None
        | (v, S n, rest) => Some (v, S n, rest)
        end
      else Some (m, O, s)
  | [] => Some (m, O, s)
  end.

(** exp: nothing, or e or E, an optional sign and at least one digit. *)
Definition parse_exp (s : jsstring) : option (Z * jsstring) :=
  match s with
  | c :: s' =>
      if ((c =? 101) || (c =? 69))%N then
        let '(neg, s'') :=
          match s' with
          | d :: t => if (d =? 45)%N then (true, t)
                      else if (d =? 43)%N then (false, t)
                      else (false, s')
          | [] => (false, s')
          end in
        match digits s'' 0 0 with
        | (_, O, _) => None
        | (v, S _, rest) =>
            Some (if neg then (- Z.of_N v)%Z else Z.of_N v, rest)
        end
      else Some (0%Z, s)
  | [] => Some (0%Z, s)
  end.

Definition parse_number (s : jsstring) : option (number_literal * jsstring) :=
  let '(neg, s1) :=
    match s with
    | c :: t => if (c =? 45)%N then (true, t) else (false, s)
    | [] => (false, s)
    end in
  match parse_int s1 with
  | None => None
  | Some (i, s2) =>
      match parse_frac i s2 with
      | None => None
      | Some (m, nfrac, s3) =>
          match parse_exp s3 with
          | None => None
          | Some (e, s4) =>
              Some ({| negative := neg; mantissa := m;
                       scale := (e - Z.of_nat nfrac)%Z |}, s4)
          end
      end
  end.

(** What a step of the parser yields: a value and the text after it, a
    syntax error, or no result within the allotted depth. *)
Inductive parsed (A : Type) : Type :=
| Parsed (a : A) (rest : jsstring)
| Invalid
| Exhausted.

Arguments Invalid {A}.
Arguments Exhausted {A}.

(** value, elements of an array after the opening bracket, and members of
    an object after the opening brace.  [fuel] bounds the depth of the
    calls; [JSON_parse] below allots enough of it. *)
Fixpoint parse_value (fuel : nat) (s : jsstring) {struct fuel} : parsed json :=
  match fuel with
  | O => Exhausted
  | S f =>
      match skip_ws s with
      | [] => Invalid
      | c :: r =>
          if (c =? 123)%N then
            match skip_ws r with
            | c' :: r' =>
                if (c' =? 125)%N then Parsed (JObject []) r'
                else parse_members f r []
            | [] => Invalid
            end
          else if (c =? 91)%N then
            match skip_ws r with
            | c' :: r' =>
                if (c' =? 93)%N then Parsed (JArray []) r'
                else parse_elements f r []
            | [] => Invalid
            end
          else if (c =? 34)%N then
            match parse_string r [] with
            | Some (v, rest) => Parsed (JString v) rest
            | None => Invalid
            end
          else if startsWith (c :: r) (js "true") then
            Parsed (JBool true) (skipn 4 (c :: r))
          else if startsWith (c :: r) (js "false") then
            Parsed (JBool false) (skipn 5 (c :: r))
          else if startsWith (c :: r) (js "null") then
            Parsed JNull (skipn 4 (c :: r))
          else
            match parse_number (c :: r) with
            | Some (n, rest) => Parsed (JNumber n) rest
            | None => Invalid
            end
      end
  end

with parse_elements (fuel : nat) (s : jsstring) (acc : list json)
       {struct fuel} : parsed json :=
  match fuel with
  | O => Exhausted
  | S f =>
      match parse_value f s with
      | Parsed v r =>
          match skip_ws r with
          | c :: r' =>
              if (c =? 44)%N then parse_elements f r' (v :: acc)
              else if (c =? 93)%N then Parsed (JArray (rev (v :: acc))) r'
              else Invalid
          | [] => Invalid
          end
      | Invalid => Invalid
      | Exhausted => Exhausted
      end
  end

with parse_members (fuel : nat) (s : jsstring) (acc : list (jsstring * json))
       {struct fuel} : parsed json :=
  match fuel with
  | O => Exhausted
  | S f =>
      match skip_ws s with
      | c :: r =>
          if (c =? 34)%N then
            match parse_string r [] with
            | Some (key, r1) =>
                match skip_ws r1 with
                | c1 :: r2 =>
                    if (c1 =? 58)%N then
                      match parse_value f r2 with
                      | Parsed v r3 =>
                          match skip_ws r3 with
                          | c3 :: r4 =>
                              if (c3 =? 44)%N then
                                parse_members f r4 ((key, v) :: acc)
                              else if (c3 =? 125)%N then
                                Parsed (JObject (rev ((key, v) :: acc))) r4
                              else Invalid
                          | [] => Invalid
                          end
                      | Invalid => Invalid
                      | Exhausted => Exhausted
                      end
                    else Invalid
                | [] => Invalid
                end
            | None => Invalid
            end
          else Invalid
      | [] => Invalid
      end
  end.

(** Depth that suffices for a text: two calls at most per unit read
    ([parse_value_fuel] below). *)
Definition fuel_for (s : jsstring) : nat := 2 * List.length s + 2.

(** JSON.parse(text): the value, or None for the SyntaxError it raises. *)
Definition JSON_parse (text : jsstring) : option json :=
  match parse_value (fuel_for text) text with
  | Parsed v rest =>
      match skip_ws rest with
      | [] => Some v
      | _ :: _ => None
      end
  | Invalid | Exhausted => None
  end.

(** What a parsing step may yield when its depth covers the text: never
    [Exhausted], and a value only after reading at least one unit. *)
Definition progresses (s : jsstring) (p : parsed json) : Prop :=
  match p with
  | Parsed _ r => (List.length r < List.length s)%nat
  | Invalid => True
  | Exhausted => False
  end.

(** *** JSON.stringify on strings *)

Definition hexDigit (d : N) : N :=
  if (d <? 10)%N then (48 + d)%N else (87 + d)%N.

(** The six units of a unicode escape, lower-case hexadecimal. *)
Definition unicodeEscape (c : N) : jsstring :=
  [92; 117; hexDigit (c / 4096); hexDigit ((c / 256) mod 16);
   hexDigit ((c / 16) mod 16); hexDigit (c mod 16)]%N.

Definition isHighSurrogate (c : N) : bool := ((55296 <=? c) && (c <=? 56319))%N.
Definition isLowSurrogate (c : N) : bool := ((56320 <=? c) && (c <=? 57343))%N.

(** One unit that is no surrogate, as QuoteJSONString writes it. *)
Definition quoteUnit (c : N) : jsstring :=
  if (c =? 8)%N then [92; 98]%N
  else if (c =? 9)%N then [92; 116]%N
  else if (c =? 10)%N then [92; 110]%N
  else if (c =? 12)%N then [92; 102]%N
  else if (c =? 13)%N then [92; 114]%N
  else if (c =? 34)%N then [92; 34]%N
  else if (c =? 92)%N then [92; 92]%N
  else if (c <? 32)%N then unicodeEscape c
  else [c].

(** A surrogate pair is kept; a surrogate on its own is escaped. *)
Fixpoint quoteUnits (s : jsstring) : jsstring :=
  match s with
  | [] => []
  | c :: r =>
      if isHighSurrogate c then
        match r with
        | l :: r' =>
            if isLowSurrogate l then c :: l :: quoteUnits r'
            else unicodeEscape c ++ quoteUnits r
        | [] => unicodeEscape c
        end
      else if isLowSurrogate c then unicodeEscape c ++ quoteUnits r
      else quoteUnit c ++ quoteUnits r
  end.

(** QuoteJSONString *)
Definition quoteJSONString (s : jsstring) : jsstring :=
  QUOTE :: quoteUnits s ++ [QUOTE].

End Json.

(* ===================================================================== *)
(** ** Exceptions *)
(* ===================================================================== *)

(** The failed HTTP exchange an error of the provider client may carry:
    [err.response.status] and [err.response.data]. *)
Record http_response : Type := {
  status : Z;
  data : option Json.json             (* None: undefined *)
}.

(** Values of a caught exception. *)
Inductive js_error : Type :=
| RequestError (message : jsstring) (response : option http_response)
    (* what the provider client rejects with; [response] is [err.response] *)
| TypeError
    (* a property read on null or undefined *)
| SyntaxError
    (* JSON.parse on a text that is not JSON *)
| Error (message : jsstring).
    (* new Error(message) *)

(** [err.response] *)
Definition response_of (err : js_error) : option http_response :=
  match err with
  | RequestError _ r => r
  | TypeError | SyntaxError | Error _ => None
  end.

(** A computation that returns or raises. *)
Inductive js_result (A : Type) : Type :=
| Return (a : A)
| Throw (e : js_error).

Arguments Return {A} a.
Arguments Throw {A} e.

(* ===================================================================== *)
(** ** Property lookup on an object literal *)
(* ===================================================================== *)

Module JsObject.

(** The value of [obj[key]] for an object literal [obj] whose own
    properties are strings: an own string, or the member of that name the
    literal inherits from Object.prototype, which is a function or an object
    and never a string. *)
Inductive member : Type :=
| OwnString (s : jsstring)
| Inherited (name : jsstring).

(** The names Object.prototype defines. *)
Definition Object_prototype : list jsstring :=
  map js ["constructor"; "hasOwnProperty"; "isPrototypeOf";
          "propertyIsEnumerable"; "toLocaleString"; "toString"; "valueOf";
          "__proto__"; "__defineGetter__"; "__defineSetter__";
          "__lookupGetter__"; "__lookupSetter__"]%string.

Fixpoint own (props : list (string * string)) (key : jsstring)
  : option jsstring :=
  match props with
  | [] => None
  | (k, v) :: rest => if str_eqb (js k) key then Some (js v) else own rest key
  end.

(** [obj[key]]: the own property first, then the prototype; None for
    undefined. *)
Definition get (props : list (string * string)) (key : jsstring)
  : option member :=
  match own props key with
  | Some v => Some (OwnString v)
  | None =>
      if existsb (str_eqb key) Object_prototype then Some (Inherited key)
      else None
  end.

(** [v || d] *)
Definition or_default (v : option member) (d : jsstring) : member :=
  match v with
  | Some (OwnString s) => OwnString (str_or s d)
  | Some (Inherited name) => Inherited name
  | None => OwnString d
  end.

(** The text a template literal interpolates for a member: the string
    itself; for an inherited member what its toString returns. *)
Definition toString (m : member) : jsstring :=
  match m with
  | OwnString s => s
  | Inherited name =>
      if str_eqb name (js "__proto__") then js "[object Object]"
      else js "function "
           ++ (if str_eqb name (js "constructor") then js "Object" else name)
           ++ js "() { [native code] }"
  end.

End JsObject.

(* ===================================================================== *)
(** ** src/utils/image-utils.ts *)
(* ===================================================================== *)

(** interface MultimodalSettings of settings.ts *)
Record MultimodalSettings : Type := {
  enabled : bool;
  visionModel : jsstring;
  maxImageSize : Q;                    (* in KB *)
  supportedFormats : list jsstring
}.

(** *** The vault, as image-utils.ts reads it *)

(** TFile: [path], [name] and [stat.size]. *)
Record TFile : Type := {
  file_path : jsstring;
  file_name : jsstring;
  stat_size : Z                        (* bytes *)
}.

Inductive TAbstractFile : Type :=
| IsFile (f : TFile)
| IsFolder (folder_path : jsstring).

Definition abstract_path (e : TAbstractFile) : jsstring :=
  match e with
  | IsFile f => file_path f
  | IsFolder p => p
  end.

(** What the code reaches through [app], and the engine it runs on.
    [entries] in the order of [vault.getFiles()]; [contents] is the bytes
    [vault.readBinary] resolves to for a path, None when the read is
    rejected.  [argumentLimit] is the most arguments the engine takes in
    one call: a call with more raises a RangeError.  The bound is the
    engine's own and differs from one engine to the next. *)
Record Vault : Type := {
  entries : list TAbstractFile;
  contents : jsstring -> option (list Byte.byte);
  argumentLimit : N
}.

(** What the generation core does to the outside, in order. *)
Inductive event (request : Type) : Type :=
| ReadBinary (path : jsstring)        (* vault.readBinary(file) *)
| Create (r : request).               (* client.chat.completions.create(r) *)

Arguments ReadBinary {request} path.
Arguments Create {request} r.

Module ImageUtils.
Import Regex.

Record ImageInfo : Type := {
  path : jsstring;
  base64 : jsstring;
  mimeType : JsObject.member;
  alt : option jsstring
}.

Definition notUnit (c : string) (x : N) : bool :=
  negb (existsb (N.eqb x) (js c)).

(** IMAGE_REGEX, with the g flag: an exclamation mark, the alt text
    between square brackets (group 1, any units but a closing bracket),
    the path between parentheses (group 2, one unit at least, none a
    closing parenthesis).  The pattern object is shared and keeps a
    lastIndex; both users leave it at 0 (the exec loop runs until null,
    replace resets it), so every scan starts at the beginning. *)
Definition IMAGE_REGEX : regex :=
  Cat [Word "!["; Group 1 (Star (notUnit "]")); Word "](";
       Group 2 (Plus (notUnit ")")); Word ")"].

(** A group that is no part of an optional sub-pattern: every match sets
    it. *)
Definition group_text (i : nat) (caps : captures) : jsstring :=
  match group i caps with
  | Some s => s
  | None => []
  end.

Record ImageReference : Type := {
  ref_alt : jsstring;
  ref_path : jsstring
}.

(** extractImageReferences *)
Definition extractImageReferences (markdownText : jsstring)
  : list ImageReference :=
  flat_map
    (fun p => match p with
              | Matched caps =>
                  [{| ref_alt := str_or (group_text 1 caps) [];
                      ref_path := group_text 2 caps |}]
              | Plain _ => []
              end)
    (scan IMAGE_REGEX markdownText 0).

Definition mimeTypes : list (string * string) :=
  [("jpg", "image/jpeg"); ("jpeg", "image/jpeg"); ("png", "image/png");
   ("gif", "image/gif"); ("bmp", "image/bmp"); ("webp", "image/webp");
   ("pdf", "application/pdf")]%string.

(** getMimeType *)
Definition getMimeType (extension : jsstring) : JsObject.member :=
  JsObject.or_default (JsObject.get mimeTypes (toLowerCase extension))
                      (js "image/jpeg").

(** [supportedFormats.includes(extension)] *)
Definition includes (l : list jsstring) (x : jsstring) : bool :=
  existsb (fun y => str_eqb y x) l.

(** isSupportedImageFormat *)
Definition isSupportedImageFormat (path : jsstring)
           (supportedFormats : list jsstring) : bool :=
  let extension := toLowerCase (split_pop (cu ".") path) in
  if str_truthy extension then includes supportedFormats extension else false.

(** isSupportedMediaFormat *)
Definition isSupportedMediaFormat (path : jsstring)
           (supportedFormats : list jsstring) : bool :=
  isSupportedImageFormat path supportedFormats.

(** getAllSupportedExtensions *)
Definition getAllSupportedExtensions : list jsstring :=
  map js ["jpg"; "jpeg"; "png"; "gif"; "bmp"; "webp"; "pdf"]%string.

(** bytesToKB: dividing by 1024 is exact on doubles, so the quotient is
    the rational. *)
Definition bytesToKB (bytes : Z) : Q := inject_Z bytes / 1024.

(** [a > b] *)
Definition Qgtb (a b : Q) : bool := negb (Qle_bool a b).

(** *** btoa(String.fromCharCode(...bytes)) *)

Definition fromCharCode (bytes : list Byte.byte) : jsstring :=
  map Byte.to_N bytes.

Definition base64Unit (i : N) : N :=
  if (i <? 26)%N then (65 + i)%N
  else if (i <? 52)%N then (97 + (i - 26))%N
  else if (i <? 62)%N then (48 + (i - 52))%N
  else if (i =? 62)%N then 43%N
  else 47%N.

(** btoa, on a string whose units are all below 256. *)
Fixpoint btoa (s : jsstring) : jsstring :=
  match s with
  | [] => []
  | [a] =>
      [base64Unit (a / 4); base64Unit ((a mod 4) * 16); 61; 61]%N
  | [a; b] =>
      [base64Unit (a / 4); base64Unit ((a mod 4) * 16 + b / 16);
       base64Unit ((b mod 16) * 4); 61]%N
  | a :: b :: c :: rest =>
      (base64Unit (a / 4) :: base64Unit ((a mod 4) * 16 + b / 16)
       :: base64Unit ((b mod 16) * 4 + c / 64) :: base64Unit (c mod 64)
       :: btoa rest)%N
  end.

(** *** The vault's operations *)

(** vault.getAbstractFileByPath *)
Definition getAbstractFileByPath (app : Vault) (p : jsstring)
  : option TAbstractFile :=
  find (fun e => str_eqb (abstract_path e) p) (entries app).

(** vault.getFiles *)
Definition getFiles (app : Vault) : list TFile :=
  flat_map (fun e => match e with IsFile f => [f] | IsFolder _ => [] end)
           (entries app).

(** vault.readBinary: the bytes or a rejection, and the read it leaves
    in the trace. *)
Definition readBinary {request : Type} (app : Vault) (f : TFile)
  : option (list Byte.byte) * list (event request) :=
  (contents app (file_path f), [ReadBinary (file_path f)]).

(** *** processImages *)

(** The file of the vault a reference path stands for, and the path to
    use from there on: the direct path first; then, over all files in
    listing order, a file of that name, a file whose path ends with the
    reference, a file named like the last segment of the reference. *)
Definition resolveImageFile (app : Vault) (imagePath : jsstring)
  : option TFile * jsstring :=
  match getAbstractFileByPath app imagePath with
  | Some (IsFile directFile) => (Some directFile, imagePath)
  | _ =>
      let allFiles := getFiles app in
      let foundFile :=
        match find (fun f => str_eqb (file_name f) imagePath) allFiles with
        | Some f => Some f
        | None =>
            match find (fun f => endsWith (file_path f) imagePath) allFiles with
            | Some f => Some f
            | None =>
                let imageName := str_or (split_pop (cu "/") imagePath) imagePath in
                find (fun f => str_eqb (file_name f) imageName) allFiles
            end
        end in
      match foundFile with
      | Some f => (Some f, file_path f)
      | None => (None, imagePath)
      end
  end.

(** The ImageInfo of a file that passed the checks: the bytes are read and
    encoded.  A rejected read is caught and yields nothing.  So is the
    RangeError of [String.fromCharCode(...uint8Array)], which passes every
    byte as an argument of one call, when the file has more bytes than
    the engine takes arguments; the read has been made by then. *)
Definition encodeFile {request : Type} (app : Vault) (f : TFile)
           (filePath : jsstring) (altText : jsstring)
  : option ImageInfo * list (event request) :=
  let '(bytes, reads) := readBinary app f in
  match bytes with
  | None => (None, reads)
  | Some arrayBuffer =>
      if (argumentLimit app <? N.of_nat (List.length arrayBuffer))%N then (None, reads)
      else
        let base64 := btoa (fromCharCode arrayBuffer) in
        let extension :=
          str_or (toLowerCase (split_pop (cu ".") filePath)) (js "jpeg") in
        (Some {| path := filePath; base64 := base64;
                 mimeType := getMimeType extension; alt := Some altText |},
         reads)
  end.

(** One turn of the loop over the references: the image to push, if any,
    and the reads made. *)
Definition processImage {request : Type} (app : Vault)
           (multimodalSettings : MultimodalSettings) (imageRef : ImageReference)
  : option ImageInfo * list (event request) :=
  let imagePath := ref_path imageRef in
  if startsWith imagePath (js "http://") || startsWith imagePath (js "https://")
  then (None, [])
  else if negb (isSupportedImageFormat imagePath
                  (supportedFormats multimodalSettings))
  then (None, [])
  else
    match resolveImageFile app imagePath with
    | (None, _) => (None, [])
    | (Some imageFile, imagePath') =>
        if Qgtb (bytesToKB (stat_size imageFile))
                (maxImageSize multimodalSettings)
        then (None, [])
        else encodeFile app imageFile imagePath' (ref_alt imageRef)
    end.

Fixpoint processImageReferences {request : Type} (app : Vault)
         (multimodalSettings : MultimodalSettings)
         (imageReferences : list ImageReference)
  : list ImageInfo * list (event request) :=
  match imageReferences with
  | [] => ([], [])
  | imageRef :: rest =>
      let '(image, reads) := processImage app multimodalSettings imageRef in
      let '(images, reads') :=
        processImageReferences app multimodalSettings rest in
      (match image with Some i => i :: images | None => images end,
       reads ++ reads')
  end.

Definition processImages {request : Type} (app : Vault)
           (markdownText : jsstring) (multimodalSettings : MultimodalSettings)
  : list ImageInfo * list (event request) :=
  if negb (enabled multimodalSettings) then ([], [])
  else processImageReferences app multimodalSettings
         (extractImageReferences markdownText).

(** processStandaloneFile: None for null. *)
Definition processStandaloneFile {request : Type} (app : Vault) (file : TFile)
           (multimodalSettings : MultimodalSettings)
  : option ImageInfo * list (event request) :=
  if negb (enabled multimodalSettings) then (None, [])
  else
    let filePath := file_path file in
    if negb (isSupportedMediaFormat filePath
               (supportedFormats multimodalSettings))
    then (None, [])
    else if Qgtb (bytesToKB (stat_size file)) (maxImageSize multimodalSettings)
    then (None, [])
    else encodeFile app file filePath (file_name file).

(** stripImageMarkdown *)
Definition stripImageMarkdown (markdownText : jsstring) : jsstring :=
  flat_map
    (fun p => match p with
              | Plain c => [c]
              | Matched caps =>
                  str_or (group_text 1 caps)
                         (js "[Image: " ++ group_text 2 caps ++ js "]")
              end)
    (scan IMAGE_REGEX markdownText 0).

End ImageUtils.

(* ===================================================================== *)
(** ** The gpt module (src/unnamed/part_000) *)
(* ===================================================================== *)

Module Gpt.
Import Json ImageUtils.

Record CardInformation : Type := {
  q : jsstring;
  a : jsstring
}.

(** type AIProvider of settings.ts.  The type is closed, so the branch of
    the entry points that raises on any other provider has no input. *)
Inductive AIProvider : Type := openai | ollama.

(** checkAI *)
Definition checkAI (provider : AIProvider) (apiKey : jsstring)
           (baseUrl : option jsstring) : bool :=
  match provider with
  | openai => if str_eqb apiKey [] then false else true
  | ollama =>
      match baseUrl with
      | None => false
      | Some u => if str_eqb u [] then false else true
      end
  end.

(** checkGpt *)
Definition checkGpt (openAiKey : jsstring) : bool :=
  checkAI openai openAiKey None.

Definition SAMPLE_NOTE : jsstring :=
  js "A numeral system is a writing system for expressing numbers. It is a mathematical notation for representing numbers of a given set, using digits or other symbols in a consistent manner."
  ++ LF :: lines [
    "";
    "Ideally, a numeral system will:";
    "- represent a useful set of numbers (eg: integers, rational numbers)";
    "- give every number represented a unique representation";
    "- reflect the algebraic and arithmetic structure of the numbers";
    "";
    "#### Positional Notation"]%string
  ++ LF :: js "> also known as the " ++ quoted "place-value notation"
  ++ LF :: lines [
    "";
    "Uses a **radix**/**base** (eg: base 10) to indicate the number of unique *digits* that are used to represent numbers in a position until the position of the digit is used to signify a power of the *base* number.";
    "";
    "- Positional Systems with Base 2: [[Binary Numeral System]]";
    "- Positional Systems with Base 8: Octal Numeral System";
    "- Positional Systems with Base 10: Decimal Numeral System";
    "- Positional Systems with Base 12: Duodecimal (dozenal) Numeral System";
    "- Positional Systems with Base 16: Hexadecimal Numeral System";
    "- Positional Systems with Base 20: Vigesimal Numeral System";
    "- Positional Systems with Base 60: Sexagesimal Numeral System";
    ""]%string.

Definition card (question answer : string) : CardInformation :=
  {| q := js question; a := js answer |}.

Definition SAMPLE_OUTPUT : list CardInformation := [
  card "What is a numeral system?" "A numeral system is a writing system for expressing numbers, using digits or other symbols in a consistent manner.";
  card "What is the goal of a numeral system?" "The goal of a numeral system is to represent a useful set of numbers (eg: integers, rational numbers), give every number represented a unique representation, and reflect the algebraic and arithmetic structure of the numbers.";
  card "What is a positional notation also known as?" "Place-value Notation";
  card "What is a radix/base used for in the context of positional notation?" "To indicate the number of unique digits that are used to represent numbers in a position until the position of the digit is used to signify a power of the base number";
  card "What numeral system uses a base of 2?" "Binary Numeral System";
  card "What numeral system uses a base of 8?" "Octal Numeral System";
  card "What numeral system uses a base of 10?" "Decimal Numeral System";
  card "What numeral system uses a base of 12?" "Duodecimal Numeral System";
  card "What numeral system uses a base of 16?" "Hexadecimal Numeral System";
  card "What numeral system uses a base of 20?" "Vigesimal Numeral System";
  card "What numeral system uses a base of 60?" "Sexagesimal Numeral System";
  card "What is binary number representation?" "Binary number representation is a number expressed in the base-2 numeral system or binary numeral system."
].

(** [l.slice(0, e)] for an integer [e]: a negative end counts from the end
    of the array. *)
Definition slice0 {A : Type} (l : list A) (e : Z) : list A :=
  let len := Z.of_nat (List.length l) in
  let final := if (e <? 0)%Z then Z.max (len + e) 0 else Z.min e len in
  firstn (Z.to_nat final) l.

(** The while loop of generateRepeatedSampleOutput.  [fuel] bounds the
    number of turns; the caller allots [num] of them, and the loop leaves
    before they are spent ([pushLoop_runs] below). *)
Fixpoint pushLoop (fuel : nat) (num count : Z) (output : list CardInformation)
  : list CardInformation :=
  match fuel with
  | O => output
  | S f =>
      if (count <? num)%Z then
        pushLoop f num (count + Z.of_nat (List.length SAMPLE_OUTPUT))%Z
                 (output ++ SAMPLE_OUTPUT)
      else output
  end.

(** The loop as the source runs it, with no bound on its turns:
    [whileLoop num count output result] when the loop entered with [count]
    and [output] leaves with [result]. *)
Inductive whileLoop (num : Z) : Z -> list CardInformation ->
                                list CardInformation -> Prop :=
| whileLoop_exit (count : Z) (output : list CardInformation) :
    (num <= count)%Z -> whileLoop num count output output
| whileLoop_turn (count : Z) (output result : list CardInformation) :
    (count < num)%Z ->
    whileLoop num (count + Z.of_nat (List.length SAMPLE_OUTPUT))%Z
              (output ++ SAMPLE_OUTPUT) result ->
    whileLoop num count output result.

(** generateRepeatedSampleOutput, for an integer count. *)
Definition generateRepeatedSampleOutput (num : Z) : list CardInformation :=
  if (num <? Z.of_nat (List.length SAMPLE_OUTPUT))%Z
  then slice0 SAMPLE_OUTPUT num
  else slice0 (pushLoop (Z.to_nat num) num 0 []) num.

(** *** Messages *)

Inductive Role : Type := system | user | assistant.

Inductive ContentPart : Type :=
| text_part (text : jsstring)              (* { type: 'text', text } *)
| image_url_part (url : jsstring).         (* { type: 'image_url', image_url: { url } } *)

Inductive Content : Type :=
| plain (s : jsstring)                     (* a string *)
| parts (l : list ContentPart).            (* an array of segments *)

Record Message : Type := {
  role : Role;
  content : Content
}.

(** JSON.stringify({ questions_answers: cards }) *)
Fixpoint join (sep : jsstring) (l : list jsstring) : jsstring :=
  match l with
  | [] => []
  | [x] => x
  | x :: rest => x ++ sep ++ join sep rest
  end.

Definition stringifyCard (c : CardInformation) : jsstring :=
  js "{" ++ quoted "q" ++ js ":" ++ quoteJSONString (q c)
  ++ js "," ++ quoted "a" ++ js ":" ++ quoteJSONString (a c) ++ js "}".

Definition stringifySample (cards : list CardInformation) : jsstring :=
  js "{" ++ quoted "questions_answers" ++ js ":["
  ++ join (js ",") (map stringifyCard cards) ++ js "]}".

(** The data URL of an attachment. *)
Definition dataUrl (image : ImageInfo) : jsstring :=
  js "data:" ++ JsObject.toString (mimeType image) ++ js ";base64,"
  ++ base64 image.

Definition jsonFormatLine : jsstring :=
  js "        - output the questions and answers in the following JSON format { "
  ++ quoted "questions_answers" ++ js ": [{ " ++ quoted "q" ++ js ": "
  ++ quoted "<generated question>" ++ js ", " ++ quoted "a" ++ js ": "
  ++ quoted "<generated answer>" ++ js " }] }".

(** [images && images.length > 0] *)
Definition hasImages (images : option (list ImageInfo)) : bool :=
  match images with
  | Some (_ :: _) => true
  | Some [] | None => false
  end.

(** createMessages *)
Definition createMessages (notes : jsstring) (num : Z)
           (images : option (list ImageInfo)) : list Message :=
  let systemContent :=
    if hasImages images then
      js "You will be provided notes on a specific topic along with images. The notes are formatted in markdown. Based on the given notes and images, make a list of "
      ++ Z_toString num
      ++ js " questions and short answers that can be used for reviewing said notes by spaced repetition. Use the following guidelines:"
      ++ LF :: jsonFormatLine
      ++ LF :: lines [
        "        - ensure that the questions cover the entire portion of the given notes and images, do not come up with similar questions or repeat the same questions";
        "        - when referencing images in questions or answers, describe the relevant visual content clearly";
        "        - create questions that test understanding of both textual and visual information where applicable"]%string
    else
      js "You will be provided notes on a specific topic. The notes are formatted in markdown. Based on the given notes, make a list of "
      ++ Z_toString num
      ++ js " questions and short answers that can be used for reviewing said notes by spaced repetition. Use the following guidelines:"
      ++ LF :: jsonFormatLine
      ++ LF :: js "        - ensure that the questions cover the entire portion of the given notes, do not come up with similar questions or repeat the same questions" in
  let messages := [] in
  let messages := messages ++ [{| role := system; content := plain systemContent |}] in
  let messages := messages ++ [{| role := user; content := plain SAMPLE_NOTE |}] in
  let messages :=
    messages ++ [{| role := assistant;
                    content := plain (stringifySample
                                        (generateRepeatedSampleOutput num)) |}] in
  let userText := LF :: trim notes ++ [LF] in
  match images with
  | Some (i :: rest) =>
      messages ++ [{| role := user;
                      content := parts (text_part userText
                                        :: map (fun image => image_url_part (dataUrl image))
                                               (i :: rest)) |}]
  | Some [] | None =>
      messages ++ [{| role := user; content := plain userText |}]
  end.

(** [fileInfo.alt || fileInfo.path] *)
Definition altOrPath (fileInfo : ImageInfo) : jsstring :=
  match alt fileInfo with
  | Some t => str_or t (path fileInfo)
  | None => path fileInfo
  end.

(** createMessagesForStandaloneFile *)
Definition createMessagesForStandaloneFile (fileInfo : ImageInfo) (num_q : Z)
  : list Message :=
  let messages := [] in
  let num := 1%Z in
  let messages :=
    messages ++ [{| role := system;
                    content := plain (
      js "You are a helpful assistant designed to generate comprehensive flashcard questions and answers from visual content (images, PDFs, etc.). "
      ++ LF :: lines [
        "";
        "Your task is to:";
        "1. Analyze the provided file content carefully"]%string
      ++ LF :: js "2. Generate " ++ Z_toString num_q
      ++ js " high-quality questions that test understanding of the visual content"
      ++ LF :: lines [
        "3. Provide clear, accurate answers";
        "4. Focus on key concepts, details, and information visible in the file";
        "5. Make questions specific to what can be observed in the content";
        "";
        "Format your response as a JSON object with this exact structure:";
        "{"]%string
      ++ LF :: js "    " ++ quoted "questions_answers" ++ js ": ["
      ++ LF :: js "        {" ++ quoted "q" ++ js ": " ++ quoted "Your question here"
      ++ js ", " ++ quoted "a" ++ js ": " ++ quoted "Your answer here" ++ js "}"
      ++ LF :: lines [
        "    ]";
        "}";
        "";
        "Important guidelines:";
        "- Questions should be clear and specific to the visual content";
        "- Answers should be comprehensive but concise";
        "- Focus on educational value";
        "- Ensure questions test different aspects of the content (if applicable)";
        "- For images: focus on visible elements, diagrams, text, concepts shown";
        "- For PDFs: focus on key information, structure, main points";
        ""]%string) |}] in
  let messages :=
    messages ++ [{| role := assistant;
                    content := plain (stringifySample
                                        (generateRepeatedSampleOutput num)) |}] in
  let content := [
    text_part (js "Please analyze this file and generate " ++ Z_toString num_q
               ++ js " educational flashcard questions and answers based on its content: "
               ++ altOrPath fileInfo);
    image_url_part (dataUrl fileInfo)] in
  messages ++ [{| role := user; content := parts content |}].

(** *** The provider *)

(** The rest object [completionOptions]: the options without
    max_tokens_per_question.  GptAdvancedOptions extends
    Partial<ChatCompletionCreateParamsBase>: besides the four sampling
    numbers, which it requires, the options may hold any parameter of a
    request.  The parameters the entry points write themselves have a
    field each, None when the options do not hold the member;
    [other_parameters] is the remaining members (seed, stop, user, ...),
    by name. *)
Record CompletionOptions : Type := {
  temperature : Q;
  top_p : Q;
  frequency_penalty : Q;
  presence_penalty : Q;
  options_model : option jsstring;
  options_messages : option (list Message);
  options_max_tokens : option Z;
  options_n : option Z;
  options_stream : option bool;
  options_response_format : option jsstring;
  other_parameters : list (jsstring * json)
}.

(** interface GptAdvancedOptions of settings.ts *)
Record GptAdvancedOptions : Type := {
  completionOptions : CompletionOptions;
  max_tokens_per_question : Z
}.

(** What [new OpenAI(...)] is given. *)
Record ClientOptions : Type := {
  baseURL : option jsstring;
  clientApiKey : jsstring
}.

(** The object passed to create.  It is written as the spread of the rest
    object followed by keys of its own, and a key written later replaces
    the member of that name: [spread] is the rest object as spread, and
    the fields after it are the members of the object as sent, None for a
    member that neither the spread nor a key provides. *)
Record ChatCompletionCreateParams : Type := {
  spread : CompletionOptions;           (* ...completionOptions *)
  model : jsstring;
  messages : list Message;
  max_tokens : Z;
  n : option Z;
  stream : bool;
  response_format : option jsstring     (* the type of { type: ... } *)
}.

(** A call of [client.chat.completions.create(completionParams)]. *)
Record Request : Type := {
  client : ClientOptions;
  completionParams : ChatCompletionCreateParams
}.

(** A choice of the completion: [message.content], None for null.  The
    client's type makes [message] a required member of a choice. *)
Record Choice : Type := {
  message_content : option jsstring
}.

Record ChatCompletion : Type := {
  choices : list Choice
}.

(** The provider's answer to a request: a completion, or the error the
    client rejects with. *)
Definition Provider : Type := Request -> js_result ChatCompletion.

(** [baseUrl + '/v1'] *)
Definition baseUrlV1 (baseUrl : option jsstring) : jsstring :=
  match baseUrl with
  | Some u => u ++ js "/v1"
  | None => js "undefined/v1"
  end.

(** [model || d] for an optional string. *)
Definition opt_or (s : option jsstring) (d : jsstring) : jsstring :=
  match s with
  | Some x => str_or x d
  | None => d
  end.

(** *** Parsing the choices *)

Definition KEY : jsstring := js "questions_answers".

(** [v["questions_answers"]] on a parsed value: a TypeError on null; the
    last member of that name of an object; undefined (None) otherwise,
    since no prototype of a parsed value has a member of that name. *)
Definition questions_answers (v : json) : js_result (option json) :=
  match v with
  | JNull => Throw TypeError
  | JObject members =>
      Return (option_map snd
                (find (fun m => str_eqb (fst m) KEY) (rev members)))
  | JBool _ | JNumber _ | JString _ | JArray _ => Return None
  end.

(** The pattern of the fence search: three backquotes, an optional json
    tag, white space, an optional line feed, the shortest text (group 1)
    before an optional line feed, white space and three backquotes. *)
Definition FENCE_REGEX : Regex.regex :=
  Regex.Cat [Regex.Word "```"; Regex.Opt (Regex.Word "json");
             Regex.Star isWhiteSpace; Regex.Opt (Regex.Unit LF);
             Regex.Group 1 (Regex.LazyStar (fun _ => true));
             Regex.Opt (Regex.Unit LF); Regex.Star isWhiteSpace;
             Regex.Word "```"].

(** [jsonMatch[1]] as JSON.parse reads it: undefined becomes the text
    undefined. *)
Definition matchGroup1 (jsonMatch : Regex.captures) : jsstring :=
  match Regex.group 1 jsonMatch with
  | Some s => s
  | None => js "undefined"
  end.

Definition notFound : js_error :=
  Error (js "questions_answers not found in response").

(** The inner try block of the forEach callback, the same in both entry
    points: the value it pushes, or the exception the inner catch
    receives. *)
Definition parseChoiceContent (content : jsstring) : js_result json :=
  match JSON_parse content with
  | None => Throw SyntaxError
  | Some parsedContent =>
      match questions_answers parsedContent with
      | Throw e => Throw e
      | Return None =>
          match Regex.search FENCE_REGEX content with
          | Some jsonMatch =>
              match JSON_parse (matchGroup1 jsonMatch) with
              | None => Throw SyntaxError
              | Some jsonContent =>
                  match questions_answers jsonContent with
                  | Throw e => Throw e
                  | Return (Some v) =>
                      if truthy v then Return v else Throw notFound
                  | Return None => Throw notFound
                  end
              end
          | None => Throw notFound
          end
      | Return (Some v) =>
          (* the log line reads the length of the value *)
          match v with
          | JNull => Throw TypeError
          | _ => Return v
          end
      end
  end.

(** The forEach callback: a value is pushed, or the exception is caught
    and logged and card_choices is left as it was. *)
Definition pushChoice (card_choices : list json) (content : jsstring)
  : list json :=
  match parseChoiceContent content with
  | Return v => card_choices ++ [v]
  | Throw _ => card_choices
  end.

(** [set.message.content ?? ''] *)
Definition noteChoiceContent (set : Choice) : jsstring :=
  match message_content set with
  | Some c => c
  | None => []
  end.

(** [set.message?.content?.trim() || ''] *)
Definition fileChoiceContent (set : Choice) : jsstring :=
  match message_content set with
  | Some c => str_or (trim c) []
  | None => []
  end.

(** [response.choices.forEach(...)] over an empty card_choices. *)
Definition parseChoices (contentOf : Choice -> jsstring)
           (response : ChatCompletion) : list json :=
  fold_left (fun card_choices set => pushChoice card_choices (contentOf set))
            (choices response) [].

(** *** convertNotesToFlashcards *)

(** The catch block around the submission: it returns an empty array,
    unless building the log message raises, which happens when the error
    carries a response whose data is null or undefined. *)
Definition submissionFailed (err : js_error) : js_result (list json) :=
  match response_of err with
  | None => Return []
  | Some r =>
      match data r with
      | None | Some JNull => Throw TypeError
      | Some _ => Return []
      end
  end.

(** Whether the catch block can build its log line: the error carries no
    response, or a response whose data is neither null nor undefined. *)
Definition bodyReadable (err : js_error) : bool :=
  match response_of err with
  | None => true
  | Some r =>
      match data r with
      | None | Some JNull => false
      | Some _ => true
      end
  end.

Definition nonEmpty {A : Type} (l : list A) : bool :=
  match l with [] => false | _ :: _ => true end.

(** The request of the note flow, from the images resolved. *)
Definition noteRequest (provider : AIProvider) (apiKey : jsstring)
           (processedNotes : jsstring) (processedImages : list ImageInfo)
           (num_q num : Z) (options : GptAdvancedOptions)
           (baseUrl model : option jsstring)
           (multimodalSettings : option MultimodalSettings) : Request :=
  let '(clientOptions, modelToUse) :=
    match provider with
    | openai =>
        ({| baseURL := None; clientApiKey := apiKey |},
         if nonEmpty processedImages then js "gpt-4-vision-preview"
         else js "gpt-3.5-turbo-1106")
    | ollama =>
        ({| baseURL := Some (baseUrlV1 baseUrl); clientApiKey := js "ollama" |},
         match multimodalSettings with
         | Some ms =>
             if nonEmpty processedImages && enabled ms then visionModel ms
             else opt_or model (js "llama3.2")
         | None => opt_or model (js "llama3.2")
         end)
    end in
  let tokensPerQuestion := max_tokens_per_question options in
  {| client := clientOptions;
     completionParams := {|
       spread := completionOptions options;
       model := modelToUse;
       messages := createMessages processedNotes num_q
                     (if nonEmpty processedImages then Some processedImages
                      else None);
       max_tokens := (tokensPerQuestion * num_q)%Z;
       n := Some num;
       stream := false;
       response_format :=
         match provider with
         | openai =>
             if nonEmpty processedImages
             then options_response_format (completionOptions options)
             else Some (js "json_object")
         | ollama => options_response_format (completionOptions options)
         end |} |}.

(** The first step of the try block: the images of the notes, resolved
    when multimodal support is configured and switched on. *)
Definition noteImages (app : Vault) (notes : jsstring)
           (multimodalSettings : option MultimodalSettings)
  : list ImageInfo * list (event Request) :=
  match multimodalSettings with
  | Some ms => if enabled ms then processImages app notes ms else ([], [])
  | None => ([], [])
  end.

(** The notes as sent: without the image markdown when images are
    attached. *)
Definition noteText (notes : jsstring) (processedImages : list ImageInfo)
  : jsstring :=
  if nonEmpty processedImages then stripImageMarkdown notes else notes.

Definition convertNotesToFlashcards (app : Vault) (create : Provider)
           (provider : AIProvider) (apiKey : jsstring) (notes : jsstring)
           (num_q num : Z) (options : GptAdvancedOptions)
           (baseUrl model : option jsstring)
           (multimodalSettings : option MultimodalSettings)
  : js_result (list json) * list (event Request) :=
  let '(processedImages, reads) := noteImages app notes multimodalSettings in
  let processedNotes := noteText notes processedImages in
  let request :=
    noteRequest provider apiKey processedNotes processedImages num_q num
                options baseUrl model multimodalSettings in
  (match create request with
   | Throw err => submissionFailed err
   | Return response => Return (parseChoices noteChoiceContent response)
   end,
   reads ++ [Create request]).

(** *** convertStandaloneFileToFlashcards *)

(** The request of the standalone-file flow. *)
Definition fileRequest (provider : AIProvider) (apiKey : jsstring)
           (processedFile : ImageInfo) (num_q num : Z)
           (options : GptAdvancedOptions) (baseUrl : option jsstring)
           (multimodalSettings : MultimodalSettings) : Request :=
  let '(clientOptions, modelToUse) :=
    match provider with
    | openai =>
        ({| baseURL := None; clientApiKey := apiKey |},
         js "gpt-4-vision-preview")
    | ollama =>
        ({| baseURL := Some (baseUrlV1 baseUrl); clientApiKey := js "ollama" |},
         str_or (visionModel multimodalSettings) (js "llama3.2-vision:11b"))
    end in
  let tokensPerQuestion := max_tokens_per_question options in
  {| client := clientOptions;
     completionParams := {|
       spread := completionOptions options;
       model := modelToUse;
       messages := createMessagesForStandaloneFile processedFile num_q;
       max_tokens := (tokensPerQuestion * num_q * num)%Z;
       n := options_n (completionOptions options);
       stream := false;
       response_format :=
         options_response_format (completionOptions options) |} |}.

Definition notEnabled : js_error :=
  Error (js "Multimodal support is not enabled").

(** The first catch block logs the error and raises it again. *)
Definition convertStandaloneFileToFlashcards (app : Vault) (create : Provider)
           (provider : AIProvider) (apiKey : jsstring) (file : TFile)
           (num_q num : Z) (options : GptAdvancedOptions)
           (baseUrl model : option jsstring)
           (multimodalSettings : option MultimodalSettings)
  : js_result (list json) * list (event Request) :=
  match multimodalSettings with
  | Some ms =>
      if enabled ms then
        let '(processedFile, reads) := processStandaloneFile app file ms in
        match processedFile with
        | None =>
            (Throw (Error (js "Failed to process file: " ++ file_path file)),
             reads)
        | Some fileInfo =>
            let request :=
              fileRequest provider apiKey fileInfo num_q num options baseUrl ms in
            (match create request with
             | Throw error => Throw error
             | Return response =>
                 Return (parseChoices fileChoiceContent response)
             end,
             reads ++ [Create request])
        end
      else (Throw notEnabled, [])
  | None => (Throw notEnabled, [])
  end.

End Gpt.

(* ===================================================================== *)
(** ** src/utils/image-utils.ts: the active file *)
(* ===================================================================== *)

Module ActiveFile.
Import ImageUtils.

(** isActiveFileSupportedMedia.  [activeFile] is what
    [app.workspace.getActiveFile()] returns, None for null. *)
Definition isActiveFileSupportedMedia (activeFile : option TFile)
           (supportedFormats : list jsstring) : option TFile :=
  match activeFile with
  | None => None
  | Some f =>
      if isSupportedMediaFormat (file_path f) supportedFormats then Some f
      else None
  end.

End ActiveFile.

(* ===================================================================== *)
(** ** settings.ts: the defaults *)
(* ===================================================================== *)

Module Settings.
Import Gpt.

(** DEFAULT_SETTINGS.multimodal *)
Definition DEFAULT_multimodal : MultimodalSettings :=
  {| enabled := false;
     visionModel := js "llama3.2-vision:11b";
     maxImageSize := 5000;
     supportedFormats :=
       map js ["jpg"; "jpeg"; "png"; "gif"; "bmp"; "webp"]%string |}.

(** DEFAULT_SETTINGS.gptAdvancedOptions *)
Definition DEFAULT_gptAdvancedOptions : GptAdvancedOptions :=
  {| completionOptions :=
       {| temperature := 1; top_p := 1;
          frequency_penalty := 0; presence_penalty := 0;
          options_model := None; options_messages := None;
          options_max_tokens := None; options_n := None;
          options_stream := None; options_response_format := None;
          other_parameters := [] |};
     max_tokens_per_question := 100 |}.

(** DEFAULT_SETTINGS.ollamaModel *)
Definition DEFAULT_ollamaModel : jsstring := js "llama3.2".

End Settings.

(* ===================================================================== *)
(** ** Concrete requests *)
(* ===================================================================== *)

(** Inputs on which the properties below are evaluated. *)
Module Scenario.
Import Json ImageUtils Gpt Settings.

(** The text {"questions_answers":[{"q":"X","a":"Y"}]} *)
Definition unfenced : jsstring :=
  js "{" ++ quoted "questions_answers" ++ js ":[{" ++ quoted "q" ++ js ":"
  ++ quoted "X" ++ js "," ++ quoted "a" ++ js ":" ++ quoted "Y" ++ js "}]}".

(** The same text inside a code fence tagged json. *)
Definition fenced : jsstring :=
  js "```json" ++ LF :: unfenced ++ LF :: js "```".

(** The value the unfenced text holds under questions_answers. *)
Definition cardXY : json :=
  JArray [JObject [(js "q", JString (js "X")); (js "a", JString (js "Y"))]].

Definition prose : jsstring :=
  js "Sure! Here are some flashcards about numeral systems.".

Definition choice (text : jsstring) : Choice :=
  {| message_content := Some text |}.

(** A provider that answers every request with the given choices. *)
Definition answering (texts : list jsstring) : Provider :=
  fun _ => Return {| choices := map choice texts |}.

(** A provider that cannot be reached: the client rejects with an error
    that carries no response. *)
Definition unreachable : Provider :=
  fun _ => Throw (RequestError (js "Connection error.") None).

(** A provider that answers with an HTTP error and a body. *)
Definition rejecting (code : Z) (body : json) : Provider :=
  fun _ => Throw (RequestError (js "Request failed")
                    (Some {| status := code; data := Some body |})).

Definition diagram : TFile :=
  {| file_path := js "assets/cell.png";
     file_name := js "cell.png";
     stat_size := 4 |}.

(** A file whose extension is the name of a member of Object.prototype. *)
Definition oddFile : TFile :=
  {| file_path := js "notes.constructor";
     file_name := js "notes.constructor";
     stat_size := 4 |}.

(** A vault with one folder and two small files, on an engine that takes
    65536 arguments in a call. *)
Definition vault : Vault :=
  {| entries := [IsFolder (js "assets"); IsFile diagram; IsFile oddFile];
     contents := fun p =>
       if str_eqb p (js "assets/cell.png") || str_eqb p (js "notes.constructor")
       then Some [Byte.x89; Byte.x50; Byte.x4e; Byte.x47]
       else None;
     argumentLimit := 65536 |}.

(** A scan of 200000 bytes, and a vault that holds it, on the same
    engine. *)
Definition largeScan : TFile :=
  {| file_path := js "scans/page.png";
     file_name := js "page.png";
     stat_size := 200000 |}.

Definition scanVault : Vault :=
  {| entries := [IsFile largeScan];
     contents := fun p =>
       if str_eqb p (js "scans/page.png")
       then Some (repeat Byte.x00 (N.to_nat 200000))
       else None;
     argumentLimit := 65536 |}.

Definition notes : jsstring :=
  js "Cells divide by mitosis. ![cell diagram](cell.png) Each daughter cell is a copy.".

Definition plainNotes : jsstring :=
  js "Cells divide by mitosis.".

(** Multimodal support switched on, the vision model as shipped. *)
Definition visionOn : MultimodalSettings :=
  {| enabled := true;
     visionModel := visionModel DEFAULT_multimodal;
     maxImageSize := maxImageSize DEFAULT_multimodal;
     supportedFormats := supportedFormats DEFAULT_multimodal |}.

(** Multimodal support switched on, the vision model left empty. *)
Definition visionUnset : MultimodalSettings :=
  {| enabled := true;
     visionModel := [];
     maxImageSize := maxImageSize DEFAULT_multimodal;
     supportedFormats := supportedFormats DEFAULT_multimodal |}.

(** Multimodal support switched on, with a format list of the user's that
    names the extension of [oddFile]. *)
Definition oddFormats : MultimodalSettings :=
  {| enabled := true;
     visionModel := visionModel DEFAULT_multimodal;
     maxImageSize := maxImageSize DEFAULT_multimodal;
     supportedFormats := map js ["png"; "constructor"]%string |}.

(** The ImageInfo of the image of the vault. *)
Definition diagramInfo : ImageInfo :=
  {| path := js "assets/cell.png";
     base64 := js "iVBORw==";
     mimeType := JsObject.OwnString (js "image/png");
     alt := Some (js "cell diagram") |}.

(** What processStandaloneFile makes of the image of the vault. *)
Definition diagramFileInfo : ImageInfo :=
  {| path := js "assets/cell.png";
     base64 := js "iVBORw==";
     mimeType := JsObject.OwnString (js "image/png");
     alt := Some (js "cell.png") |}.

Definition localhost : option jsstring := Some (js "http://localhost:11434").

(** The default options, holding n = 3 besides. *)
Definition threeSamples : GptAdvancedOptions :=
  {| completionOptions :=
       {| temperature := 1; top_p := 1;
          frequency_penalty := 0; presence_penalty := 0;
          options_model := None; options_messages := None;
          options_max_tokens := None; options_n := Some 3%Z;
          options_stream := None; options_response_format := None;
          other_parameters := [] |};
     max_tokens_per_question := 100 |}.

(** The requests among the events of a run. *)
Definition submitted (trace : list (event Request)) : list Request :=
  flat_map (fun e => match e with
                     | Create r => [r]
                     | ReadBinary _ => []
                     end) trace.

(** The paths read among the events of a run. *)
Definition reads {request : Type} (trace : list (event request))
  : list jsstring :=
  flat_map (fun e => match e with
                     | ReadBinary p => [p]
                     | Create _ => []
                     end) trace.

End Scenario.

(* ===================================================================== *)
(** ** Properties *)
(* ===================================================================== *)

Import Regex Json ImageUtils Gpt Settings Scenario.


(** *** String.prototype.toLowerCase *)

(** A capital letter of Basic Latin. *)
Definition capital (c : N) : bool := ((65 <=? c) && (c <=? 90))%N.

Lemma lowerCaseMappings_targets :
  forallb (fun entry : N * N * N * N =>
             let '(_, _, _, target) := entry in (90 <? target)%N)
          lowerCaseMappings = true.
Proof. vm_compute. reflexivity. Qed.

Lemma simpleLower_not_capital (c : N) : capital (simpleLower c) = false.
Proof.
  unfold simpleLower, capital.
  destruct (N.ltb_spec c 128) as [Hc|Hc].
  - unfold lowerUnit.
    destruct (N.leb_spec 65 c); destruct (N.leb_spec c 90); cbn [andb];
      repeat match goal with
             | |- context [(?a <=? ?b)%N] => destruct (N.leb_spec a b); try lia
             end; reflexivity.
  - destruct (find (mapsFrom c) lowerCaseMappings) as [[[[first last] step] target]|]
      eqn:F.
    + apply find_some in F as [Hin Hm].
      pose proof lowerCaseMappings_targets as T.
      rewrite forallb_forall in T. specialize (T _ Hin). cbn in T.
      apply N.ltb_lt in T.
      destruct (N.leb_spec 65 (target + (c - first)));
        destruct (N.leb_spec (target + (c - first)) 90); cbn [andb];
        try reflexivity; lia.
    + destruct (N.leb_spec 65 c); destruct (N.leb_spec c 90); cbn [andb];
        try reflexivity; lia.
Qed.

Lemma lowerPoints_not_capital (l : list N) :
  forall (afterCased : bool) (p : N),
    In p (lowerPoints afterCased l) -> capital p = false.
Proof.
  induction l as [|c r IH]; intros b p; cbn [lowerPoints]; [intros []|].
  intros H. apply in_app_or in H as [H|H]; [|now apply IH in H].
  destruct (c =? 0x3A3)%N.
  - destruct (b && negb (followedByCased r)); destruct H as [<-|[]];
      reflexivity.
  - destruct (c =? 0x130)%N.
    + destruct H as [<-|[<-|[]]]; reflexivity.
    + destruct H as [<-|[]]. apply simpleLower_not_capital.
Qed.

Lemma codeUnits_not_capital (p u : N) :
  capital p = false -> In u (codeUnits p) -> capital u = false.
Proof.
  unfold codeUnits. intros Hp.
  destruct (p <? 0x10000)%N.
  - intros [<-|[]]. exact Hp.
  - unfold capital.
    intros [<-|[<-|[]]];
      [generalize ((p - 0x10000) / 0x400)%N
      |generalize ((p - 0x10000) mod 0x400)%N];
      intros q;
      match goal with
      | |- ((_ <=? _) && (?x <=? 90))%N = false =>
          destruct (N.leb_spec x 90); [lia|apply andb_false_r]
      end.
Qed.

(** No capital letter of Basic Latin is left in a lowered string. *)
Lemma toLowerCase_not_capital (s : jsstring) (u : N) :
  In u (toLowerCase s) -> capital u = false.
Proof.
  unfold toLowerCase. intros H.
  apply in_flat_map in H as (p & Hp & Hu).
  apply lowerPoints_not_capital in Hp.
  eapply codeUnits_not_capital; eassumption.
Qed.

Lemma codePoints_cons (c : N) (r : jsstring) :
  exists (p : N) (l : list N), codePoints (c :: r) = p :: l.
Proof.
  cbn [codePoints]. destruct r as [|l r']; [eexists; eexists; reflexivity|].
  destruct (isLeadSurrogate c && isTrailSurrogate l);
    eexists; eexists; reflexivity.
Qed.

Lemma lowerPoints_cons (b : bool) (c : N) (r : list N) :
  exists (p : N) (l : list N), lowerPoints b (c :: r) = p :: l.
Proof.
  cbn [lowerPoints].
  destruct (c =? 0x3A3)%N; [destruct (b && negb (followedByCased r))|
                            destruct (c =? 0x130)%N];
    eexists; eexists; reflexivity.
Qed.

Lemma codeUnits_cons (p : N) :
  exists (u : N) (l : jsstring), codeUnits p = u :: l.
Proof.
  unfold codeUnits. destruct (p <? 0x10000)%N; eexists; eexists; reflexivity.
Qed.

(** Only the empty string lowers to the empty string. *)
Lemma str_truthy_toLowerCase (s : jsstring) :
  str_truthy (toLowerCase s) = str_truthy s.
Proof.
  destruct s as [|c r]; [reflexivity|].
  unfold toLowerCase.
  destruct (codePoints_cons c r) as (p & l & ->).
  destruct (lowerPoints_cons false p l) as (p' & l' & ->).
  cbn [flat_map]. destruct (codeUnits_cons p') as (u & t & ->). reflexivity.
Qed.

Lemma codePoints_pair (c l : N) (r : jsstring) :
  codePoints (c :: l :: r)
  = if isLeadSurrogate c && isTrailSurrogate l
    then (0x10000 + (c - 0xD800) * 0x400 + (l - 0xDC00))%N :: codePoints r
    else c :: codePoints (l :: r).
Proof. reflexivity. Qed.

Lemma codePoints_keeps (c : N) (s : jsstring) :
  (c < 0xD800)%N -> In c s -> In c (codePoints s).
Proof.
  intros Hc. remember (List.length s) as k eqn:Hk. revert s Hk.
  induction k as [k IH] using lt_wf_ind. intros s Hk Hin.
  destruct s as [|c0 [|l r']]; [destruct Hin|exact Hin|].
  rewrite codePoints_pair.
  destruct (isLeadSurrogate c0 && isTrailSurrogate l) eqn:P.
  - apply andb_true_iff in P as [P1 P2].
    unfold isLeadSurrogate in P1. unfold isTrailSurrogate in P2.
    apply andb_true_iff in P1 as [P1 _]. apply andb_true_iff in P2 as [P2 _].
    apply N.leb_le in P1. apply N.leb_le in P2.
    destruct Hin as [E|[E|Hin]]; [lia|lia|].
    right. apply (IH (List.length r')); [simpl in Hk; lia|reflexivity|exact Hin].
  - destruct Hin as [E|Hin]; [now left|].
    right. apply (IH (List.length (l :: r'))); [simpl in *; lia|reflexivity|exact Hin].
Qed.

Lemma lowerPoints_keeps (c : N) (l : list N) :
  (c < 128)%N -> In c l ->
  forall afterCased : bool, In (lowerUnit c) (lowerPoints afterCased l).
Proof.
  intros Hc. induction l as [|c0 r IH]; [intros []|].
  intros Hin b. cbn [lowerPoints]. apply in_or_app.
  destruct Hin as [->|Hin]; [left|right; now apply IH].
  destruct (N.eqb_spec c 0x3A3); [lia|].
  destruct (N.eqb_spec c 0x130); [lia|].
  left. unfold simpleLower.
  destruct (N.ltb_spec c 128); [reflexivity|lia].
Qed.

(** A unit of Basic Latin stays in place, lowered. *)
Lemma toLowerCase_keeps (c : N) (s : jsstring) :
  (c < 128)%N -> In c s -> In (lowerUnit c) (toLowerCase s).
Proof.
  intros Hc Hin. unfold toLowerCase. apply in_flat_map.
  exists (lowerUnit c). split.
  - apply lowerPoints_keeps; [exact Hc|].
    apply codePoints_keeps; [lia|exact Hin].
  - unfold codeUnits.
    assert (L : (lowerUnit c < 0x10000)%N).
    { unfold lowerUnit. destruct ((65 <=? c) && (c <=? 90))%N; lia. }
    apply N.ltb_lt in L. rewrite L. now left.
Qed.

Lemma codePoints_units (s : jsstring) :
  Forall (fun c => (c < 0xD800)%N) s -> codePoints s = s.
Proof.
  induction 1 as [|c r Hc Hr IH]; [reflexivity|].
  destruct r as [|l r']; [reflexivity|]. rewrite codePoints_pair.
  assert (E : isLeadSurrogate c = false).
  { unfold isLeadSurrogate. destruct (N.leb_spec 0xD800 c); [lia|reflexivity]. }
  rewrite E. cbn [andb]. now rewrite IH.
Qed.

(** On a string of Basic Latin, toLowerCase lowers unit by unit. *)
Lemma toLowerCase_ascii (s : jsstring) :
  Forall (fun c => (c < 128)%N) s -> toLowerCase s = map lowerUnit s.
Proof.
  intros H. unfold toLowerCase.
  rewrite codePoints_units
    by (eapply Forall_impl; [|exact H]; cbn; intros; lia).
  generalize false. induction H as [|c r Hc Hr IH]; intros b; [reflexivity|].
  cbn [lowerPoints map].
  destruct (N.eqb_spec c 0x3A3); [lia|].
  destruct (N.eqb_spec c 0x130); [lia|].
  rewrite flat_map_app, IH. cbn [flat_map app].
  unfold simpleLower. destruct (N.ltb_spec c 128); [|lia].
  unfold codeUnits.
  assert (L : (lowerUnit c < 0x10000)%N).
  { unfold lowerUnit. destruct ((65 <=? c) && (c <=? 90))%N; lia. }
  apply N.ltb_lt in L. rewrite L. reflexivity.
Qed.

(** The conversion at work: Basic Latin, the Kelvin sign, the capital I
    with a dot, a capital sigma at the end of a word and at its start, a
    letter outside the Basic Multilingual Plane, a surrogate on its own. *)
Lemma toLowerCase_examples :
  toLowerCase (js "Cell.PNG") = js "cell.png"
  /\ toLowerCase [0x212A%N] = js "k"
  /\ toLowerCase [0x130%N] = [0x69; 0x307]%N
  /\ toLowerCase [0x39F; 0x3A3]%N = [0x3BF; 0x3C2]%N
  /\ toLowerCase [0x3A3; 0x39F]%N = [0x3C3; 0x3BF]%N
  /\ toLowerCase [0xD801; 0xDC00]%N = [0xD801; 0xDC28]%N
  /\ toLowerCase [0xD801%N] = [0xD801%N].
Proof. repeat split; vm_compute; reflexivity. Qed.

(** *** JSON.parse is total: the depth allotted is never spent *)

Lemma skip_ws_le (s : jsstring) :
  (List.length (skip_ws s) <= List.length s)%nat.
Proof.
  induction s as [|c s IH]; simpl; [lia|].
  destruct (isJsonSpace c); simpl; lia.
Qed.

Lemma skip_ws_cons_lt (s r : jsstring) (c : N) :
  skip_ws s = c :: r -> (List.length r < List.length s)%nat.
Proof.
  intros H. pose proof (skip_ws_le s) as L. rewrite H in L. simpl in L. lia.
Qed.

Lemma parse_string_lt (s : jsstring) :
  forall acc v r,
    parse_string s acc = Some (v, r) -> (List.length r < List.length s)%nat.
Proof.
  remember (List.length s) as k eqn:Hk.
  revert s Hk. induction k as [k IH] using lt_wf_ind. intros s Hk acc v r.
  destruct s as [|c s]; simpl; [discriminate|].
  destruct (c =? 34)%N.
  { intros [= _ <-]. simpl in Hk. lia. }
  destruct (c =? 92)%N.
  - destruct s as [|e s]; [discriminate|].
    destruct (e =? 117)%N.
    + destruct s as [|h1 [|h2 [|h3 [|h4 s]]]]; try discriminate.
      destruct (hex4 h1 h2 h3 h4); [|discriminate].
      intros H. simpl in Hk.
      apply (IH (List.length s)) in H; simpl; lia.
    + destruct (escape e); [|discriminate].
      intros H. simpl in Hk.
      apply (IH (List.length s)) in H; simpl; lia.
  - destruct (c <? 32)%N; [discriminate|].
    intros H. simpl in Hk.
    apply (IH (List.length s)) in H; simpl; lia.
Qed.

Lemma digits_le (s : jsstring) :
  forall acc k v m r,
    digits s acc k = (v, m, r) -> (List.length r <= List.length s)%nat.
Proof.
  induction s as [|c s IH]; simpl; intros acc k v m r.
  - intros [= _ _ <-]. simpl. lia.
  - destruct (isDigit c).
    + intros H. apply IH in H. lia.
    + intros [= _ _ <-]. simpl. lia.
Qed.

Lemma parse_int_lt (s r : jsstring) (v : N) :
  parse_int s = Some (v, r) -> (List.length r < List.length s)%nat.
Proof.
  destruct s as [|c s]; simpl; [discriminate|].
  destruct (c =? 48)%N.
  { intros [= _ <-]. lia. }
  destruct (isDigit c); [|discriminate].
  destruct (digits s (c - 48) 1) as [[v' m] rest] eqn:D.
  intros [= _ <-]. apply digits_le in D. lia.
Qed.

Lemma parse_frac_le (s r : jsstring) (m v : N) (k : nat) :
  parse_frac m s = Some (v, k, r) -> (List.length r <= List.length s)%nat.
Proof.
  destruct s as [|c s]; simpl.
  { intros [= _ _ <-]. simpl. lia. }
  destruct (c =? 46)%N.
  - destruct (digits s m 0) as [[v' [|k']] rest] eqn:D; [discriminate|].
    intros [= _ _ <-]. apply digits_le in D. lia.
  - intros [= _ _ <-]. simpl. lia.
Qed.

Lemma parse_exp_le (s r : jsstring) (e : Z) :
  parse_exp s = Some (e, r) -> (List.length r <= List.length s)%nat.
Proof.
  destruct s as [|c s]; simpl.
  { intros [= _ <-]. simpl. lia. }
  destruct ((c =? 101) || (c =? 69))%N.
  - assert (L : forall neg s'',
               (let '(neg0, s0) := (neg, s'') : bool * jsstring in
                match digits s0 0 0 with
                | (_, O, _) => None
                | (v, S _, rest) =>
                    Some (if neg0 then (- Z.of_N v)%Z else Z.of_N v, rest)
                end) = Some (e, r) ->
               (List.length r <= List.length s'')%nat).
    { intros neg s'' H.
      destruct (digits s'' 0 0) as [[v' [|k']] rest] eqn:D; [discriminate|].
      injection H as _ <-. apply digits_le in D. exact D. }
    destruct s as [|d t].
    + intros H. apply (L false) in H. simpl in *. lia.
    + destruct (d =? 45)%N; [|destruct (d =? 43)%N]; intros H.
      * apply (L true) in H. simpl in *. lia.
      * apply (L false) in H. simpl in *. lia.
      * apply (L false) in H. simpl in *. lia.
  - intros [= _ <-]. simpl. lia.
Qed.

Lemma parse_number_lt (s r : jsstring) (n : number_literal) :
  parse_number s = Some (n, r) -> (List.length r < List.length s)%nat.
Proof.
  unfold parse_number.
  destruct s as [|c t].
  - simpl. discriminate.
  - destruct (c =? 45)%N.
    + destruct (parse_int t) as [[i s2]|] eqn:I; [|discriminate].
      destruct (parse_frac i s2) as [[[m k] s3]|] eqn:F; [|discriminate].
      destruct (parse_exp s3) as [[e s4]|] eqn:E; [|discriminate].
      intros [= _ <-].
      apply parse_int_lt in I. apply parse_frac_le in F. apply parse_exp_le in E.
      simpl. lia.
    + destruct (parse_int (c :: t)) as [[i s2]|] eqn:I; [|discriminate].
      destruct (parse_frac i s2) as [[[m k] s3]|] eqn:F; [|discriminate].
      destruct (parse_exp s3) as [[e s4]|] eqn:E; [|discriminate].
      intros [= _ <-].
      apply parse_int_lt in I. apply parse_frac_le in F. apply parse_exp_le in E.
      lia.
Qed.

Lemma progresses_weaken (s s' : jsstring) (p : parsed json) :
  (List.length s <= List.length s')%nat -> progresses s p -> progresses s' p.
Proof.
  destruct p; simpl; intros; try tauto; lia.
Qed.

Lemma skipn_cons_lt (k : nat) (c : N) (r : jsstring) :
  (0 < k)%nat -> (List.length (skipn k (c :: r)) < List.length (c :: r))%nat.
Proof.
  intros Hk. rewrite length_skipn.
  change (List.length (c :: r)) with (S (List.length r)). lia.
Qed.

Lemma parse_depth (fuel : nat) :
  (forall s, (2 * List.length s + 1 <= fuel)%nat ->
             progresses s (parse_value fuel s))
  /\ (forall s acc, (2 * List.length s + 2 <= fuel)%nat ->
                    progresses s (parse_elements fuel s acc))
  /\ (forall s acc, (2 * List.length s + 2 <= fuel)%nat ->
                    progresses s (parse_members fuel s acc)).
Proof.
  induction fuel as [|f (IHv & IHe & IHm)].
  { repeat split; intros; lia. }
  repeat split.
  - (* value *)
    intros s Hf. cbn -[startsWith skipn parse_number js parse_string].
    destruct (skip_ws s) as [|c r] eqn:W; [exact I|].
    apply skip_ws_cons_lt in W.
    destruct (c =? 123)%N.
    { destruct (skip_ws r) as [|c' r'] eqn:W'; [exact I|].
      apply skip_ws_cons_lt in W'.
      destruct (c' =? 125)%N; [simpl; lia|].
      apply progresses_weaken with (s := r); [lia|].
      apply IHm. lia. }
    destruct (c =? 91)%N.
    { destruct (skip_ws r) as [|c' r'] eqn:W'; [exact I|].
      apply skip_ws_cons_lt in W'.
      destruct (c' =? 93)%N; [simpl; lia|].
      apply progresses_weaken with (s := r); [lia|].
      apply IHe. lia. }
    destruct (c =? 34)%N.
    { destruct (parse_string r []) as [[v rest]|] eqn:P; [|exact I].
      apply parse_string_lt in P. simpl. lia. }
    destruct (startsWith (c :: r) (js "true")).
    { pose proof (@skipn_cons_lt 4 c r). simpl in *. lia. }
    destruct (startsWith (c :: r) (js "false")).
    { pose proof (@skipn_cons_lt 5 c r). simpl in *. lia. }
    destruct (startsWith (c :: r) (js "null")).
    { pose proof (@skipn_cons_lt 4 c r). simpl in *. lia. }
    destruct (parse_number (c :: r)) as [[n rest]|] eqn:P; [|exact I].
    apply parse_number_lt in P. simpl in *. lia.
  - (* elements *)
    intros s acc Hf. simpl.
    assert (Hv : progresses s (parse_value f s)) by (apply IHv; lia).
    destruct (parse_value f s) as [v r| |]; simpl in Hv; [|exact I|tauto].
    destruct (skip_ws r) as [|c r'] eqn:W; [exact I|].
    apply skip_ws_cons_lt in W.
    destruct (c =? 44)%N.
    { apply progresses_weaken with (s := r'); [lia|]. apply IHe. lia. }
    destruct (c =? 93)%N; simpl; [lia|exact I].
  - (* members *)
    intros s acc Hf. simpl.
    destruct (skip_ws s) as [|c r] eqn:W; [exact I|].
    apply skip_ws_cons_lt in W.
    destruct (c =? 34)%N; [|exact I].
    destruct (parse_string r []) as [[key r1]|] eqn:P; [|exact I].
    apply parse_string_lt in P.
    destruct (skip_ws r1) as [|c1 r2] eqn:W1; [exact I|].
    apply skip_ws_cons_lt in W1.
    destruct (c1 =? 58)%N; [|exact I].
    assert (Hv : progresses r2 (parse_value f r2)) by (apply IHv; lia).
    destruct (parse_value f r2) as [v r3| |]; simpl in Hv; [|exact I|tauto].
    destruct (skip_ws r3) as [|c3 r4] eqn:W3; [exact I|].
    apply skip_ws_cons_lt in W3.
    destruct (c3 =? 44)%N.
    { apply progresses_weaken with (s := r4); [lia|]. apply IHm. lia. }
    destruct (c3 =? 125)%N; simpl; [lia|exact I].
Qed.

(** The depth [JSON_parse] allots always suffices: a text JSON_parse
    rejects is rejected for its syntax. *)
Lemma parse_value_fuel (text : jsstring) :
  parse_value (fuel_for text) text <> Exhausted.
Proof.
  pose proof (proj1 (parse_depth (fuel_for text)) text) as H.
  unfold fuel_for in *. intros E. rewrite E in H. apply H. lia.
Qed.

(** *** The matcher only moves forward *)

Section Forward.
Variable A : Type.

(** [k] succeeds with [x] on a text no longer than [s]. *)
Definition reaches (k : continuation A) (s : jsstring) (x : A) : Prop :=
  exists (s1 : jsstring) (c1 : captures),
    k s1 c1 = Some x /\ (List.length s1 <= List.length s)%nat.

Lemma reaches_here (k : continuation A) (s : jsstring) (caps : captures)
      (x : A) :
  k s caps = Some x -> reaches k s x.
Proof. intros H. exists s, caps. split; [exact H|lia]. Qed.

Lemma reaches_tail (k : continuation A) (c : N) (s : jsstring) (x : A) :
  reaches k s x -> reaches k (c :: s) x.
Proof.
  intros (s1 & c1 & H & L). exists s1, c1. split; [exact H|simpl; lia].
Qed.

Lemma star_forward (p : N -> bool) (k : continuation A) (x : A) :
  forall s caps, star p s caps k = Some x -> reaches k s x.
Proof.
  induction s as [|c s IH]; intros caps; simpl.
  - apply reaches_here.
  - destruct (p c); [|apply reaches_here].
    unfold or_else. destruct (star p s caps k) as [y|] eqn:E.
    + intros [= ->]. apply reaches_tail. now apply (IH caps).
    + apply reaches_here.
Qed.

Lemma lazy_star_forward (p : N -> bool) (k : continuation A) (x : A) :
  forall s caps, lazy_star p s caps k = Some x -> reaches k s x.
Proof.
  induction s as [|c s IH]; intros caps; simpl; unfold or_else.
  - destruct (k [] caps) as [y|] eqn:E; [|discriminate].
    intros [= ->]. now apply reaches_here with (caps := caps).
  - destruct (k (c :: s) caps) as [y|] eqn:E.
    + intros [= ->]. now apply reaches_here with (caps := caps).
    + destruct (p c); [|discriminate].
      intros H. apply reaches_tail. now apply (IH caps).
Qed.

(** Whatever a pattern matches, its continuation resumes on a suffix no
    longer than the text the pattern started on. *)
Lemma run_forward (r : regex) :
  forall (s : jsstring) (caps : captures) (k : continuation A) (x : A),
    run r s caps k = Some x -> reaches k s x.
Proof.
  induction r as [|c|p|a IHa b IHb|a IHa|p|p|i a IHa]; intros s caps k x; simpl.
  - apply reaches_here.
  - destruct s as [|y s]; [discriminate|].
    destruct (N.eqb y c); [|discriminate].
    intros H. apply reaches_tail. now apply reaches_here with (caps := caps).
  - destruct s as [|y s]; [discriminate|].
    destruct (p y); [|discriminate].
    intros H. apply reaches_tail. now apply reaches_here with (caps := caps).
  - intros H. apply IHa in H as (s1 & c1 & H & L1).
    apply IHb in H as (s2 & c2 & H & L2).
    exists s2, c2. split; [exact H|lia].
  - unfold or_else. destruct (run a s caps k) as [y|] eqn:E.
    + intros [= ->]. now apply IHa in E.
    + apply reaches_here.
  - apply star_forward.
  - apply lazy_star_forward.
  - intros H. apply IHa in H as (s1 & c1 & H & L1).
    exists s1, ((i, firstn (List.length s - List.length s1) s) :: c1).
    split; [exact H|lia].
Qed.

End Forward.

(** What follows a match is no longer than the text. *)
Lemma match_here_forward (r : regex) (s rest : jsstring) (caps : captures) :
  match_here r s = Some (rest, caps) ->
  (List.length rest <= List.length s)%nat.
Proof.
  unfold match_here. intros H.
  apply run_forward in H as (s1 & c1 & [= <- _] & L). exact L.
Qed.

(** A pattern that opens with a literal unit matches at least that unit. *)
Lemma literal_first_consumes (c : N) (r1 r2 : regex) (s rest : jsstring)
      (caps : captures) :
  match_here (Seq (Seq (Unit c) r1) r2) s = Some (rest, caps) ->
  (List.length rest < List.length s)%nat.
Proof.
  unfold match_here. destruct s as [|y s]; [discriminate|].
  change (run (Seq (Seq (Unit c) r1) r2) (y :: s) []
              (fun rest0 caps0 => Some (rest0, caps0)))
    with (if N.eqb y c
          then run r1 s [] (fun s1 c1 =>
                 run r2 s1 c1 (fun rest0 caps0 => Some (rest0, caps0)))
          else None).
  destruct (N.eqb y c); [|discriminate].
  intros H. apply run_forward in H as (s1 & c1 & H & L).
  apply run_forward in H as (s2 & c2 & [= <- _] & L2).
  simpl. lia.
Qed.

(** A match of IMAGE_REGEX is never empty: every match moves the global
    scan forward. *)
Lemma IMAGE_REGEX_consumes (s rest : jsstring) (caps : captures) :
  match_here IMAGE_REGEX s = Some (rest, caps) ->
  (List.length rest < List.length s)%nat.
Proof.
  apply literal_first_consumes.
Qed.

(** *** The one-shot example (generateRepeatedSampleOutput) *)

Section Cycle.
Variable A : Type.
Variable L : list A.
Hypothesis L_nonempty : L <> [].

Lemma length_concat_repeat (j : nat) :
  List.length (List.concat (repeat L j)) = (List.length L * j)%nat.
Proof.
  induction j as [|j IH]; simpl; [lia|].
  rewrite length_app, IH. lia.
Qed.

(** Copies of [L] in a row read like [L], cyclically. *)
Lemma nth_error_concat_repeat (j i : nat) :
  (i < List.length L * j)%nat ->
  nth_error (List.concat (repeat L j)) i = nth_error L (i mod List.length L).
Proof.
  assert (Hpos : List.length L <> 0%nat).
  { destruct L; [congruence|simpl; lia]. }
  revert i. induction j as [|j IH]; intros i Hi; [lia|].
  simpl. destruct (Nat.lt_ge_cases i (List.length L)) as [Hlt|Hge].
  - rewrite nth_error_app1 by exact Hlt.
    now rewrite Nat.mod_small.
  - rewrite nth_error_app2 by exact Hge.
    rewrite IH by lia.
    replace i with (i - List.length L + 1 * List.length L)%nat at 2 by lia.
    now rewrite Nat.Div0.mod_add.
Qed.
End Cycle.

Lemma SAMPLE_OUTPUT_length : List.length SAMPLE_OUTPUT = 12%nat.
Proof. reflexivity. Qed.

Lemma SAMPLE_OUTPUT_nonempty : SAMPLE_OUTPUT <> [].
Proof. discriminate. Qed.

Lemma pushLoop_unfold (f : nat) (num count : Z) (output : list CardInformation) :
  pushLoop (S f) num count output =
  if (count <? num)%Z then pushLoop f num (count + 12)%Z (output ++ SAMPLE_OUTPUT)
  else output.
Proof. reflexivity. Qed.

(** With [num - count] turns allotted, the loop leaves on its own test; by
    then it has appended [j] copies of the canonical list, enough to reach
    [num]. *)
Lemma pushLoop_copies (num : Z) (fuel : nat) :
  forall count output,
    (num - count <= Z.of_nat fuel)%Z ->
    exists j : nat,
      pushLoop fuel num count output = output ++ List.concat (repeat SAMPLE_OUTPUT j)
      /\ (num <= count + 12 * Z.of_nat j)%Z
      /\ whileLoop num count output (output ++ List.concat (repeat SAMPLE_OUTPUT j)).
Proof.
  induction fuel as [|f IH]; intros count output Hf.
  - exists 0%nat. simpl. rewrite app_nil_r. repeat split; [lia|].
    apply whileLoop_exit. lia.
  - rewrite pushLoop_unfold. destruct (Z.ltb_spec count num) as [Hlt|Hge].
    + destruct (IH (count + 12)%Z (output ++ SAMPLE_OUTPUT)) as (j & E & Hj & W);
        [lia|].
      exists (S j). rewrite E. simpl List.concat. rewrite <- app_assoc.
      repeat split; [lia|].
      apply whileLoop_turn; [exact Hlt|].
      rewrite <- app_assoc in W. exact W.
    + exists 0%nat. simpl. rewrite app_nil_r. repeat split; [lia|].
      apply whileLoop_exit. lia.
Qed.

Lemma slice0_firstn (A : Type) (l : list A) (e : Z) :
  (0 <= e <= Z.of_nat (List.length l))%Z ->
  slice0 l e = firstn (Z.to_nat e) l.
Proof.
  intros He. unfold slice0.
  destruct (Z.ltb_spec e 0) as [Hneg|_]; [lia|].
  now rewrite Z.min_l by lia.
Qed.

(** The shape of the example output, for a count of one or more: a prefix
    of copies of the canonical list, which the loop reaches on its own. *)
Lemma generateRepeatedSampleOutput_prefix (num : Z) :
  (1 <= num)%Z ->
  exists j : nat,
    generateRepeatedSampleOutput num =
      firstn (Z.to_nat num) (List.concat (repeat SAMPLE_OUTPUT j))
    /\ (Z.to_nat num <= 12 * j)%nat
    /\ ((12 <= num)%Z ->
        whileLoop num 0 [] (List.concat (repeat SAMPLE_OUTPUT j))).
Proof.
  intros Hnum. unfold generateRepeatedSampleOutput.
  rewrite SAMPLE_OUTPUT_length. change (Z.of_nat 12) with 12%Z.
  destruct (Z.ltb_spec num 12) as [Hlt|Hge].
  - exists 1%nat.
    change (List.concat (repeat SAMPLE_OUTPUT 1)) with (SAMPLE_OUTPUT ++ []).
    rewrite app_nil_r.
    rewrite slice0_firstn by (rewrite SAMPLE_OUTPUT_length; lia).
    repeat split; lia.
  - destruct (@pushLoop_copies num (Z.to_nat num) 0%Z []) as (j & E & Hj & W);
      [lia|].
    exists j. rewrite E. simpl app in *.
    rewrite slice0_firstn
      by (rewrite length_concat_repeat, SAMPLE_OUTPUT_length; lia).
    repeat split; [lia|]. intros _. exact W.
Qed.

(** C5. generateRepeatedSampleOutput: for every requested count of one or
    more, the example output has exactly that many entries and repeats the
    canonical list of 12 entries cyclically (entry i is canonical entry
    i mod 12); below 12 it is the first entries of the canonical list, and
    for 15 it is the canonical list followed by its first three entries. *)
Theorem C5_generateRepeatedSampleOutput_cyclic (num : Z) :
  (1 <= num)%Z ->
  List.length SAMPLE_OUTPUT = 12%nat
  /\ List.length (generateRepeatedSampleOutput num) = Z.to_nat num
  /\ (forall i : nat,
        (i < Z.to_nat num)%nat ->
        nth_error (generateRepeatedSampleOutput num) i
        = nth_error SAMPLE_OUTPUT (i mod 12))
  /\ ((num < 12)%Z ->
      generateRepeatedSampleOutput num = firstn (Z.to_nat num) SAMPLE_OUTPUT)
  /\ (num = 15%Z ->
      generateRepeatedSampleOutput num
      = SAMPLE_OUTPUT ++ firstn 3 SAMPLE_OUTPUT).
Proof.
  intros Hnum.
  destruct (generateRepeatedSampleOutput_prefix Hnum) as (j & E & Hj & _).
  split; [reflexivity|]. split; [|split; [|split]].
  - rewrite E, length_firstn, length_concat_repeat, SAMPLE_OUTPUT_length. lia.
  - intros i Hi. rewrite E.
    rewrite nth_error_firstn.
    destruct (Nat.ltb_spec i (Z.to_nat num)) as [_|Hge]; [|lia].
    rewrite (nth_error_concat_repeat SAMPLE_OUTPUT_nonempty)
      by (rewrite SAMPLE_OUTPUT_length; lia).
    now rewrite SAMPLE_OUTPUT_length.
  - intros Hlt. unfold generateRepeatedSampleOutput.
    rewrite SAMPLE_OUTPUT_length. change (Z.of_nat 12) with 12%Z.
    destruct (Z.ltb_spec num 12) as [_|Hge]; [|lia].
    apply slice0_firstn. rewrite SAMPLE_OUTPUT_length. lia.
  - intros ->. reflexivity.
Qed.

Lemma C5_generateRepeatedSampleOutput_cyclic_witness :
  (1 <= 15)%Z
  /\ List.length (generateRepeatedSampleOutput 15) = 15%nat
  /\ nth_error (generateRepeatedSampleOutput 15) 13
     = nth_error SAMPLE_OUTPUT 1.
Proof.
  assert (H : (1 <= 15)%Z) by lia.
  split; [exact H|].
  destruct (@C5_generateRepeatedSampleOutput_cyclic 15 H) as (_ & L & N & _).
  split; [exact L|].
  apply (N 13%nat). vm_compute. lia.
Defined.

(** *** The prompt (createMessages, createMessagesForStandaloneFile) *)

Lemma createMessages_roles (notes : jsstring) (num : Z)
      (images : option (list ImageInfo)) :
  map role (createMessages notes num images) = [system; user; assistant; user].
Proof.
  destruct images as [[|i rest]|]; reflexivity.
Qed.

(** C4, as the code has it.  The note flow emits one system message, the
    sample note as a user message, the sample output as an assistant
    message, then the real user message, in that order.  The
    standalone-file flow emits three messages: the system message, the
    sample output as an assistant message (one canonical entry, whatever the
    count asked for), then the real user message; it has no sample user
    message. *)
Theorem C4_message_order (notes : jsstring) (num : Z)
        (images : option (list ImageInfo)) (fileInfo : ImageInfo) (num_q : Z) :
  map role (createMessages notes num images) = [system; user; assistant; user]
  /\ nth_error (createMessages notes num images) 1
     = Some {| role := user; content := plain SAMPLE_NOTE |}
  /\ nth_error (createMessages notes num images) 2
     = Some {| role := assistant;
               content := plain (stringifySample
                                   (generateRepeatedSampleOutput num)) |}
  /\ map role (createMessagesForStandaloneFile fileInfo num_q)
     = [system; assistant; user]
  /\ nth_error (createMessagesForStandaloneFile fileInfo num_q) 1
     = Some {| role := assistant;
               content := plain (stringifySample (firstn 1 SAMPLE_OUTPUT)) |}.
Proof.
  split; [apply createMessages_roles|].
  split; [destruct images as [[|i rest]|]; reflexivity|].
  split; [destruct images as [[|i rest]|]; reflexivity|].
  split; reflexivity.
Qed.

(** C4 as stated fails on the standalone-file flow: its prompt for the
    image of the vault has three messages, and the second is the assistant
    sample, not a sample user message. *)
Lemma C4_standalone_has_no_sample_user_message :
  map role (createMessagesForStandaloneFile diagramInfo 5)
  = [system; assistant; user]
  /\ map role (createMessagesForStandaloneFile diagramInfo 5)
     <> [system; user; assistant; user].
Proof.
  split; [reflexivity|discriminate].
Qed.

(** *** The media resolver (image-utils.ts) *)

(** C10. With multimodal support switched off, processImages returns the
    empty list for every text and processStandaloneFile returns null for
    every file, and neither reads a file: the trace of the call is empty. *)
Theorem C10_disabled_reads_nothing (request : Type) (app : Vault)
        (multimodalSettings : MultimodalSettings) :
  enabled multimodalSettings = false ->
  (forall markdownText : jsstring,
      processImages (request := request) app markdownText multimodalSettings
      = ([], []))
  /\ (forall file : TFile,
         processStandaloneFile (request := request) app file multimodalSettings
         = (None, [])).
Proof.
  intros Hoff. split; intros x.
  - unfold processImages. now rewrite Hoff.
  - unfold processStandaloneFile. now rewrite Hoff.
Qed.

Lemma C10_disabled_reads_nothing_witness :
  enabled DEFAULT_multimodal = false
  /\ processImages (request := Request) vault notes DEFAULT_multimodal
     = ([], [])
  /\ processStandaloneFile (request := Request) vault diagram DEFAULT_multimodal
     = (None, []).
Proof.
  assert (H : enabled DEFAULT_multimodal = false) by reflexivity.
  split; [exact H|].
  destruct (@C10_disabled_reads_nothing Request vault DEFAULT_multimodal H)
    as [Himages Hfile].
  split; [apply Himages|apply Hfile].
Defined.

(** Switched on, the same calls read the image of the vault, once. *)
Lemma enabled_reads_the_file :
  processImages (request := Request) vault notes visionOn
  = ([diagramInfo], [ReadBinary (js "assets/cell.png")])
  /\ processStandaloneFile (request := Request) vault diagram visionOn
     = (Some {| path := js "assets/cell.png"; base64 := js "iVBORw==";
                mimeType := JsObject.OwnString (js "image/png");
                alt := Some (js "cell.png") |},
        [ReadBinary (js "assets/cell.png")]).
Proof.
  split; vm_compute; reflexivity.
Qed.

(** Without multimodal settings, or with the support switched off, the
    note entry point reads no file. *)
Lemma note_entry_reads_nothing_when_disabled (app : Vault) (create : Provider)
      (provider : AIProvider) (apiKey notes : jsstring) (num_q num : Z)
      (options : GptAdvancedOptions) (baseUrl modelName : option jsstring)
      (ms : option MultimodalSettings) :
  match ms with Some s => enabled s | None => false end = false ->
  reads (snd (convertNotesToFlashcards app create provider apiKey notes num_q
                num options baseUrl modelName ms))
  = [].
Proof.
  intros Hoff. unfold convertNotesToFlashcards, noteImages.
  destruct ms as [s|]; [rewrite Hoff|]; reflexivity.
Qed.

(** A reference to a remote image is skipped, whatever the vault holds. *)
Lemma remote_reference_is_skipped (request : Type) (app : Vault)
      (multimodalSettings : MultimodalSettings) (imageRef : ImageReference) :
  startsWith (ref_path imageRef) (js "http://") = true
  \/ startsWith (ref_path imageRef) (js "https://") = true ->
  processImage (request := request) app multimodalSettings imageRef
  = (None, []).
Proof.
  intros [H|H]; unfold processImage; rewrite H; [reflexivity|].
  now rewrite orb_true_r.
Qed.

(** getMimeType on the extensions it lists, in either case. *)
Lemma getMimeType_supported :
  map getMimeType (map js ["jpg"; "jpeg"; "png"; "gif"; "bmp"; "webp"; "pdf";
                           "JPG"; "Png"; "PDF"]%string)
  = map (fun m => JsObject.OwnString (js m))
        ["image/jpeg"; "image/jpeg"; "image/png"; "image/gif"; "image/bmp";
         "image/webp"; "application/pdf";
         "image/jpeg"; "image/png"; "application/pdf"]%string.
Proof. reflexivity. Qed.

(** An extension that is neither listed nor a member of Object.prototype
    gets the default. *)
Lemma getMimeType_default (extension : jsstring) :
  JsObject.own mimeTypes (toLowerCase extension) = None ->
  existsb (str_eqb (toLowerCase extension)) JsObject.Object_prototype = false ->
  getMimeType extension = JsObject.OwnString (js "image/jpeg").
Proof.
  intros Hown Hproto. unfold getMimeType, JsObject.get.
  now rewrite Hown, Hproto.
Qed.

Lemma str_eqb_eq (a b : jsstring) : str_eqb a b = true -> a = b.
Proof.
  revert b. induction a as [|x a IH]; intros [|y b]; simpl;
    try discriminate; [reflexivity|].
  intros H. apply andb_true_iff in H as [Hx Hr].
  apply N.eqb_eq in Hx. apply IH in Hr. now subst.
Qed.

(** The members of Object.prototype a lowered extension can name are
    constructor and __proto__: the other names hold a capital letter. *)
Lemma getMimeType_inherited (extension name : jsstring) :
  getMimeType extension = JsObject.Inherited name ->
  name = js "constructor" \/ name = js "__proto__".
Proof.
  unfold getMimeType, JsObject.get.
  destruct (JsObject.own mimeTypes (toLowerCase extension)) as [v|];
    [discriminate|].
  destruct (existsb (str_eqb (toLowerCase extension))
                    JsObject.Object_prototype) eqn:E; [|discriminate].
  simpl. intros [= <-].
  assert (Hlow : forallb (fun u => negb (capital u)) (toLowerCase extension)
                 = true).
  { apply forallb_forall. intros u Hu.
    apply toLowerCase_not_capital in Hu. now rewrite Hu. }
  apply existsb_exists in E as (m & Hin & Hm).
  apply str_eqb_eq in Hm. rewrite Hm in *.
  unfold JsObject.Object_prototype in Hin. simpl in Hin.
  repeat (destruct Hin as [<-|Hin];
          [first [now left | now right
                 | vm_compute in Hlow; discriminate Hlow]|]).
  destruct Hin.
Qed.

(** C8, evaluated.  getMimeType maps each listed extension to its type, in
    either case, and an unlisted one such as xyz to image/jpeg; but the
    lookup [mimeTypes[key]] also finds what the object literal inherits:
    for the extension constructor (and __proto__) it returns that member,
    which is no string, and the default is not applied.  A file with that
    extension, once the user lists it among the supported formats, reaches
    the request with a data URL that names no MIME type. *)
Theorem C8_getMimeType_inherited_member :
  getMimeType (js "png") = JsObject.OwnString (js "image/png")
  /\ getMimeType (js "xyz") = JsObject.OwnString (js "image/jpeg")
  /\ getMimeType (js "constructor") = JsObject.Inherited (js "constructor")
  /\ getMimeType (js "__proto__") = JsObject.Inherited (js "__proto__")
  /\ getMimeType (js "constructor") <> JsObject.OwnString (js "image/jpeg")
  /\ option_map mimeType
       (fst (processStandaloneFile (request := Request) vault oddFile
               oddFormats))
     = Some (JsObject.Inherited (js "constructor"))
  /\ option_map dataUrl
       (fst (processStandaloneFile (request := Request) vault oddFile
               oddFormats))
     = Some (js "data:function Object() { [native code] };base64,iVBORw==").
Proof.
  repeat split; try reflexivity. discriminate.
Qed.

(** *** The response reconciler (parseChoices) *)

(** What a choice contributes: the value its content parses to, or
    nothing. *)
Lemma fold_pushChoice (contentOf : Choice -> jsstring) (l : list Choice) :
  forall card_choices : list json,
    fold_left (fun acc set => pushChoice acc (contentOf set)) l card_choices
    = card_choices
      ++ flat_map (fun set => match parseChoiceContent (contentOf set) with
                              | Return v => [v]
                              | Throw _ => []
                              end) l.
Proof.
  induction l as [|set l IH]; intros acc; simpl.
  - now rewrite app_nil_r.
  - rewrite IH. unfold pushChoice.
    destruct (parseChoiceContent (contentOf set)); simpl.
    + now rewrite <- app_assoc.
    + reflexivity.
Qed.

Lemma parseChoices_flat_map (contentOf : Choice -> jsstring)
      (response : ChatCompletion) :
  parseChoices contentOf response
  = flat_map (fun set => match parseChoiceContent (contentOf set) with
                         | Return v => [v]
                         | Throw _ => []
                         end) (choices response).
Proof.
  unfold parseChoices. now rewrite fold_pushChoice.
Qed.

(** A content JSON.parse rejects is dropped at once: the fence search is
    inside the branch that follows a successful parse. *)
Lemma direct_parse_failure_drops (content : jsstring) :
  JSON_parse content = None -> parseChoiceContent content = Throw SyntaxError.
Proof.
  intros H. unfold parseChoiceContent. now rewrite H.
Qed.

(** A text that opens with a backquote is no JSON text. *)
Lemma backquote_is_not_json (rest : jsstring) :
  JSON_parse (cu "`" :: rest) = None.
Proof.
  unfold JSON_parse.
  assert (E : parse_value (fuel_for (cu "`" :: rest)) (cu "`" :: rest) = Invalid).
  { unfold fuel_for. simpl Nat.add.
    cbn -[parse_number skipn]. unfold parse_number. cbn. reflexivity. }
  now rewrite E.
Qed.

(** C1, evaluated.  The unfenced text parses to its one card in both entry
    points.  The same text inside a json fence is dropped in both: JSON.parse
    raises on the fence before the search for a fenced block, which the code
    runs only after a successful direct parse that lacks the key.  The
    search itself would have found the inner text.  No content that opens
    with a json fence is recovered, whatever it wraps. *)
Theorem C1_fenced_choice_is_dropped :
  parseChoices noteChoiceContent {| choices := [choice unfenced] |} = [cardXY]
  /\ parseChoices fileChoiceContent {| choices := [choice unfenced] |} = [cardXY]
  /\ parseChoiceContent fenced = Throw SyntaxError
  /\ parseChoices noteChoiceContent {| choices := [choice fenced] |} = []
  /\ parseChoices fileChoiceContent {| choices := [choice fenced] |} = []
  /\ option_map matchGroup1 (search FENCE_REGEX fenced) = Some unfenced
  /\ fst (convertNotesToFlashcards vault (answering [fenced]) ollama []
            plainNotes 1 1 DEFAULT_gptAdvancedOptions
            localhost (Some DEFAULT_ollamaModel) None)
     = Return []
  /\ (forall inner : jsstring,
         parseChoiceContent (js "```json" ++ LF :: inner ++ LF :: js "```")
         = Throw SyntaxError).
Proof.
  split; [vm_compute; reflexivity|].
  split; [vm_compute; reflexivity|].
  split; [vm_compute; reflexivity|].
  split; [vm_compute; reflexivity|].
  split; [vm_compute; reflexivity|].
  split; [vm_compute; reflexivity|].
  split; [vm_compute; reflexivity|].
  intros inner. apply direct_parse_failure_drops.
  apply backquote_is_not_json.
Qed.

(** C7. The output holds one value per choice whose content parses, in the
    order of the choices, and nothing for the others: a choice whose
    content makes the parse raise (plain prose does, JSON.parse rejects it)
    adds no entry and changes nothing for the choices before and after it.
    The output is never longer than the list of choices, and the note entry
    point returns it. *)
Theorem C7_malformed_choice_is_dropped (contentOf : Choice -> jsstring)
        (before after : list Choice) (set : Choice) (e : js_error) :
  parseChoiceContent (contentOf set) = Throw e ->
  parseChoices contentOf {| choices := before ++ set :: after |}
  = parseChoices contentOf {| choices := before |}
    ++ parseChoices contentOf {| choices := after |}
  /\ (forall response : ChatCompletion,
         parseChoices contentOf response
         = flat_map (fun c => match parseChoiceContent (contentOf c) with
                              | Return v => [v]
                              | Throw _ => []
                              end) (choices response))
  /\ (forall response : ChatCompletion,
         (List.length (parseChoices contentOf response)
          <= List.length (choices response))%nat)
  /\ (forall app create provider apiKey notes num_q num options baseUrl model
             multimodalSettings response,
         (forall r, create r = Return response) ->
         fst (convertNotesToFlashcards app create provider apiKey notes num_q
                num options baseUrl model multimodalSettings)
         = Return (parseChoices noteChoiceContent response)).
Proof.
  intros Hraise. split; [|split; [|split]].
  - rewrite !parseChoices_flat_map. simpl choices.
    rewrite flat_map_app. simpl. now rewrite Hraise.
  - apply parseChoices_flat_map.
  - intros response. rewrite parseChoices_flat_map.
    induction (choices response) as [|c l IH]; simpl; [lia|].
    rewrite length_app.
    destruct (parseChoiceContent (contentOf c)); simpl; lia.
  - intros app create provider apiKey notes0 num_q num options baseUrl model
           ms response Hcreate.
    unfold convertNotesToFlashcards.
    destruct (noteImages app notes0 ms) as [processedImages trace].
    simpl. now rewrite Hcreate.
Qed.

Lemma C7_malformed_choice_is_dropped_witness :
  parseChoiceContent (noteChoiceContent (choice prose)) = Throw SyntaxError
  /\ parseChoices noteChoiceContent
       {| choices := [choice unfenced] ++ choice prose :: [choice unfenced] |}
     = [cardXY; cardXY]
  /\ fst (convertNotesToFlashcards vault (answering [unfenced; prose; unfenced])
            openai (js "sk-test") plainNotes 1 3 DEFAULT_gptAdvancedOptions
            None None None)
     = Return [cardXY; cardXY].
Proof.
  assert (H : parseChoiceContent (noteChoiceContent (choice prose))
              = Throw SyntaxError) by (vm_compute; reflexivity).
  split; [exact H|].
  destruct (@C7_malformed_choice_is_dropped noteChoiceContent
              [choice unfenced] [choice unfenced] (choice prose) SyntaxError H)
    as (Hdrop & _ & _ & Hentry).
  split.
  - rewrite Hdrop. vm_compute. reflexivity.
  - rewrite (Hentry vault (answering [unfenced; prose; unfenced]) openai
               (js "sk-test") plainNotes 1%Z 3%Z DEFAULT_gptAdvancedOptions
               None None None
               {| choices := map choice [unfenced; prose; unfenced] |}
               (fun _ => eq_refl)).
    vm_compute. reflexivity.
Defined.

(** *** The provider dispatcher (the entry points) *)

Lemma submitted_app (t1 t2 : list (event Request)) :
  submitted (t1 ++ t2) = submitted t1 ++ submitted t2.
Proof. apply flat_map_app. Qed.

Lemma encodeFile_submitted (app : Vault) (f : TFile) (p a : jsstring) :
  submitted (snd (encodeFile app f p a)) = [].
Proof.
  unfold encodeFile, readBinary.
  destruct (contents app (file_path f)) as [bytes|]; [|reflexivity].
  destruct (argumentLimit app <? N.of_nat (List.length bytes))%N; reflexivity.
Qed.

Lemma processImage_submitted (app : Vault) (ms : MultimodalSettings)
      (imageRef : ImageReference) :
  submitted (snd (processImage app ms imageRef)) = [].
Proof.
  unfold processImage.
  destruct (startsWith _ _ || startsWith _ _); [reflexivity|].
  destruct (negb _); [reflexivity|].
  destruct (resolveImageFile app (ref_path imageRef)) as [[f|] p];
    [|reflexivity].
  destruct (Qgtb _ _); [reflexivity|].
  apply encodeFile_submitted.
Qed.

(** Resolving media submits nothing. *)
Lemma processImages_submitted (app : Vault) (text : jsstring)
      (ms : MultimodalSettings) :
  submitted (snd (processImages app text ms)) = [].
Proof.
  unfold processImages. destruct (negb (enabled ms)); [reflexivity|].
  induction (extractImageReferences text) as [|r l IH]; [reflexivity|].
  simpl.
  pose proof (processImage_submitted app ms r) as H.
  destruct (processImage app ms r) as [image reads1].
  destruct (processImageReferences app ms l) as [images reads2].
  simpl in *. now rewrite submitted_app, H, IH.
Qed.

Lemma processStandaloneFile_submitted (app : Vault) (file : TFile)
      (ms : MultimodalSettings) :
  submitted (snd (processStandaloneFile app file ms)) = [].
Proof.
  unfold processStandaloneFile.
  destruct (negb (enabled ms)); [reflexivity|].
  destruct (negb _); [reflexivity|].
  destruct (Qgtb _ _); [reflexivity|].
  apply encodeFile_submitted.
Qed.

Lemma noteImages_submitted (app : Vault) (notes : jsstring)
      (ms : option MultimodalSettings) :
  submitted (snd (noteImages app notes ms)) = [].
Proof.
  unfold noteImages. destruct ms as [ms0|]; [|reflexivity].
  destruct (enabled ms0); [|reflexivity]. apply processImages_submitted.
Qed.

(** The note entry point submits one request, built by [noteRequest] from
    the images it resolved, and handles the provider's answer to it. *)
Lemma convertNotesToFlashcards_submits (app : Vault) (create : Provider)
      (provider : AIProvider) (apiKey notes : jsstring) (num_q num : Z)
      (options : GptAdvancedOptions) (baseUrl modelName : option jsstring)
      (ms : option MultimodalSettings) :
  let processedImages := fst (noteImages app notes ms) in
  let request :=
    noteRequest provider apiKey (noteText notes processedImages)
                processedImages num_q num options baseUrl modelName ms in
  submitted (snd (convertNotesToFlashcards app create provider apiKey notes
                    num_q num options baseUrl modelName ms))
  = [request]
  /\ fst (convertNotesToFlashcards app create provider apiKey notes
            num_q num options baseUrl modelName ms)
     = match create request with
       | Throw err => submissionFailed err
       | Return response => Return (parseChoices noteChoiceContent response)
       end.
Proof.
  unfold convertNotesToFlashcards.
  pose proof (noteImages_submitted app notes ms) as H.
  destruct (noteImages app notes ms) as [processedImages reads0].
  simpl in *. rewrite submitted_app, H. split; reflexivity.
Qed.

(** The standalone-file entry point submits at most one request, built by
    [fileRequest]; when it submits none it raises. *)
Lemma convertStandaloneFileToFlashcards_submits (app : Vault)
      (create : Provider) (provider : AIProvider) (apiKey : jsstring)
      (file : TFile) (num_q num : Z) (options : GptAdvancedOptions)
      (baseUrl model : option jsstring) (ms : option MultimodalSettings) :
  let run := convertStandaloneFileToFlashcards app create provider apiKey file
               num_q num options baseUrl model ms in
  (submitted (snd run) = [] /\ exists e, fst run = Throw e)
  \/ (exists processedFile settings,
         ms = Some settings
         /\ submitted (snd run)
            = [fileRequest provider apiKey processedFile num_q num options
                           baseUrl settings]
         /\ fst run
            = match create (fileRequest provider apiKey processedFile num_q
                              num options baseUrl settings) with
              | Throw error => Throw error
              | Return response =>
                  Return (parseChoices fileChoiceContent response)
              end).
Proof.
  unfold convertStandaloneFileToFlashcards.
  destruct ms as [ms0|]; [|left; split; [reflexivity|eexists; reflexivity]].
  destruct (enabled ms0);
    [|left; split; [reflexivity|eexists; reflexivity]].
  pose proof (processStandaloneFile_submitted app file ms0) as H.
  destruct (processStandaloneFile app file ms0) as [[fileInfo|] reads0];
    simpl in H.
  - right. exists fileInfo, ms0. simpl. rewrite submitted_app, H.
    repeat split; reflexivity.
  - left. simpl. split; [exact H|eexists; reflexivity].
Qed.

Lemma noteRequest_budget (provider : AIProvider)
      (apiKey processedNotes : jsstring) (processedImages : list ImageInfo)
      (num_q num : Z) (options : GptAdvancedOptions)
      (baseUrl modelName : option jsstring) (ms : option MultimodalSettings) :
  max_tokens (completionParams
                (noteRequest provider apiKey processedNotes processedImages
                             num_q num options baseUrl modelName ms))
  = (max_tokens_per_question options * num_q)%Z
  /\ n (completionParams
          (noteRequest provider apiKey processedNotes processedImages
                       num_q num options baseUrl modelName ms))
     = Some num.
Proof. destruct provider; split; reflexivity. Qed.

Lemma fileRequest_budget (provider : AIProvider) (apiKey : jsstring)
      (processedFile : ImageInfo) (num_q num : Z)
      (options : GptAdvancedOptions) (baseUrl : option jsstring)
      (ms : MultimodalSettings) :
  max_tokens (completionParams
                (fileRequest provider apiKey processedFile num_q num options
                             baseUrl ms))
  = (max_tokens_per_question options * num_q * num)%Z
  /\ n (completionParams
          (fileRequest provider apiKey processedFile num_q num options
                       baseUrl ms))
     = options_n (completionOptions options).
Proof. destruct provider; split; reflexivity. Qed.

(** C9, as the code has it.  The note entry point submits one request, with
    max_tokens equal to max_tokens_per_question times the question count
    and n equal to the sample count.  Every request the standalone-file
    entry point submits has max_tokens equal to max_tokens_per_question
    times the question count times the sample count; the entry point
    writes no n, so the request has the n of the options, and none when
    the options hold none. *)
Theorem C9_max_tokens (app : Vault) (create : Provider)
        (provider : AIProvider) (apiKey : jsstring) (num_q num : Z)
        (options : GptAdvancedOptions) (baseUrl modelName : option jsstring)
        (ms : option MultimodalSettings) :
  (forall notes : jsstring,
      map (fun r => (max_tokens (completionParams r), n (completionParams r)))
          (submitted (snd (convertNotesToFlashcards app create provider apiKey
                             notes num_q num options baseUrl modelName ms)))
      = [((max_tokens_per_question options * num_q)%Z, Some num)])
  /\ (forall (file : TFile) (r : Request),
         In r (submitted (snd (convertStandaloneFileToFlashcards app create
                                 provider apiKey file num_q num options baseUrl
                                 modelName ms))) ->
         max_tokens (completionParams r)
         = (max_tokens_per_question options * num_q * num)%Z
         /\ n (completionParams r) = options_n (completionOptions options)).
Proof.
  split.
  - intros notes0.
    destruct (convertNotesToFlashcards_submits app create provider apiKey
                notes0 num_q num options baseUrl modelName ms) as [E _].
    rewrite E. simpl.
    destruct (noteRequest_budget provider apiKey
                (noteText notes0 (fst (noteImages app notes0 ms)))
                (fst (noteImages app notes0 ms)) num_q num options
                baseUrl modelName ms) as [-> ->].
    reflexivity.
  - intros file r Hin.
    destruct (convertStandaloneFileToFlashcards_submits app create provider
                apiKey file num_q num options baseUrl modelName ms)
      as [[E _]|(pf & s & _ & E & _)]; rewrite E in Hin.
    + destruct Hin.
    + destruct Hin as [<-|[]]. apply fileRequest_budget.
Qed.

Lemma C9_max_tokens_witness :
  map (fun r => (max_tokens (completionParams r), n (completionParams r)))
      (submitted (snd (convertNotesToFlashcards vault (answering [unfenced])
                         ollama [] notes 5 2 DEFAULT_gptAdvancedOptions
                         localhost (Some DEFAULT_ollamaModel) (Some visionOn))))
  = [(500%Z, Some 2%Z)]
  /\ In (fileRequest ollama [] diagramFileInfo 5 1 DEFAULT_gptAdvancedOptions
                     localhost visionOn)
        (submitted (snd (convertStandaloneFileToFlashcards vault
                           (answering [unfenced]) ollama [] diagram 5 1
                           DEFAULT_gptAdvancedOptions localhost None
                           (Some visionOn))))
  /\ max_tokens (completionParams
                   (fileRequest ollama [] diagramFileInfo 5 1
                                DEFAULT_gptAdvancedOptions localhost visionOn))
     = 500%Z
  /\ n (completionParams
          (fileRequest ollama [] diagramFileInfo 5 1
                       DEFAULT_gptAdvancedOptions localhost visionOn))
     = None.
Proof.
  destruct (@C9_max_tokens vault (answering [unfenced]) ollama [] 5%Z 2%Z
              DEFAULT_gptAdvancedOptions localhost (Some DEFAULT_ollamaModel)
              (Some visionOn)) as [Hnote _].
  destruct (@C9_max_tokens vault (answering [unfenced]) ollama [] 5%Z 1%Z
              DEFAULT_gptAdvancedOptions localhost None
              (Some visionOn)) as [_ Hfile].
  assert (Hin : In (fileRequest ollama [] diagramFileInfo 5 1
                                DEFAULT_gptAdvancedOptions localhost visionOn)
                   (submitted (snd (convertStandaloneFileToFlashcards vault
                                      (answering [unfenced]) ollama [] diagram
                                      5 1 DEFAULT_gptAdvancedOptions localhost
                                      None (Some visionOn))))).
  { left. vm_compute. reflexivity. }
  split; [exact (Hnote notes)|].
  split; [exact Hin|].
  exact (Hfile diagram _ Hin).
Defined.

(** C9 as stated fails on the standalone-file entry point: for 5 questions
    and 2 samples at 100 tokens a question it asks for 1000 tokens, not
    500.  It writes no n: under the default options the request has none,
    and under options that hold n = 3 it has that n, where the note entry
    point sends the sample count. *)
Lemma C9_standalone_budget_counts_samples :
  map (fun r => max_tokens (completionParams r))
      (submitted (snd (convertStandaloneFileToFlashcards vault
                         (answering [unfenced]) ollama [] diagram 5 2
                         DEFAULT_gptAdvancedOptions localhost None
                         (Some visionOn))))
  = [1000%Z]
  /\ (max_tokens_per_question DEFAULT_gptAdvancedOptions * 5)%Z = 500%Z
  /\ map (fun r => max_tokens (completionParams r))
         (submitted (snd (convertStandaloneFileToFlashcards vault
                            (answering [unfenced]) ollama [] diagram 5 2
                            DEFAULT_gptAdvancedOptions localhost None
                            (Some visionOn))))
     <> [(max_tokens_per_question DEFAULT_gptAdvancedOptions * 5)%Z]
  /\ map (fun r => n (completionParams r))
         (submitted (snd (convertStandaloneFileToFlashcards vault
                            (answering [unfenced]) ollama [] diagram 5 2
                            DEFAULT_gptAdvancedOptions localhost None
                            (Some visionOn))))
     = [None]
  /\ map (fun r => n (completionParams r))
         (submitted (snd (convertStandaloneFileToFlashcards vault
                            (answering [unfenced]) ollama [] diagram 5 2
                            threeSamples localhost None (Some visionOn))))
     = [Some 3%Z]
  /\ map (fun r => n (completionParams r))
         (submitted (snd (convertNotesToFlashcards vault
                            (answering [unfenced]) ollama [] notes 5 2
                            threeSamples localhost None (Some visionOn))))
     = [Some 2%Z].
Proof.
  split; [vm_compute; reflexivity|].
  split; [vm_compute; reflexivity|].
  split; [vm_compute; discriminate|].
  split; [vm_compute; reflexivity|].
  split; vm_compute; reflexivity.
Qed.

Lemma submissionFailed_readable (err : js_error) :
  bodyReadable err = true -> submissionFailed err = Return [].
Proof.
  unfold bodyReadable, submissionFailed.
  destruct (response_of err) as [r|]; [|reflexivity].
  destruct (data r) as [[]|]; intros H; try reflexivity; discriminate.
Qed.

(** C2, as the code has it.  When the provider fails the submission, the
    note entry point returns an empty array, provided the error carries no
    response or a response with a body; the standalone-file entry point
    logs the error and raises it again to its caller. *)
Theorem C2_submission_failure (app : Vault) (create : Provider)
        (err : js_error) (provider : AIProvider) (apiKey : jsstring)
        (num_q num : Z) (options : GptAdvancedOptions)
        (baseUrl modelName : option jsstring)
        (ms : option MultimodalSettings) :
  (forall r : Request, create r = Throw err) ->
  (forall notes : jsstring,
      bodyReadable err = true ->
      fst (convertNotesToFlashcards app create provider apiKey notes num_q num
             options baseUrl modelName ms)
      = Return [])
  /\ (forall file : TFile,
         exists e : js_error,
           fst (convertStandaloneFileToFlashcards app create provider apiKey
                  file num_q num options baseUrl modelName ms)
           = Throw e
           /\ (submitted (snd (convertStandaloneFileToFlashcards app create
                                 provider apiKey file num_q num options
                                 baseUrl modelName ms)) <> [] ->
               e = err)).
Proof.
  intros Hfail. split.
  - intros notes0 Hbody.
    destruct (convertNotesToFlashcards_submits app create provider apiKey
                notes0 num_q num options baseUrl modelName ms) as [_ E].
    rewrite E, Hfail. now apply submissionFailed_readable.
  - intros file.
    destruct (convertStandaloneFileToFlashcards_submits app create provider
                apiKey file num_q num options baseUrl modelName ms)
      as [[E [e He]]|(pf & s & _ & E & R)].
    + exists e. split; [exact He|]. intros Hsub. now rewrite E in Hsub.
    + exists err. rewrite R, Hfail. split; reflexivity.
Qed.

Lemma C2_submission_failure_witness :
  (forall r : Request,
      unreachable r = Throw (RequestError (js "Connection error.") None))
  /\ bodyReadable (RequestError (js "Connection error.") None) = true
  /\ fst (convertNotesToFlashcards vault unreachable ollama [] notes 5 2
            DEFAULT_gptAdvancedOptions localhost (Some DEFAULT_ollamaModel)
            (Some visionOn))
     = Return []
  /\ exists e : js_error,
      fst (convertStandaloneFileToFlashcards vault unreachable ollama []
             diagram 5 2 DEFAULT_gptAdvancedOptions localhost None
             (Some visionOn))
      = Throw e.
Proof.
  assert (Hfail : forall r : Request,
             unreachable r = Throw (RequestError (js "Connection error.") None))
    by (intros r; reflexivity).
  assert (Hbody : bodyReadable (RequestError (js "Connection error.") None)
                  = true) by reflexivity.
  destruct (@C2_submission_failure vault unreachable
              (RequestError (js "Connection error.") None) ollama [] 5%Z 2%Z
              DEFAULT_gptAdvancedOptions localhost (Some DEFAULT_ollamaModel)
              (Some visionOn) Hfail) as [Hnote _].
  destruct (@C2_submission_failure vault unreachable
              (RequestError (js "Connection error.") None) ollama [] 5%Z 2%Z
              DEFAULT_gptAdvancedOptions localhost None
              (Some visionOn) Hfail) as [_ Hfile].
  split; [exact Hfail|]. split; [exact Hbody|].
  split; [exact (Hnote notes Hbody)|].
  destruct (Hfile diagram) as (e & He & _). exists e. exact He.
Defined.

(** C2 as stated fails on the standalone-file entry point: when the
    provider cannot be reached, or answers 401 with an error body, the
    call raises the provider's error instead of returning an empty
    array. *)
Lemma C2_standalone_raises :
  fst (convertStandaloneFileToFlashcards vault unreachable ollama [] diagram
         5 2 DEFAULT_gptAdvancedOptions localhost None (Some visionOn))
  = Throw (RequestError (js "Connection error.") None)
  /\ fst (convertStandaloneFileToFlashcards vault
            (rejecting 401 (JObject [(js "error", JString (js "unauthorized"))]))
            openai (js "sk-test") diagram 5 2 DEFAULT_gptAdvancedOptions None
            None (Some visionOn))
     = Throw (RequestError (js "Request failed")
                (Some {| status := 401;
                         data := Some (JObject [(js "error",
                                                 JString (js "unauthorized"))])
                      |}))
  /\ fst (convertStandaloneFileToFlashcards vault unreachable ollama [] diagram
            5 2 DEFAULT_gptAdvancedOptions localhost None (Some visionOn))
     <> Return [].
Proof.
  split; [vm_compute; reflexivity|].
  split; [vm_compute; reflexivity|].
  vm_compute. discriminate.
Qed.

(** C3, evaluated.  For ollama with no media the note entry point selects
    the configured model, llama3.2 when none is given; the standalone-file
    entry point selects the configured vision model and falls back to
    llama3.2-vision:11b when it is empty.  With media, the note entry point
    selects the configured vision model as it is: for one resolved image
    and an empty vision model it submits the empty model name, where the
    standalone-file entry point, under the same settings, submits
    llama3.2-vision:11b. *)
Theorem C3_note_flow_has_no_vision_fallback :
  (forall apiKey processedNotes num_q num options baseUrl modelName ms,
      model (completionParams
               (noteRequest ollama apiKey processedNotes [] num_q num options
                            baseUrl modelName ms))
      = opt_or modelName (js "llama3.2"))
  /\ (forall apiKey processedFile num_q num options baseUrl ms,
         model (completionParams
                  (fileRequest ollama apiKey processedFile num_q num options
                               baseUrl ms))
         = str_or (visionModel ms) (js "llama3.2-vision:11b"))
  /\ (forall apiKey processedNotes image others num_q num options baseUrl
             modelName ms,
         model (completionParams
                  (noteRequest ollama apiKey processedNotes (image :: others)
                               num_q num options baseUrl modelName (Some ms)))
         = if enabled ms then visionModel ms
           else opt_or modelName (js "llama3.2"))
  /\ map (fun r => model (completionParams r))
         (submitted (snd (convertNotesToFlashcards vault (answering []) ollama
                            [] plainNotes 5 1 DEFAULT_gptAdvancedOptions
                            localhost (Some DEFAULT_ollamaModel)
                            (Some visionUnset))))
     = [js "llama3.2"]
  /\ map (fun r => model (completionParams r))
         (submitted (snd (convertNotesToFlashcards vault (answering []) ollama
                            [] notes 5 1 DEFAULT_gptAdvancedOptions
                            localhost (Some DEFAULT_ollamaModel)
                            (Some visionUnset))))
     = [js ""]
  /\ map (fun r => model (completionParams r))
         (submitted (snd (convertStandaloneFileToFlashcards vault (answering [])
                            ollama [] diagram 5 1 DEFAULT_gptAdvancedOptions
                            localhost (Some DEFAULT_ollamaModel)
                            (Some visionUnset))))
     = [js "llama3.2-vision:11b"].
Proof.
  split; [intros; destruct ms as [ms0|]; reflexivity|].
  split; [reflexivity|].
  split; [reflexivity|].
  repeat split; vm_compute; reflexivity.
Qed.

(** processImages keeps the order of the references: each reference
    contributes its image, or nothing, in turn. *)
Lemma processImageReferences_in_order (request : Type) (app : Vault)
      (ms : MultimodalSettings) (imageReferences : list ImageReference) :
  fst (processImageReferences (request := request) app ms imageReferences)
  = flat_map (fun r => match fst (processImage (request := request) app ms r)
                       with
                       | Some image => [image]
                       | None => []
                       end) imageReferences.
Proof.
  induction imageReferences as [|r l IH]; [reflexivity|].
  simpl. rewrite <- IH.
  destruct (processImage app ms r) as [[image|] reads1];
    destruct (processImageReferences app ms l) as [images reads2];
    reflexivity.
Qed.

(** The URL of an attachment: the MIME type, when it is a string, stands
    between the scheme and the encoding as it is. *)
Lemma dataUrl_text (image : ImageInfo) :
  dataUrl image
  = js "data:"
    ++ match mimeType image with
       | JsObject.OwnString mime => mime
       | JsObject.Inherited name => JsObject.toString (JsObject.Inherited name)
       end
    ++ js ";base64," ++ base64 image.
Proof. unfold dataUrl. destruct (mimeType image); reflexivity. Qed.

(** C6. With one resolved media item or more, the final user message of
    createMessages holds an array: one text segment (the trimmed notes
    between line feeds), then one image segment per item in the order
    given, each with the URL data:<mimeType>;base64,<base64>, the MIME
    type being the string the item holds.  With no item (no array or an
    empty one) it holds the text as a plain string.  The user message of
    the standalone-file flow holds one text segment and the one image
    segment of its file.  The request the note entry point submits carries
    the messages of createMessages, built from the images it resolved: for
    the note that shows the image of the vault, between blanks, the image
    segment is data:image/png;base64,iVBORw== and the text is the note
    without the blanks, the alt text in place of the markup. *)
Theorem C6_user_content_segments (notes : jsstring) (num : Z) :
  (forall (image : ImageInfo) (others : list ImageInfo),
      List.length (createMessages notes num (Some (image :: others))) = 4%nat
      /\ nth_error (createMessages notes num (Some (image :: others))) 3
         = Some {| role := user;
                   content :=
                     parts (text_part (LF :: trim notes ++ [LF])
                            :: map (fun i =>
                                      image_url_part
                                        (js "data:"
                                         ++ match mimeType i with
                                            | JsObject.OwnString mime => mime
                                            | JsObject.Inherited name =>
                                                JsObject.toString
                                                  (JsObject.Inherited name)
                                            end
                                         ++ js ";base64," ++ base64 i))
                                   (image :: others)) |})
  /\ nth_error (createMessages notes num None) 3
     = Some {| role := user; content := plain (LF :: trim notes ++ [LF]) |}
  /\ nth_error (createMessages notes num (Some [])) 3
     = Some {| role := user; content := plain (LF :: trim notes ++ [LF]) |}
  /\ (forall (fileInfo : ImageInfo),
         nth_error (createMessagesForStandaloneFile fileInfo num) 2
         = Some {| role := user;
                   content :=
                     parts [text_part
                              (js "Please analyze this file and generate "
                               ++ Z_toString num
                               ++ js " educational flashcard questions and answers based on its content: "
                               ++ altOrPath fileInfo);
                            image_url_part
                              (js "data:"
                               ++ match mimeType fileInfo with
                                  | JsObject.OwnString mime => mime
                                  | JsObject.Inherited name =>
                                      JsObject.toString
                                        (JsObject.Inherited name)
                                  end
                               ++ js ";base64," ++ base64 fileInfo)] |})
  /\ (forall app create provider apiKey rawNotes num' options baseUrl
             modelName multimodalSettings,
         map (fun r => messages (completionParams r))
             (submitted (snd (convertNotesToFlashcards app create provider
                                apiKey rawNotes num num' options baseUrl
                                modelName multimodalSettings)))
         = [createMessages
              (noteText rawNotes
                 (fst (noteImages app rawNotes multimodalSettings)))
              num
              (match fst (noteImages app rawNotes multimodalSettings) with
               | [] => None
               | image :: others => Some (image :: others)
               end)])
  /\ nth_error (createMessages notes num (Some [diagramInfo; diagramFileInfo])) 3
     = Some {| role := user;
               content :=
                 parts [text_part (LF :: trim notes ++ [LF]);
                        image_url_part (js "data:image/png;base64,iVBORw==");
                        image_url_part (js "data:image/png;base64,iVBORw==")] |}
  /\ map (fun r => nth_error (messages (completionParams r)) 3)
         (submitted (snd (convertNotesToFlashcards vault (answering [])
                            openai (js "sk-test")
                            (js "  " ++ Scenario.notes ++ [LF]) num 1
                            DEFAULT_gptAdvancedOptions None None
                            (Some visionOn))))
     = [Some {| role := user;
                content :=
                  parts [text_part
                           (LF :: js "Cells divide by mitosis. cell diagram Each daughter cell is a copy."
                            ++ [LF]);
                         image_url_part
                           (js "data:image/png;base64,iVBORw==")] |}].
Proof.
  assert (Hurl : forall l : list ImageInfo,
             map (fun image => image_url_part (dataUrl image)) l
             = map (fun i =>
                      image_url_part
                        (js "data:"
                         ++ match mimeType i with
                            | JsObject.OwnString mime => mime
                            | JsObject.Inherited name =>
                                JsObject.toString (JsObject.Inherited name)
                            end
                         ++ js ";base64," ++ base64 i)) l).
  { intros l. apply map_ext. intros i. now rewrite dataUrl_text. }
  split; [intros image others; split; [reflexivity|]; rewrite <- Hurl;
          reflexivity|].
  split; [reflexivity|]. split; [reflexivity|].
  split; [intros fileInfo; rewrite <- dataUrl_text; reflexivity|].
  split.
  - intros app create provider apiKey rawNotes num' options baseUrl modelName
           ms.
    destruct (convertNotesToFlashcards_submits app create provider apiKey
                rawNotes num num' options baseUrl modelName ms) as [E _].
    rewrite E. simpl map.
    destruct provider, (fst (noteImages app rawNotes ms)); reflexivity.
  - split; [reflexivity|].
    destruct (convertNotesToFlashcards_submits vault (answering []) openai
                (js "sk-test") (js "  " ++ Scenario.notes ++ [LF]) num 1%Z
                DEFAULT_gptAdvancedOptions None None (Some visionOn))
      as [E _].
    rewrite E.
    assert (Himages : noteImages vault (js "  " ++ Scenario.notes ++ [LF])
                                 (Some visionOn)
                      = ([diagramInfo], [ReadBinary (js "assets/cell.png")]))
      by (vm_compute; reflexivity).
    rewrite Himages. cbn [fst map].
    assert (Htext : noteText (js "  " ++ Scenario.notes ++ [LF]) [diagramInfo]
                    = js "  Cells divide by mitosis. cell diagram Each daughter cell is a copy."
                      ++ [LF])
      by (vm_compute; reflexivity).
    rewrite Htext. reflexivity.
Qed.

(* ===================================================================== *)
(** ** Further properties of the media resolver *)
(* ===================================================================== *)

Import ActiveFile.

(** *** The size limit *)

(** A size in bytes exceeds a limit in KB exactly when it exceeds 1024
    times the limit. *)
Lemma Qgtb_bytesToKB (size : Z) (limit : Q) :
  Qgtb (bytesToKB size) limit = true <-> (limit * 1024 < inject_Z size)%Q.
Proof.
  unfold Qgtb, bytesToKB. rewrite negb_true_iff.
  split.
  - intros H. apply Qnot_le_lt. intros L.
    assert (Hle : Qle_bool (inject_Z size / 1024) limit = true).
    { apply Qle_bool_iff. apply Qle_shift_div_r; [reflexivity|exact L]. }
    congruence.
  - intros H. destruct (Qle_bool (inject_Z size / 1024) limit) eqn:E;
      [|reflexivity].
    apply Qle_bool_iff in E.
    assert (L : (inject_Z size <= limit * 1024)%Q).
    { setoid_replace (inject_Z size) with (inject_Z size / 1024 * 1024)%Q
        by (field).
      apply Qmult_le_compat_r; [exact E|discriminate]. }
    exfalso. apply (Qlt_not_le _ _ H L).
Qed.

(** *** Resolving a reference *)

Lemma getFiles_In (app : Vault) (f : TFile) :
  In f (getFiles app) <-> In (IsFile f) (entries app).
Proof.
  unfold getFiles. rewrite in_flat_map. split.
  - intros ([g|p] & Hin & Hf); simpl in Hf; [|destruct Hf].
    destruct Hf as [<-|[]]. exact Hin.
  - intros Hin. exists (IsFile f). split; [exact Hin|now left].
Qed.

Lemma str_eqb_refl (s : jsstring) : str_eqb s s = true.
Proof.
  induction s as [|x s IH]; simpl; [reflexivity|].
  now rewrite N.eqb_refl, IH.
Qed.

Lemma startsWith_refl (s : jsstring) : startsWith s s = true.
Proof.
  induction s as [|x s IH]; simpl; [reflexivity|].
  now rewrite N.eqb_refl, IH.
Qed.

(** A file resolveImageFile returns is a file of the vault, under its own
    path. *)
Lemma resolveImageFile_sound (app : Vault) (imagePath : jsstring)
      (f : TFile) (p : jsstring) :
  resolveImageFile app imagePath = (Some f, p) ->
  In f (getFiles app) /\ p = file_path f.
Proof.
  unfold resolveImageFile.
  assert (Hfound :
            forall (pr : TFile -> bool) (g : TFile),
              find pr (getFiles app) = Some g -> In g (getFiles app)).
  { intros pr g H. now apply find_some in H. }
  destruct (getAbstractFileByPath app imagePath) as [[d|fp]|] eqn:D.
  - intros [= <- <-]. unfold getAbstractFileByPath in D.
    apply find_some in D as [Hin Hp]. simpl in Hp.
    apply str_eqb_eq in Hp. split; [now apply getFiles_In|now symmetry].
  - destruct (find (fun f0 => str_eqb (file_name f0) imagePath)
                   (getFiles app)) as [g|] eqn:F1.
    { intros [= <- <-]. split; [eapply Hfound; eauto|reflexivity]. }
    destruct (find (fun f0 => endsWith (file_path f0) imagePath)
                   (getFiles app)) as [g|] eqn:F2.
    { intros [= <- <-]. split; [eapply Hfound; eauto|reflexivity]. }
    destruct (find (fun f0 => str_eqb (file_name f0)
                                 (str_or (split_pop (cu "/") imagePath)
                                         imagePath))
                   (getFiles app)) as [g|] eqn:F3; [|discriminate].
    intros [= <- <-]. split; [eapply Hfound; eauto|reflexivity].
  - destruct (find (fun f0 => str_eqb (file_name f0) imagePath)
                   (getFiles app)) as [g|] eqn:F1.
    { intros [= <- <-]. split; [eapply Hfound; eauto|reflexivity]. }
    destruct (find (fun f0 => endsWith (file_path f0) imagePath)
                   (getFiles app)) as [g|] eqn:F2.
    { intros [= <- <-]. split; [eapply Hfound; eauto|reflexivity]. }
    destruct (find (fun f0 => str_eqb (file_name f0)
                                 (str_or (split_pop (cu "/") imagePath)
                                         imagePath))
                   (getFiles app)) as [g|] eqn:F3; [|discriminate].
    intros [= <- <-]. split; [eapply Hfound; eauto|reflexivity].
Qed.

(** X1 (resolveImageFile). resolveImageFile is sound and complete. The
    file it returns is a file of the vault and the path it returns is that
    file's path. It finds a file whenever the vault lists one whose path
    or name is the reference, whose path ends with the reference, or whose
    name is the last segment of the reference. *)
Theorem resolveImageFile_sound_complete (app : Vault) (imagePath : jsstring) :
  (forall (f : TFile) (p : jsstring),
      resolveImageFile app imagePath = (Some f, p) ->
      In f (getFiles app) /\ p = file_path f)
  /\ (forall f : TFile,
         In f (getFiles app) ->
         file_path f = imagePath
         \/ file_name f = imagePath
         \/ endsWith (file_path f) imagePath = true
         \/ file_name f = str_or (split_pop (cu "/") imagePath) imagePath ->
         exists g : TFile, fst (resolveImageFile app imagePath) = Some g).
Proof.
  split.
  - intros f p. apply resolveImageFile_sound.
  - intros f Hin Hmatch.
    assert (Hmatch' :
              file_name f = imagePath
              \/ endsWith (file_path f) imagePath = true
              \/ file_name f = str_or (split_pop (cu "/") imagePath) imagePath).
    { destruct Hmatch as [H|H]; [|exact H].
      right. left. rewrite H. unfold endsWith. apply startsWith_refl. }
    clear Hmatch. unfold resolveImageFile.
    destruct (getAbstractFileByPath app imagePath) as [[d|fp]|];
      [eexists; reflexivity| |].
    all: destruct (find (fun f0 => str_eqb (file_name f0) imagePath)
                        (getFiles app)) as [g|] eqn:F1;
      [eexists; reflexivity|].
    all: destruct (find (fun f0 => endsWith (file_path f0) imagePath)
                        (getFiles app)) as [g|] eqn:F2;
      [eexists; reflexivity|].
    all: destruct (find (fun f0 => str_eqb (file_name f0)
                                     (str_or (split_pop (cu "/") imagePath)
                                             imagePath))
                        (getFiles app)) as [g|] eqn:F3;
      [eexists; reflexivity|].
    all: exfalso; destruct Hmatch' as [H|[H|H]].
    all: try (apply (find_none _ _ F1) in Hin; rewrite H, str_eqb_refl in Hin;
              discriminate).
    all: try (apply (find_none _ _ F2) in Hin; rewrite H in Hin;
              discriminate).
    all: apply (find_none _ _ F3) in Hin; rewrite H, str_eqb_refl in Hin;
      discriminate.
Qed.

Lemma resolveImageFile_sound_complete_witness :
  In diagram (getFiles vault)
  /\ file_name diagram = js "cell.png"
  /\ exists g : TFile,
      fst (resolveImageFile vault (js "cell.png")) = Some g
      /\ In g (getFiles vault).
Proof.
  assert (Hin : In diagram (getFiles vault)) by (left; reflexivity).
  assert (Hname : file_name diagram = js "cell.png") by reflexivity.
  split; [exact Hin|]. split; [exact Hname|].
  destruct (@resolveImageFile_sound_complete vault (js "cell.png"))
    as (Hsound & Hcomplete).
  destruct (Hcomplete diagram Hin (or_intror (or_introl Hname))) as [g Hg].
  exists g. split; [exact Hg|].
  destruct (resolveImageFile vault (js "cell.png")) as [o p] eqn:E.
  simpl in Hg. subst o. exact (proj1 (Hsound g p eq_refl)).
Defined.

(** *** What is read, and what is returned *)

(** What encodeFile yields: one read of the file, and the encoded bytes
    when the read succeeds. *)
Lemma encodeFile_cases (request : Type) (app : Vault) (f : TFile)
      (filePath altText : jsstring) :
  snd (encodeFile (request := request) app f filePath altText)
  = [ReadBinary (file_path f)]
  /\ match contents app (file_path f) with
     | None => fst (encodeFile (request := request) app f filePath altText)
               = None
     | Some bytes =>
         if (argumentLimit app <? N.of_nat (List.length bytes))%N then
           fst (encodeFile (request := request) app f filePath altText) = None
         else
           fst (encodeFile (request := request) app f filePath altText)
           = Some {| path := filePath;
                     base64 := btoa (fromCharCode bytes);
                     mimeType :=
                       getMimeType
                         (str_or (toLowerCase (split_pop (cu ".") filePath))
                                 (js "jpeg"));
                     alt := Some altText |}
     end.
Proof.
  unfold encodeFile, readBinary.
  destruct (contents app (file_path f)) as [bytes|]; [|split; reflexivity].
  destruct (argumentLimit app <? N.of_nat (List.length bytes))%N;
    split; reflexivity.
Qed.

(** processStandaloneFile gives up before the read when a check fails. *)
Lemma processStandaloneFile_rejects (request : Type) (app : Vault)
      (file : TFile) (ms : MultimodalSettings) :
  enabled ms = false
  \/ isSupportedMediaFormat (file_path file) (supportedFormats ms) = false
  \/ (maxImageSize ms * 1024 < inject_Z (stat_size file))%Q ->
  processStandaloneFile (request := request) app file ms = (None, []).
Proof.
  intros [H|[H|H]]; unfold processStandaloneFile.
  - now rewrite H.
  - destruct (enabled ms); simpl; [|reflexivity]. now rewrite H.
  - destruct (enabled ms); simpl; [|reflexivity].
    destruct (isSupportedMediaFormat _ _); simpl; [|reflexivity].
    apply Qgtb_bytesToKB in H. now rewrite H.
Qed.







(** X4 (processImages). A text whose references are all remote (http or
    https) yields no image and no read, whatever the vault holds. *)
Theorem processImages_skips_remote (request : Type) (app : Vault)
        (markdownText : jsstring) (ms : MultimodalSettings) :
  Forall (fun r => startsWith (ref_path r) (js "http://") = true
                   \/ startsWith (ref_path r) (js "https://") = true)
         (extractImageReferences markdownText) ->
  processImages (request := request) app markdownText ms = ([], []).
Proof.
  intros Hall. unfold processImages.
  destruct (negb (enabled ms)); [reflexivity|].
  induction Hall as [|r l Hr _ IH]; [reflexivity|].
  simpl. rewrite (remote_reference_is_skipped request app ms r Hr), IH.
  reflexivity.
Qed.

Lemma processImages_skips_remote_witness :
  Forall (fun r => startsWith (ref_path r) (js "http://") = true
                   \/ startsWith (ref_path r) (js "https://") = true)
         (extractImageReferences
            (js "See ![logo](https://example.org/logo.png) and ![map](http://example.org/cell.png)."))
  /\ processImages (request := Request) vault
       (js "See ![logo](https://example.org/logo.png) and ![map](http://example.org/cell.png).")
       visionOn
     = ([], []).
Proof.
  assert (H : Forall (fun r => startsWith (ref_path r) (js "http://") = true
                               \/ startsWith (ref_path r) (js "https://") = true)
                     (extractImageReferences
                        (js "See ![logo](https://example.org/logo.png) and ![map](http://example.org/cell.png)."))).
  { vm_compute.
    repeat (apply Forall_cons;
            [first [left; reflexivity | right; reflexivity]|]).
    apply Forall_nil. }
  split; [exact H|].
  exact (@processImages_skips_remote Request vault _ visionOn H).
Defined.

(** *** Supported formats *)

Lemma split_pop_aux_no_sep (sep : N) (s : jsstring) :
  ~ In sep s -> forall acc, split_pop_aux sep s acc = rev acc ++ s.
Proof.
  induction s as [|c s IH]; intros Hno acc; simpl.
  - now rewrite app_nil_r.
  - destruct (N.eqb_spec c sep) as [->|Hne].
    + exfalso. apply Hno. now left.
    + rewrite IH by (intros H; apply Hno; now right).
      simpl. now rewrite <- app_assoc.
Qed.

Lemma split_pop_aux_app (sep : N) (before after : jsstring) :
  forall acc,
    split_pop_aux sep (before ++ sep :: after) acc = split_pop_aux sep after [].
Proof.
  induction before as [|c s IH]; intros acc; simpl.
  - now rewrite N.eqb_refl.
  - destruct (N.eqb c sep); apply IH.
Qed.

(** [s.split(sep).pop()] is what follows the last separator. *)
Lemma split_pop_last (sep : N) (before after : jsstring) :
  ~ In sep after -> split_pop sep (before ++ sep :: after) = after.
Proof.
  intros Hno. unfold split_pop.
  rewrite split_pop_aux_app, split_pop_aux_no_sep by exact Hno. reflexivity.
Qed.

Lemma split_pop_whole (sep : N) (s : jsstring) :
  ~ In sep s -> split_pop sep s = s.
Proof.
  intros Hno. unfold split_pop. now rewrite split_pop_aux_no_sep.
Qed.

(** The extension of a path is what follows its last dot. *)
Lemma isSupportedImageFormat_dotted (supportedFormats : list jsstring)
      (base extension : jsstring) :
  ~ In (cu ".") extension ->
  isSupportedImageFormat (base ++ cu "." :: extension) supportedFormats
  = str_truthy extension && includes supportedFormats (toLowerCase extension).
Proof.
  intros Hno. unfold isSupportedImageFormat.
  rewrite split_pop_last by exact Hno. rewrite str_truthy_toLowerCase.
  now destruct (str_truthy extension).
Qed.

(** X5 (isSupportedImageFormat, isSupportedMediaFormat). Whether a path is
    supported depends only on what follows its last dot, lowered by
    toLowerCase and compared with the entries of the list as they are: a
    path that ends in a dot is never supported, a path with no dot is its
    own extension, and an entry of the list that holds a capital letter
    from A to Z supports no path.  The lowering is that of Unicode: the
    extension made of the Kelvin sign (U+212A) is supported by the entry
    k. *)
Theorem isSupportedImageFormat_extension (supportedFormats : list jsstring) :
  (forall base extension : jsstring,
      ~ In (cu ".") extension ->
      isSupportedImageFormat (base ++ cu "." :: extension) supportedFormats
      = str_truthy extension
        && includes supportedFormats (toLowerCase extension))
  /\ (forall name : jsstring,
         ~ In (cu ".") name ->
         isSupportedImageFormat name supportedFormats
         = str_truthy name && includes supportedFormats (toLowerCase name))
  /\ (forall path : jsstring,
         isSupportedImageFormat path supportedFormats
         = isSupportedImageFormat path
             (filter (fun entry => negb (existsb capital entry))
                     supportedFormats))
  /\ isSupportedImageFormat (js "scan." ++ [0x212A%N]) [js "k"] = true
  /\ isSupportedImageFormat (js "scan.k") [[0x212A%N]] = false.
Proof.
  split; [|split; [|split; [|split; vm_compute; reflexivity]]].
  - intros base extension. apply isSupportedImageFormat_dotted.
  - intros name Hno. unfold isSupportedImageFormat.
    rewrite split_pop_whole by exact Hno. rewrite str_truthy_toLowerCase.
    now destruct (str_truthy name).
  - intros path. unfold isSupportedImageFormat.
    destruct (str_truthy _); [|reflexivity].
    set (x := toLowerCase (split_pop (cu ".") path)).
    assert (Hx : existsb capital x = false).
    { destruct (existsb capital x) eqn:C; [|reflexivity].
      apply existsb_exists in C as (u & Hu & Cu).
      apply toLowerCase_not_capital in Hu. congruence. }
    clearbody x. unfold includes.
    induction supportedFormats as [|y l IH]; [reflexivity|].
    simpl. destruct (str_eqb y x) eqn:E.
    + apply str_eqb_eq in E. subst y.
      rewrite Hx. simpl. now rewrite str_eqb_refl.
    + simpl. rewrite IH.
      destruct (existsb capital y); simpl; [reflexivity|now rewrite E].
Qed.

Lemma isSupportedImageFormat_extension_witness :
  ~ In (cu ".") (js "PNG")
  /\ isSupportedImageFormat (js "assets/cell.v2" ++ cu "." :: js "PNG")
       (supportedFormats DEFAULT_multimodal)
     = true
  /\ isSupportedImageFormat (js "assets/cell.png") [js "PNG"; js "Jpg"] = false.
Proof.
  assert (Hno : ~ In (cu ".") (js "PNG")).
  { vm_compute. intros [H|[H|[H|[]]]]; discriminate H. }
  destruct (@isSupportedImageFormat_extension (supportedFormats DEFAULT_multimodal))
    as (Hext & _).
  destruct (@isSupportedImageFormat_extension [js "PNG"; js "Jpg"])
    as (_ & _ & Hcap & _).
  split; [exact Hno|]. split.
  - rewrite (Hext (js "assets/cell.v2") (js "PNG") Hno). reflexivity.
  - rewrite (Hcap (js "assets/cell.png")). reflexivity.
Defined.

(** X6 (DEFAULT_SETTINGS, getAllSupportedExtensions,
    processStandaloneFile). With the formats as shipped, a file whose
    extension is pdf, in any letter case, is rejected by
    processStandaloneFile without a read, and is no supported active file,
    although getMimeType and getAllSupportedExtensions list pdf. *)
Theorem default_formats_reject_pdf (request : Type) (app : Vault)
        (file : TFile) (ms : MultimodalSettings) (base extension : jsstring) :
  supportedFormats ms = supportedFormats DEFAULT_multimodal ->
  file_path file = base ++ cu "." :: extension ->
  toLowerCase extension = js "pdf" ->
  processStandaloneFile (request := request) app file ms = (None, [])
  /\ isActiveFileSupportedMedia (Some file) (supportedFormats ms) = None
  /\ includes getAllSupportedExtensions (toLowerCase extension) = true
  /\ getMimeType extension = JsObject.OwnString (js "application/pdf").
Proof.
  intros Hfmt Hpath Hext.
  assert (Hno : ~ In (cu ".") extension).
  { intros Hin. apply toLowerCase_keeps in Hin; [|reflexivity].
    rewrite Hext in Hin. vm_compute in Hin.
    destruct Hin as [H|[H|[H|[]]]]; discriminate H. }
  assert (Hunsupported :
            isSupportedMediaFormat (file_path file) (supportedFormats ms)
            = false).
  { unfold isSupportedMediaFormat. rewrite Hpath, Hfmt.
    rewrite (@isSupportedImageFormat_dotted _ base extension Hno).
    rewrite Hext. apply andb_false_r. }
  split; [|split; [|split]].
  - apply processStandaloneFile_rejects. right. left. exact Hunsupported.
  - unfold isActiveFileSupportedMedia. now rewrite Hunsupported.
  - now rewrite Hext.
  - unfold getMimeType. rewrite Hext. reflexivity.
Qed.

Lemma default_formats_reject_pdf_witness :
  supportedFormats visionOn = supportedFormats DEFAULT_multimodal
  /\ toLowerCase (js "PDF") = js "pdf"
  /\ processStandaloneFile (request := Request) vault
       {| file_path := js "papers/cell" ++ cu "." :: js "PDF";
          file_name := js "cell.PDF"; stat_size := 2048 |} visionOn
     = (None, []).
Proof.
  assert (Hfmt : supportedFormats visionOn = supportedFormats DEFAULT_multimodal)
    by reflexivity.
  assert (Hext : toLowerCase (js "PDF") = js "pdf") by reflexivity.
  split; [exact Hfmt|]. split; [exact Hext|].
  exact (proj1 (@default_formats_reject_pdf Request vault
                  {| file_path := js "papers/cell" ++ cu "." :: js "PDF";
                     file_name := js "cell.PDF"; stat_size := 2048 |}
                  visionOn (js "papers/cell") (js "PDF") Hfmt eq_refl Hext)).
Defined.

(** X7 (isActiveFileSupportedMedia, processStandaloneFile). A file
    isActiveFileSupportedMedia returns is the active file, and
    processStandaloneFile, under settings with the same format list, does
    not reject it for its format: with multimodal support on it returns
    null only for a file over the size limit, one whose read fails, or one
    that has more bytes than the engine takes arguments in a call.  The
    last does happen: whatever its size and format, a file with more bytes
    than that is never encoded. *)
Theorem active_file_passes_format_check (request : Type) (app : Vault)
        (activeFile : option TFile) (file : TFile) (ms : MultimodalSettings) :
  isActiveFileSupportedMedia activeFile (supportedFormats ms) = Some file ->
  activeFile = Some file
  /\ (enabled ms = true ->
      fst (processStandaloneFile (request := request) app file ms) = None ->
      (maxImageSize ms * 1024 < inject_Z (stat_size file))%Q
      \/ contents app (file_path file) = None
      \/ exists bytes : list Byte.byte,
          contents app (file_path file) = Some bytes
          /\ (argumentLimit app < N.of_nat (List.length bytes))%N)
  /\ (forall bytes : list Byte.byte,
         contents app (file_path file) = Some bytes ->
         (argumentLimit app < N.of_nat (List.length bytes))%N ->
         fst (processStandaloneFile (request := request) app file ms) = None).
Proof.
  unfold isActiveFileSupportedMedia.
  destruct activeFile as [f|]; [|discriminate].
  destruct (isSupportedMediaFormat (file_path f) (supportedFormats ms)) eqn:S;
    [|discriminate].
  intros [= ->]. split; [reflexivity|].
  pose proof (proj2 (encodeFile_cases request app file (file_path file)
                                      (file_name file))) as Hres.
  split.
  - intros Hon. unfold processStandaloneFile. rewrite Hon, S. cbn [negb].
    destruct (Qgtb (bytesToKB (stat_size file)) (maxImageSize ms)) eqn:G.
    + intros _. left. now apply Qgtb_bytesToKB.
    + intros Hnone. right.
      destruct (contents app (file_path file)) as [bytes|]; [|now left].
      right. exists bytes. split; [reflexivity|].
      destruct (N.ltb_spec (argumentLimit app) (N.of_nat (List.length bytes)))
        as [L|_]; [exact L|].
      rewrite Hres in Hnone. discriminate.
  - intros bytes C L. unfold processStandaloneFile.
    destruct (enabled ms); cbn [negb]; [|reflexivity]. rewrite S. cbn [negb].
    destruct (Qgtb (bytesToKB (stat_size file)) (maxImageSize ms));
      [reflexivity|].
    rewrite C in Hres. apply N.ltb_lt in L. rewrite L in Hres. exact Hres.
Qed.

Lemma active_file_passes_format_check_witness :
  isActiveFileSupportedMedia (Some diagram) (supportedFormats visionOn)
  = Some diagram
  /\ enabled visionOn = true
  /\ fst (processStandaloneFile (request := Request) vault diagram visionOn)
     <> None
  /\ isActiveFileSupportedMedia (Some largeScan) (supportedFormats visionOn)
     = Some largeScan
  /\ (inject_Z (stat_size largeScan) <= maxImageSize visionOn * 1024)%Q
  /\ processStandaloneFile (request := Request) scanVault largeScan visionOn
     = (None, [ReadBinary (js "scans/page.png")]).
Proof.
  assert (H : isActiveFileSupportedMedia (Some diagram)
                (supportedFormats visionOn) = Some diagram) by reflexivity.
  assert (Hon : enabled visionOn = true) by reflexivity.
  assert (Hscan : isActiveFileSupportedMedia (Some largeScan)
                    (supportedFormats visionOn) = Some largeScan)
    by reflexivity.
  split; [exact H|]. split; [exact Hon|].
  destruct (@active_file_passes_format_check Request vault (Some diagram)
              diagram visionOn H) as (_ & Hnone & _).
  destruct (@active_file_passes_format_check Request scanVault
              (Some largeScan) largeScan visionOn Hscan) as (_ & _ & Hlarge).
  split; [|split; [exact Hscan|split]].
  - intros E. destruct (Hnone Hon E) as [Hbig|[Hread|(bytes & Hread & Hmany)]].
    + vm_compute in Hbig. discriminate Hbig.
    + vm_compute in Hread. discriminate Hread.
    + vm_compute in Hread. injection Hread as <-.
      vm_compute in Hmany. discriminate Hmany.
  - vm_compute. discriminate.
  - specialize (Hlarge (repeat Byte.x00 (N.to_nat 200000)) eq_refl).
    assert (L : (argumentLimit scanVault
                 < N.of_nat (List.length (repeat Byte.x00 (N.to_nat 200000))))%N)
      by (vm_compute; reflexivity).
    specialize (Hlarge L).
    assert (T : snd (processStandaloneFile (request := Request) scanVault
                       largeScan visionOn)
                = [ReadBinary (js "scans/page.png")])
      by (vm_compute; reflexivity).
    destruct (processStandaloneFile (request := Request) scanVault largeScan
                                    visionOn) as [o t].
    cbn [fst snd] in *. now subst.
Defined.

(* ===================================================================== *)
(** ** Further properties of the image markdown *)
(* ===================================================================== *)

(** A greedy star consumes a prefix of units of its class. *)
Lemma star_prefix (A : Type) (p : N -> bool) (k : continuation A) (x : A) :
  forall s caps,
    star p s caps k = Some x ->
    exists pre post : jsstring,
      s = pre ++ post /\ forallb p pre = true /\ k post caps = Some x.
Proof.
  induction s as [|c s IH]; intros caps; simpl.
  - intros H. exists [], []. repeat split. exact H.
  - destruct (p c) eqn:P.
    + unfold or_else. destruct (star p s caps k) as [y|] eqn:E.
      * intros [= ->]. destruct (IH caps E) as (pre & post & -> & Hp & Hk).
        exists (c :: pre), post. simpl. rewrite P, Hp. repeat split. exact Hk.
      * intros H. exists [], (c :: s). repeat split. exact H.
    + intros H. exists [], (c :: s). repeat split. exact H.
Qed.

Lemma firstn_consumed (pre post : jsstring) :
  firstn (List.length (pre ++ post) - List.length post) (pre ++ post) = pre.
Proof.
  rewrite length_app.
  replace (List.length pre + List.length post - List.length post)%nat
    with (List.length pre + 0)%nat by lia.
  rewrite firstn_app_2. simpl. apply app_nil_r.
Qed.

(** What IMAGE_REGEX matches at the start of a text: an exclamation mark,
    an alt text with no closing bracket between brackets, a path of one
    unit at least with no closing parenthesis between parentheses. *)
Lemma IMAGE_REGEX_shape (s rest : jsstring) (caps : captures) :
  match_here IMAGE_REGEX s = Some (rest, caps) ->
  exists altText pathText : jsstring,
    s = js "![" ++ altText ++ js "](" ++ pathText ++ js ")" ++ rest
    /\ group 1 caps = Some altText
    /\ group 2 caps = Some pathText
    /\ forallb (notUnit "]") altText = true
    /\ forallb (notUnit ")") pathText = true
    /\ pathText <> [].
Proof.
  unfold match_here.
  change (run IMAGE_REGEX s [] (fun rest0 caps0 => Some (rest0, caps0)))
    with (match s with
          | [] => None
          | x :: s' =>
              if N.eqb x 33 then
                match s' with
                | [] => None
                | x0 :: s2 =>
                    if N.eqb x0 91 then
                      star (notUnit "]") s2 []
                        (fun s1 c1 =>
                           run (Cat [Word "]("; Group 2 (Plus (notUnit ")"));
                                     Word ")"])
                               s1 ((1%nat, firstn (List.length s2
                                                   - List.length s1) s2) :: c1)
                               (fun rest0 caps0 => Some (rest0, caps0)))
                    else None
                end
              else None
          end).
  destruct s as [|x s']; [discriminate|].
  destruct (N.eqb_spec x 33) as [->|]; [|discriminate].
  destruct s' as [|x0 s2]; [discriminate|].
  destruct (N.eqb_spec x0 91) as [->|]; [|discriminate].
  intros H. apply star_prefix in H as (altText & s1 & -> & Halt & H).
  rewrite firstn_consumed in H.
  change (run (Cat [Word "]("; Group 2 (Plus (notUnit ")")); Word ")"]) s1
              [(1%nat, altText)] (fun rest0 caps0 => Some (rest0, caps0)))
    with (match s1 with
          | [] => None
          | y :: t =>
              if N.eqb y 93 then
                match t with
                | [] => None
                | y0 :: t2 =>
                    if N.eqb y0 40 then
                      match t2 with
                      | [] => None
                      | z :: t3 =>
                          if notUnit ")" z then
                            star (notUnit ")") t3 [(1%nat, altText)]
                              (fun s3 c3 =>
                                 match s3 with
                                 | [] => None
                                 | w :: t4 =>
                                     if N.eqb w 41 then
                                       Some (t4,
                                             (2%nat,
                                              firstn (List.length t2
                                                      - List.length s3)
                                                     t2) :: c3)
                                     else None
                                 end)
                          else None
                      end
                    else None
                end
              else None
          end) in H.
  destruct s1 as [|y t]; [discriminate|].
  destruct (N.eqb_spec y 93) as [->|]; [|discriminate].
  destruct t as [|y0 t2]; [discriminate|].
  destruct (N.eqb_spec y0 40) as [->|]; [|discriminate].
  destruct t2 as [|z t3]; [discriminate|].
  destruct (notUnit ")" z) eqn:Hz; [|discriminate].
  apply star_prefix in H as (more & s3 & -> & Hmore & H).
  destruct s3 as [|w t4]; [discriminate|].
  destruct (N.eqb_spec w 41) as [->|]; [|discriminate].
  injection H as -> <-.
  change (z :: more ++ 41%N :: rest) with ((z :: more) ++ 41%N :: rest).
  replace (List.length (more ++ 41%N :: rest) - List.length rest)%nat
    with (List.length (z :: more) + 0)%nat
    by (rewrite length_app; simpl; lia).
  rewrite firstn_app_2. simpl firstn. rewrite app_nil_r.
  exists altText, (z :: more). repeat split.
  - exact Halt.
  - simpl. now rewrite Hz, Hmore.
  - discriminate.
Qed.

(** A match the global scan reports starts somewhere in the text. *)
Lemma scan_Matched (r : regex) (caps : captures) :
  forall (s : jsstring) (skip : nat),
    In (Matched caps) (scan r s skip) ->
    exists before at_ rest : jsstring,
      s = before ++ at_ /\ match_here r at_ = Some (rest, caps).
Proof.
  induction s as [|c s IH]; intros skip; simpl; [intros []|].
  destruct skip as [|n].
  - destruct (match_here r (c :: s)) as [[rest caps']|] eqn:M.
    + intros [[= ->]|Hin].
      * exists [], (c :: s), rest. split; [reflexivity|exact M].
      * destruct (IH _ Hin) as (b & a0 & r0 & -> & Hm).
        exists (c :: b), a0, r0. split; [reflexivity|exact Hm].
    + intros [H|Hin]; [discriminate|].
      destruct (IH _ Hin) as (b & a0 & r0 & -> & Hm).
      exists (c :: b), a0, r0. split; [reflexivity|exact Hm].
  - intros Hin. destruct (IH _ Hin) as (b & a0 & r0 & -> & Hm).
    exists (c :: b), a0, r0. split; [reflexivity|exact Hm].
Qed.

(** X8 (extractImageReferences). Every reference extractImageReferences
    returns stands in the text as written: its markup is a part of the
    text, its path is not empty and holds no closing parenthesis, and its
    alt text holds no closing bracket. *)
Theorem extractImageReferences_wellformed (markdownText : jsstring)
        (reference : ImageReference) :
  In reference (extractImageReferences markdownText) ->
  ref_path reference <> []
  /\ ~ In (cu ")") (ref_path reference)
  /\ ~ In (cu "]") (ref_alt reference)
  /\ exists before after : jsstring,
      markdownText
      = before ++ js "![" ++ ref_alt reference ++ js "]("
        ++ ref_path reference ++ js ")" ++ after.
Proof.
  assert (Hnot : forall (ch : string) (u : N) (l : jsstring),
             js ch = [u] -> forallb (notUnit ch) l = true -> ~ In u l).
  { intros ch u l Hch Hall Hin.
    rewrite forallb_forall in Hall. apply Hall in Hin.
    unfold notUnit in Hin. rewrite Hch in Hin. simpl in Hin.
    now rewrite N.eqb_refl in Hin. }
  unfold extractImageReferences. rewrite in_flat_map.
  intros ([c|caps] & Hin & Href); simpl in Href; [destruct Href|].
  destruct Href as [<-|[]].
  apply scan_Matched in Hin as (before & at_ & rest & -> & Hm).
  apply IMAGE_REGEX_shape in Hm
    as (altText & pathText & -> & G1 & G2 & Halt & Hpath & Hne).
  unfold group_text. rewrite G1, G2. simpl ref_alt. simpl ref_path.
  assert (Hor : str_or altText [] = altText) by (destruct altText; reflexivity).
  rewrite Hor.
  split; [exact Hne|].
  split; [now apply (Hnot ")"%string)|].
  split; [now apply (Hnot "]"%string)|].
  exists before, rest. reflexivity.
Qed.

Lemma extractImageReferences_wellformed_witness :
  In {| ref_alt := js "cell diagram"; ref_path := js "cell.png" |}
     (extractImageReferences notes)
  /\ exists before after : jsstring,
      notes = before ++ js "![" ++ js "cell diagram" ++ js "]("
              ++ js "cell.png" ++ js ")" ++ after.
Proof.
  assert (Hin : In {| ref_alt := js "cell diagram"; ref_path := js "cell.png" |}
                   (extractImageReferences notes))
    by (left; vm_compute; reflexivity).
  split; [exact Hin|].
  exact (proj2 (proj2 (proj2
           (@extractImageReferences_wellformed notes _ Hin)))).
Defined.

Lemma match_here_needs_exclamation (c : N) (s : jsstring) :
  c <> cu "!" -> match_here IMAGE_REGEX (c :: s) = None.
Proof.
  intros Hc. unfold match_here.
  change (run IMAGE_REGEX (c :: s) [] (fun rest0 caps0 => Some (rest0, caps0)))
    with (if N.eqb c 33
          then run (Seq (Unit 91) Empty) s []
                 (fun s1 c1 =>
                    run (Cat [Group 1 (Star (notUnit "]")); Word "](";
                              Group 2 (Plus (notUnit ")")); Word ")"])
                        s1 c1 (fun rest0 caps0 => Some (rest0, caps0)))
          else None).
  destruct (N.eqb_spec c 33) as [E|]; [|reflexivity].
  exfalso. apply Hc. exact E.
Qed.

Lemma scan_without_match (r : regex) :
  forall s : jsstring,
    (forall caps, ~ In (Matched caps) (scan r s 0)) ->
    scan r s 0 = map Plain s.
Proof.
  induction s as [|c s IH]; intros Hno; [reflexivity|].
  simpl in *. destruct (match_here r (c :: s)) as [[rest caps]|].
  - exfalso. apply (Hno caps). now left.
  - f_equal. apply IH. intros caps Hin. apply (Hno caps). now right.
Qed.

(** X9 (stripImageMarkdown). A text in which extractImageReferences finds
    no reference is left as it is by stripImageMarkdown, and processImages
    reads nothing for it; a text with no exclamation mark is such a text. *)
Theorem stripImageMarkdown_without_references (markdownText : jsstring) :
  (extractImageReferences markdownText = [] ->
   stripImageMarkdown markdownText = markdownText
   /\ forall (request : Type) (app : Vault) (ms : MultimodalSettings),
       processImages (request := request) app markdownText ms = ([], []))
  /\ (~ In (cu "!") markdownText ->
      extractImageReferences markdownText = []).
Proof.
  split.
  - intros Hnone.
    assert (Hno : forall caps,
               ~ In (Matched caps) (scan IMAGE_REGEX markdownText 0)).
    { intros caps Hin. unfold extractImageReferences in Hnone.
      assert (Hin' : In {| ref_alt := str_or (group_text 1 caps) [];
                           ref_path := group_text 2 caps |}
                        (flat_map
                           (fun p => match p with
                                     | Matched caps0 =>
                                         [{| ref_alt := str_or (group_text 1 caps0) [];
                                             ref_path := group_text 2 caps0 |}]
                                     | Plain _ => []
                                     end)
                           (scan IMAGE_REGEX markdownText 0))).
      { apply in_flat_map. exists (Matched caps). split; [exact Hin|now left]. }
      rewrite Hnone in Hin'. destruct Hin'. }
    split.
    + unfold stripImageMarkdown. rewrite (scan_without_match _ _ Hno).
      induction markdownText as [|c s IH]; [reflexivity|].
      simpl. f_equal. clear IH Hno Hnone.
      induction s as [|d s IH]; [reflexivity|]. simpl. now f_equal.
    + intros request app ms. unfold processImages.
      rewrite Hnone. now destruct (negb (enabled ms)).
  - intros Hbang. unfold extractImageReferences.
    assert (Hscan : scan IMAGE_REGEX markdownText 0 = map Plain markdownText).
    { induction markdownText as [|c s IH]; [reflexivity|].
      simpl. rewrite match_here_needs_exclamation
        by (intros ->; apply Hbang; now left).
      f_equal. apply IH. intros H. apply Hbang. now right. }
    rewrite Hscan. clear Hscan Hbang.
    induction markdownText as [|c s IH]; [reflexivity|exact IH].
Qed.

Lemma stripImageMarkdown_without_references_witness :
  ~ In (cu "!") plainNotes
  /\ extractImageReferences plainNotes = []
  /\ stripImageMarkdown plainNotes = plainNotes.
Proof.
  assert (Hbang : ~ In (cu "!") plainNotes).
  { intros H. vm_compute in H.
    repeat (destruct H as [H|H]; [discriminate H|]). exact H. }
  destruct (@stripImageMarkdown_without_references plainNotes)
    as [Hstrip Hnone].
  split; [exact Hbang|]. split; [exact (Hnone Hbang)|].
  exact (proj1 (Hstrip (Hnone Hbang))).
Defined.

(** A greedy star over a run of its class that ends where the class
    fails takes the whole run first. *)
Lemma star_greedy (A : Type) (p : N -> bool) (k : continuation A) (x : A)
      (post : jsstring) (caps : captures) :
  match post with c :: _ => p c = false | [] => True end ->
  k post caps = Some x ->
  forall pre : jsstring,
    forallb p pre = true -> star p (pre ++ post) caps k = Some x.
Proof.
  intros Hstop Hk. induction pre as [|c pre IH]; simpl.
  - intros _. destruct post as [|d post]; simpl; [exact Hk|].
    now rewrite Hstop.
  - intros H. apply andb_true_iff in H as [Hc Hpre].
    rewrite Hc, (IH Hpre). reflexivity.
Qed.

Lemma scan_skip (r : regex) (post : jsstring) :
  forall pre : jsstring,
    scan r (pre ++ post) (List.length pre) = scan r post 0.
Proof.
  induction pre as [|c pre IH]; [reflexivity|]. simpl. exact IH.
Qed.

Lemma scan_plain_prefix (before rest : jsstring) :
  ~ In (cu "!") before ->
  scan IMAGE_REGEX (before ++ rest) 0
  = map Plain before ++ scan IMAGE_REGEX rest 0.
Proof.
  induction before as [|c s IH]; intros Hbang; [reflexivity|].
  simpl. rewrite match_here_needs_exclamation
    by (intros ->; apply Hbang; now left).
  f_equal. apply IH. intros H. apply Hbang. now right.
Qed.

Lemma scan_at_match (r : regex) (c : N) (s rest : jsstring) (caps : captures) :
  match_here r (c :: s) = Some (rest, caps) ->
  scan r (c :: s) 0
  = Matched caps :: scan r s (List.length (c :: s) - List.length rest - 1).
Proof.
  intros H. cbn [scan]. now rewrite H.
Qed.

(** The match of IMAGE_REGEX on a well-formed image markup. *)
Lemma IMAGE_REGEX_on_markup (altText pathText rest : jsstring) :
  ~ In (cu "]") altText ->
  ~ In (cu ")") pathText ->
  pathText <> [] ->
  match_here IMAGE_REGEX
    (js "![" ++ altText ++ js "](" ++ pathText ++ js ")" ++ rest)
  = Some (rest, [(2%nat, pathText); (1%nat, altText)]).
Proof.
  intros Halt Hpath Hne.
  assert (Hclass : forall (ch : string) (u : N) (l : jsstring),
             js ch = [u] -> ~ In u l -> forallb (notUnit ch) l = true).
  { intros ch u l Hch Hno. apply forallb_forall. intros y Hy.
    unfold notUnit. rewrite Hch. simpl. rewrite orb_false_r.
    apply negb_true_iff. apply N.eqb_neq. intros ->. now apply Hno. }
  destruct pathText as [|z more]; [congruence|].
  assert (Hz : notUnit ")" z = true).
  { unfold notUnit. simpl. rewrite orb_false_r. apply negb_true_iff.
    apply N.eqb_neq. intros ->. apply Hpath. now left. }
  assert (Hmore : forallb (notUnit ")") more = true).
  { apply (Hclass ")"%string 41%N); [reflexivity|].
    intros H. apply Hpath. now right. }
  unfold match_here.
  change (run IMAGE_REGEX
              (js "![" ++ altText ++ js "](" ++ (z :: more) ++ js ")" ++ rest)
              [] (fun rest0 caps0 => Some (rest0, caps0)))
    with (star (notUnit "]") (altText ++ 93%N :: 40%N :: z :: more ++ 41%N :: rest) []
            (fun s1 c1 =>
               run (Cat [Word "]("; Group 2 (Plus (notUnit ")")); Word ")"])
                   s1 ((1%nat,
                        firstn (List.length
                                  (altText ++ 93%N :: 40%N :: z :: more
                                   ++ 41%N :: rest)
                                - List.length s1)
                               (altText ++ 93%N :: 40%N :: z :: more
                                ++ 41%N :: rest)) :: c1)
                   (fun rest0 caps0 => Some (rest0, caps0)))).
  apply star_greedy;
    [reflexivity| |apply (Hclass "]"%string 93%N); [reflexivity|exact Halt]].
  rewrite firstn_consumed.
  change (run (Cat [Word "]("; Group 2 (Plus (notUnit ")")); Word ")"])
              (93%N :: 40%N :: z :: more ++ 41%N :: rest)
              [(1%nat, altText)] (fun rest0 caps0 => Some (rest0, caps0)))
    with (if notUnit ")" z then
            star (notUnit ")") (more ++ 41%N :: rest) [(1%nat, altText)]
              (fun s3 c3 =>
                 match s3 with
                 | [] => None
                 | w :: t4 =>
                     if N.eqb w 41 then
                       Some (t4,
                             (2%nat,
                              firstn (List.length (z :: more ++ 41%N :: rest)
                                      - List.length s3)
                                     (z :: more ++ 41%N :: rest)) :: c3)
                     else None
                 end)
          else None).
  rewrite Hz.
  apply star_greedy; [reflexivity| |exact Hmore].
  simpl N.eqb. cbv iota.
  change (z :: more ++ 41%N :: rest) with ((z :: more) ++ 41%N :: rest).
  now rewrite firstn_consumed.
Qed.

(** X10 (extractImageReferences, stripImageMarkdown). A text with one
    image markup and no other exclamation mark: extractImageReferences
    returns that one reference, and stripImageMarkdown puts its alt text
    in its place, or the placeholder [Image: path] when the alt text is
    empty. *)
Theorem single_image_markup (before altText pathText after : jsstring) :
  ~ In (cu "!") before ->
  ~ In (cu "!") after ->
  ~ In (cu "]") altText ->
  ~ In (cu ")") pathText ->
  pathText <> [] ->
  extractImageReferences
    (before ++ js "![" ++ altText ++ js "](" ++ pathText ++ js ")" ++ after)
  = [{| ref_alt := altText; ref_path := pathText |}]
  /\ stripImageMarkdown
       (before ++ js "![" ++ altText ++ js "](" ++ pathText ++ js ")" ++ after)
     = before
       ++ str_or altText (js "[Image: " ++ pathText ++ js "]")
       ++ after.
Proof.
  intros Hb Ha Halt Hpath Hne.
  pose proof (@IMAGE_REGEX_on_markup altText pathText after Halt Hpath Hne)
    as Hm.
  assert (Hscan :
            scan IMAGE_REGEX
              (before ++ js "![" ++ altText ++ js "](" ++ pathText ++ js ")"
               ++ after) 0
            = map Plain before
              ++ Matched [(2%nat, pathText); (1%nat, altText)]
              :: map Plain after).
  { rewrite scan_plain_prefix by exact Hb. f_equal.
    set (m := cu "[" :: altText ++ js "](" ++ pathText ++ js ")").
    assert (Hshape : js "![" ++ altText ++ js "](" ++ pathText ++ js ")"
                     ++ after
                     = cu "!" :: m ++ after).
    { subst m. simpl. repeat (rewrite <- app_assoc; simpl). reflexivity. }
    rewrite Hshape in Hm |- *.
    rewrite (scan_at_match _ _ _ Hm). f_equal.
    replace (List.length (cu "!" :: m ++ after) - List.length after - 1)%nat
      with (List.length m)
      by (change (List.length (cu "!" :: m ++ after))
            with (S (List.length (m ++ after)));
          rewrite length_app; lia).
    rewrite scan_skip.
    replace after with (after ++ []) at 1 by apply app_nil_r.
    rewrite scan_plain_prefix by exact Ha. simpl. apply app_nil_r. }
  assert (Hcopy : forall (g : captures -> jsstring) (l : jsstring),
             flat_map (fun p => match p with
                                | Plain c => [c]
                                | Matched caps => g caps
                                end) (map Plain l) = l).
  { intros g l. induction l as [|c l IH]; [reflexivity|].
    simpl. now rewrite IH. }
  split.
  - unfold extractImageReferences. rewrite Hscan, flat_map_app. simpl.
    assert (E1 : forall l,
               flat_map
                 (fun p => match p with
                           | Matched caps =>
                               [{| ref_alt := str_or (group_text 1 caps) [];
                                   ref_path := group_text 2 caps |}]
                           | Plain _ => []
                           end) (map Plain l) = []).
    { intros l. induction l as [|c l IH]; [reflexivity|exact IH]. }
    rewrite !E1. simpl. unfold group_text. simpl.
    now destruct altText.
  - unfold stripImageMarkdown. rewrite Hscan, flat_map_app. simpl.
    rewrite !Hcopy. unfold group_text. simpl. reflexivity.
Qed.

Lemma single_image_markup_witness :
  notes = js "Cells divide by mitosis. " ++ js "![" ++ js "cell diagram"
          ++ js "](" ++ js "cell.png" ++ js ")"
          ++ js " Each daughter cell is a copy."
  /\ extractImageReferences notes
     = [{| ref_alt := js "cell diagram"; ref_path := js "cell.png" |}]
  /\ stripImageMarkdown notes
     = js "Cells divide by mitosis. cell diagram Each daughter cell is a copy.".
Proof.
  assert (Hno : forall (u : N) (l : jsstring),
             existsb (N.eqb u) l = false -> ~ In u l).
  { intros u l H Hin.
    assert (E : existsb (N.eqb u) l = true).
    { apply existsb_exists. exists u. split; [exact Hin|apply N.eqb_refl]. }
    congruence. }
  destruct (@single_image_markup (js "Cells divide by mitosis. ")
              (js "cell diagram") (js "cell.png")
              (js " Each daughter cell is a copy."))
    as [Hextract Hstrip].
  - apply Hno. reflexivity.
  - apply Hno. reflexivity.
  - apply Hno. reflexivity.
  - apply Hno. reflexivity.
  - discriminate.
  - split; [reflexivity|]. split; [exact Hextract|exact Hstrip].
Defined.

(* ===================================================================== *)
(** ** Further properties of the encoding *)
(* ===================================================================== *)

Lemma list_ind3 (A : Type) (P : list A -> Prop) :
  P [] -> (forall a, P [a]) -> (forall a b, P [a; b]) ->
  (forall a b c l, P l -> P (a :: b :: c :: l)) ->
  forall l, P l.
Proof.
  intros H0 H1 H2 H3.
  assert (H : forall l, P l /\ (forall a, P (a :: l))
                        /\ (forall a b, P (a :: b :: l))).
  { induction l as [|x l (IH0 & IH1 & IH2)].
    - repeat split; auto.
    - repeat split; auto. }
  intros l. apply H.
Qed.

Lemma base64Unit_not_pad (i : N) : base64Unit i <> 61%N.
Proof.
  unfold base64Unit.
  destruct (N.ltb_spec i 26); [lia|].
  destruct (N.ltb_spec i 52); [lia|].
  destruct (N.ltb_spec i 62); [lia|].
  destruct (N.eqb_spec i 62); lia.
Qed.

Lemma base64Unit_inj (i j : N) :
  (i < 64)%N -> (j < 64)%N -> base64Unit i = base64Unit j -> i = j.
Proof.
  unfold base64Unit. intros Hi Hj.
  destruct (N.ltb_spec i 26); destruct (N.ltb_spec j 26); try lia;
    destruct (N.ltb_spec i 52); destruct (N.ltb_spec j 52); try lia;
    destruct (N.ltb_spec i 62); destruct (N.ltb_spec j 62); try lia;
    destruct (N.eqb_spec i 62); destruct (N.eqb_spec j 62); lia.
Qed.

(** Two digits in a radix determine each other. *)
Lemma digits_unique (k x y x' y' : N) :
  (y < k)%N -> (y' < k)%N -> (x * k + y = x' * k + y')%N -> x = x' /\ y = y'.
Proof.
  intros Hy Hy' H.
  destruct (N.lt_trichotomy x x') as [L|[E|L]].
  - assert (M : ((x + 1) * k <= x' * k)%N) by (apply N.mul_le_mono_r; lia).
    rewrite N.mul_add_distr_r, N.mul_1_l in M. lia.
  - subst x'. split; [reflexivity|lia].
  - assert (M : ((x' + 1) * k <= x * k)%N) by (apply N.mul_le_mono_r; lia).
    rewrite N.mul_add_distr_r, N.mul_1_l in M. lia.
Qed.

Lemma small_quotient (b k q : N) :
  (k <> 0)%N -> (b < k * q)%N -> (b / k < q)%N.
Proof. intros Hk H. apply N.Div0.div_lt_upper_bound; assumption. Qed.

(** The sextets of a group of bytes are below 64. *)
Lemma sextet_bounds (a b : N) :
  (a < 256)%N -> (b < 256)%N ->
  (a / 4 < 64)%N /\ ((a mod 4) * 16 + b / 16 < 64)%N
  /\ ((a mod 16) * 4 + b / 64 < 64)%N /\ (a mod 64 < 64)%N
  /\ ((a mod 4) * 16 < 64)%N /\ ((a mod 16) * 4 < 64)%N.
Proof.
  intros Ha Hb.
  assert (H4 : (a mod 4 < 4)%N) by (apply N.mod_lt; lia).
  assert (H16 : (a mod 16 < 16)%N) by (apply N.mod_lt; lia).
  assert (H64 : (a mod 64 < 64)%N) by (apply N.mod_lt; lia).
  assert (Q4 : (a / 4 < 64)%N) by (apply small_quotient; lia).
  assert (Q16 : (b / 16 < 16)%N) by (apply small_quotient; lia).
  assert (Q64 : (b / 64 < 4)%N) by (apply small_quotient; lia).
  repeat split; lia.
Qed.

(** The four sextets of a group of three bytes determine the bytes. *)
Lemma sextets_inj (a b c a' b' c' : N) :
  (b < 256)%N -> (c < 256)%N -> (b' < 256)%N -> (c' < 256)%N ->
  (a / 4 = a' / 4)%N ->
  ((a mod 4) * 16 + b / 16 = (a' mod 4) * 16 + b' / 16)%N ->
  ((b mod 16) * 4 + c / 64 = (b' mod 16) * 4 + c' / 64)%N ->
  (c mod 64 = c' mod 64)%N ->
  a = a' /\ b = b' /\ c = c'.
Proof.
  intros Hb Hc Hb' Hc' H1 H2 H3 H4.
  apply digits_unique in H2 as [H2a H2b];
    [|apply small_quotient; lia|apply small_quotient; lia].
  apply digits_unique in H3 as [H3a H3b];
    [|apply small_quotient; lia|apply small_quotient; lia].
  rewrite (N.div_mod a 4), (N.div_mod a' 4) by lia.
  rewrite (N.div_mod b 16), (N.div_mod b' 16) by lia.
  rewrite (N.div_mod c 64), (N.div_mod c' 64) by lia.
  rewrite H1, H2a, H2b, H3a, H3b, H4. repeat split.
Qed.

Lemma btoa_group (a b c : N) (l : jsstring) :
  btoa (a :: b :: c :: l)
  = base64Unit (a / 4) :: base64Unit ((a mod 4) * 16 + b / 16)
    :: base64Unit ((b mod 16) * 4 + c / 64) :: base64Unit (c mod 64)
    :: btoa l.
Proof. reflexivity. Qed.

Lemma btoa_pair (a b : N) :
  btoa [a; b]
  = [base64Unit (a / 4); base64Unit ((a mod 4) * 16 + b / 16);
     base64Unit ((b mod 16) * 4); 61%N].
Proof. reflexivity. Qed.

Lemma btoa_single (a : N) :
  btoa [a] = [base64Unit (a / 4); base64Unit ((a mod 4) * 16); 61%N; 61%N].
Proof. reflexivity. Qed.

Definition byteUnits (s : jsstring) : Prop := Forall (fun u => (u < 256)%N) s.

Ltac pad_clash :=
  let H := fresh "H" in
  intros H; injection H; intros;
  match goal with
  | E : 61%N = base64Unit _ |- _ =>
      symmetry in E; now apply base64Unit_not_pad in E
  | E : base64Unit _ = 61%N |- _ => now apply base64Unit_not_pad in E
  end.

(** btoa is one-to-one on strings of byte units. *)
Lemma btoa_units_inj :
  forall s : jsstring,
    byteUnits s -> forall t : jsstring, byteUnits t ->
    btoa s = btoa t -> s = t.
Proof.
  unfold byteUnits.
  induction s as [|a|a b|a b c l IH] using list_ind3; intros Hs t Ht.
  - destruct t as [|a' [|b' [|c' t']]]; try reflexivity;
      rewrite ?btoa_single, ?btoa_pair, ?btoa_group; discriminate.
  - inversion Hs as [|? ? Ha _]; subst.
    destruct t as [|a' [|b' [|c' t']]];
      rewrite ?btoa_single, ?btoa_pair, ?btoa_group; try discriminate.
    + inversion Ht as [|? ? Ha' _]; subst.
      intros [= E1 E2].
      destruct (sextet_bounds Ha Ha) as (B1 & _ & _ & _ & B5 & _).
      destruct (sextet_bounds Ha' Ha') as (B1' & _ & _ & _ & B5' & _).
      apply base64Unit_inj in E1; [|assumption|assumption].
      apply base64Unit_inj in E2; [|assumption|assumption].
      f_equal. rewrite (N.div_mod a 4), (N.div_mod a' 4) by lia. lia.
    + pad_clash.
    + pad_clash.
  - inversion Hs as [|? ? Ha Hs']; subst.
    inversion Hs' as [|? ? Hb _]; subst.
    destruct t as [|a' [|b' [|c' t']]];
      rewrite ?btoa_single, ?btoa_pair, ?btoa_group; try discriminate.
    + pad_clash.
    + inversion Ht as [|? ? Ha' Ht']; subst.
      inversion Ht' as [|? ? Hb' _]; subst.
      intros [= E1 E2 E3].
      destruct (sextet_bounds Ha Hb) as (B1 & B2 & _ & _ & _ & _).
      destruct (sextet_bounds Ha' Hb') as (B1' & B2' & _ & _ & _ & _).
      destruct (sextet_bounds Hb Hb) as (_ & _ & _ & _ & _ & B6).
      destruct (sextet_bounds Hb' Hb') as (_ & _ & _ & _ & _ & B6').
      apply base64Unit_inj in E1; [|assumption|assumption].
      apply base64Unit_inj in E2; [|assumption|assumption].
      apply base64Unit_inj in E3; [|assumption|assumption].
      destruct (@sextets_inj a b 0 a' b' 0) as (-> & -> & _);
        try lia; try assumption; reflexivity.
    + pad_clash.
  - inversion Hs as [|? ? Ha Hs1]; subst.
    inversion Hs1 as [|? ? Hb Hs2]; subst.
    inversion Hs2 as [|? ? Hc Hl]; subst.
    destruct t as [|a' [|b' [|c' t']]];
      rewrite ?btoa_single, ?btoa_pair, ?btoa_group; try discriminate.
    + pad_clash.
    + pad_clash.
    + inversion Ht as [|? ? Ha' Ht1]; subst.
      inversion Ht1 as [|? ? Hb' Ht2]; subst.
      inversion Ht2 as [|? ? Hc' Hl']; subst.
      intros [= E1 E2 E3 E4 E5].
      destruct (sextet_bounds Ha Hb) as (B1 & B2 & _ & _ & _ & _).
      destruct (sextet_bounds Ha' Hb') as (B1' & B2' & _ & _ & _ & _).
      destruct (sextet_bounds Hb Hc) as (_ & _ & B3 & _ & _ & _).
      destruct (sextet_bounds Hb' Hc') as (_ & _ & B3' & _ & _ & _).
      destruct (sextet_bounds Hc Hc) as (_ & _ & _ & B4 & _ & _).
      destruct (sextet_bounds Hc' Hc') as (_ & _ & _ & B4' & _ & _).
      apply base64Unit_inj in E1; [|assumption|assumption].
      apply base64Unit_inj in E2; [|assumption|assumption].
      apply base64Unit_inj in E3; [|assumption|assumption].
      apply base64Unit_inj in E4; [|assumption|assumption].
      destruct (@sextets_inj a b c a' b' c') as (-> & -> & ->);
        try assumption.
      f_equal. f_equal. f_equal. now apply IH.
Qed.

Lemma fromCharCode_byteUnits (bytes : list Byte.byte) :
  byteUnits (fromCharCode bytes).
Proof.
  unfold byteUnits, fromCharCode. apply Forall_map, Forall_forall.
  intros b _. pose proof (Byte.to_N_bounded b). lia.
Qed.

Lemma fromCharCode_inj (x y : list Byte.byte) :
  fromCharCode x = fromCharCode y -> x = y.
Proof.
  unfold fromCharCode. revert y.
  induction x as [|a x IH]; intros [|b y]; simpl; try discriminate;
    [reflexivity|].
  intros [= E1 E2]. f_equal; [|now apply IH].
  pose proof (Byte.of_to_N a) as Ea. pose proof (Byte.of_to_N b) as Eb.
  rewrite E1 in Ea. congruence.
Qed.

Lemma btoa_length (s : jsstring) :
  List.length (btoa s) = (4 * ((List.length s + 2) / 3))%nat.
Proof.
  induction s as [|a|a b|a b c l IH] using list_ind3; try reflexivity.
  rewrite btoa_group. cbn [List.length]. rewrite IH.
  replace (S (S (S (List.length l))) + 2)%nat
    with (List.length l + 2 + 1 * 3)%nat by lia.
  rewrite Nat.div_add by lia. lia.
Qed.

Lemma base64Unit_alphabet (i : N) :
  In (base64Unit i)
     (js "ABCDEFGHIJKLMNOPQRSTUVWXYZabcdefghijklmnopqrstuvwxyz0123456789+/").
Proof.
  assert (H : existsb (N.eqb (base64Unit i))
                (js "ABCDEFGHIJKLMNOPQRSTUVWXYZabcdefghijklmnopqrstuvwxyz0123456789+/")
              = true).
  { destruct i as [|p]; [reflexivity|].
    do 7 (try (destruct p as [p|p|]; try reflexivity)). }
  apply existsb_exists in H as (u & Hin & Hu).
  apply N.eqb_eq in Hu. now rewrite Hu.
Qed.

(** btoa on the units of a byte sequence: one-to-one, four units for
    every three bytes rounded up, and over the base64 alphabet only. *)
Lemma btoa_fromCharCode (bytes : list Byte.byte) :
  (forall other : list Byte.byte,
      btoa (fromCharCode bytes) = btoa (fromCharCode other) -> bytes = other)
  /\ List.length (btoa (fromCharCode bytes))
     = (4 * ((List.length bytes + 2) / 3))%nat
  /\ (forall u : N,
         In u (btoa (fromCharCode bytes)) ->
         In u (js "ABCDEFGHIJKLMNOPQRSTUVWXYZabcdefghijklmnopqrstuvwxyz0123456789+/=")).
Proof.
  split; [|split].
  - intros other H. apply fromCharCode_inj.
    apply btoa_units_inj; [apply fromCharCode_byteUnits
                          |apply fromCharCode_byteUnits|exact H].
  - rewrite btoa_length. unfold fromCharCode. now rewrite length_map.
  - assert (Hunit : forall i u,
               u = base64Unit i ->
               In u (js "ABCDEFGHIJKLMNOPQRSTUVWXYZabcdefghijklmnopqrstuvwxyz0123456789+/=")).
    { intros i u ->.
      change (js "ABCDEFGHIJKLMNOPQRSTUVWXYZabcdefghijklmnopqrstuvwxyz0123456789+/=")
        with (js "ABCDEFGHIJKLMNOPQRSTUVWXYZabcdefghijklmnopqrstuvwxyz0123456789+/"
              ++ [61%N]).
      apply in_or_app. left. apply base64Unit_alphabet. }
    assert (Hpad : In 61%N
                      (js "ABCDEFGHIJKLMNOPQRSTUVWXYZabcdefghijklmnopqrstuvwxyz0123456789+/=")).
    { change (js "ABCDEFGHIJKLMNOPQRSTUVWXYZabcdefghijklmnopqrstuvwxyz0123456789+/=")
        with (js "ABCDEFGHIJKLMNOPQRSTUVWXYZabcdefghijklmnopqrstuvwxyz0123456789+/"
              ++ [61%N]).
      apply in_or_app. right. now left. }
    generalize (fromCharCode bytes). intros s.
    induction s as [|a|a b|a b c l IH] using list_ind3; intros u.
    + intros [].
    + rewrite btoa_single.
      intros [H|[H|[H|[H|[]]]]]; subst u; eauto.
    + rewrite btoa_pair.
      intros [H|[H|[H|[H|[]]]]]; subst u; eauto.
    + rewrite btoa_group.
      intros [H|[H|[H|[H|H]]]]; [subst u; eauto..|now apply IH].
Qed.

(** X11 (encodeFile). The base64 text of an encoded file is lossless: the
    image comes from the bytes read for the file, any byte sequence with
    the same base64 text is that sequence, the text has four units for
    every three bytes (rounded up), and it holds only letters, digits,
    plus, slash and the padding sign. *)
Theorem encodeFile_base64 (request : Type) (app : Vault) (f : TFile)
        (filePath altText : jsstring) (info : ImageInfo) :
  fst (encodeFile (request := request) app f filePath altText) = Some info ->
  exists bytes : list Byte.byte,
    contents app (file_path f) = Some bytes
    /\ (forall other : list Byte.byte,
           btoa (fromCharCode other) = base64 info -> other = bytes)
    /\ List.length (base64 info) = (4 * ((List.length bytes + 2) / 3))%nat
    /\ (forall u : N,
           In u (base64 info) ->
           In u (js "ABCDEFGHIJKLMNOPQRSTUVWXYZabcdefghijklmnopqrstuvwxyz0123456789+/=")).
Proof.
  intros H.
  destruct (encodeFile_cases request app f filePath altText) as [_ Hres].
  destruct (contents app (file_path f)) as [bytes|]; [|congruence].
  destruct (argumentLimit app <? N.of_nat (List.length bytes))%N;
    [congruence|].
  rewrite Hres in H. injection H as <-. cbn [base64].
  destruct (btoa_fromCharCode bytes) as (Hinj & Hlen & Halpha).
  exists bytes. repeat split; try assumption.
  intros other E. symmetry. now apply Hinj.
Qed.

Lemma encodeFile_base64_witness :
  fst (encodeFile (request := Request) vault diagram (file_path diagram)
                  (file_name diagram)) = Some diagramFileInfo
  /\ exists bytes : list Byte.byte,
      contents vault (file_path diagram) = Some bytes
      /\ (forall other : list Byte.byte,
             btoa (fromCharCode other) = base64 diagramFileInfo ->
             other = bytes)
      /\ List.length (base64 diagramFileInfo)
         = (4 * ((List.length bytes + 2) / 3))%nat
      /\ (forall u : N,
             In u (base64 diagramFileInfo) ->
             In u (js "ABCDEFGHIJKLMNOPQRSTUVWXYZabcdefghijklmnopqrstuvwxyz0123456789+/=")).
Proof.
  assert (E : fst (encodeFile (request := Request) vault diagram
                              (file_path diagram) (file_name diagram))
              = Some diagramFileInfo) by (vm_compute; reflexivity).
  split; [exact E|].
  exact (@encodeFile_base64 Request vault diagram (file_path diagram)
                            (file_name diagram) diagramFileInfo E).
Defined.

(* ===================================================================== *)
(** ** Further properties of the reply parser *)
(* ===================================================================== *)

Ltac leb_cases :=
  repeat match goal with
         | |- context [(?a <=? ?b)%N] => destruct (N.leb_spec a b); try lia
         | |- context [(?a <? ?b)%N] => destruct (N.ltb_spec a b); try lia
         | |- context [(?a =? ?b)%N] => destruct (N.eqb_spec a b); try lia
         end.

Lemma hexValue_hexDigit (d : N) : (d < 16)%N -> hexValue (hexDigit d) = Some d.
Proof.
  intros H. unfold hexDigit.
  destruct (N.ltb_spec d 10); unfold hexValue, isDigit; leb_cases;
    cbn [andb]; f_equal; lia.
Qed.

Lemma hex4_unicodeEscape (c : N) :
  (c < 65536)%N ->
  hex4 (hexDigit (c / 4096)) (hexDigit ((c / 256) mod 16))
       (hexDigit ((c / 16) mod 16)) (hexDigit (c mod 16)) = Some c.
Proof.
  intros H. unfold hex4.
  assert (B16 : forall x : N, (x mod 16 < 16)%N)
    by (intros x; apply N.mod_lt; lia).
  rewrite !hexValue_hexDigit; try apply B16;
    [|apply small_quotient; lia].
  f_equal.
  change 4096%N with (256 * 16)%N. rewrite <- (N.Div0.div_div c 256 16).
  change 256%N with (16 * 16)%N. rewrite <- (N.Div0.div_div c 16 16).
  pose proof (N.div_mod c 16) as D1.
  pose proof (N.div_mod (c / 16) 16) as D2.
  pose proof (N.div_mod (c / 16 / 16) 16) as D3.
  lia.
Qed.

Lemma parse_string_unicodeEscape (c : N) (t acc : jsstring) :
  (c < 65536)%N ->
  parse_string (unicodeEscape c ++ t) acc = parse_string t (c :: acc).
Proof.
  intros H. unfold unicodeEscape.
  cbn -[hex4 hexDigit N.div N.modulo].
  now rewrite hex4_unicodeEscape.
Qed.

Lemma parse_string_plain (c : N) (t acc : jsstring) :
  c <> 34%N -> c <> 92%N -> (32 <= c)%N ->
  parse_string (c :: t) acc = parse_string t (c :: acc).
Proof.
  intros H1 H2 H3. cbn [parse_string].
  destruct (N.eqb_spec c 34); [contradiction|].
  destruct (N.eqb_spec c 92); [contradiction|].
  destruct (N.ltb_spec c 32); [lia|reflexivity].
Qed.

Lemma parse_string_quoteUnit (c : N) (t acc : jsstring) :
  parse_string (quoteUnit c ++ t) acc = parse_string t (c :: acc).
Proof.
  unfold quoteUnit.
  destruct (N.eqb_spec c 8) as [->|]; [reflexivity|].
  destruct (N.eqb_spec c 9) as [->|]; [reflexivity|].
  destruct (N.eqb_spec c 10) as [->|]; [reflexivity|].
  destruct (N.eqb_spec c 12) as [->|]; [reflexivity|].
  destruct (N.eqb_spec c 13) as [->|]; [reflexivity|].
  destruct (N.eqb_spec c 34) as [->|]; [reflexivity|].
  destruct (N.eqb_spec c 92) as [->|]; [reflexivity|].
  destruct (N.ltb_spec c 32).
  - apply parse_string_unicodeEscape. lia.
  - now apply parse_string_plain.
Qed.

(** JSON.parse reads back what QuoteJSONString writes, whatever the
    units: control characters and surrogates on their own included. *)
Lemma parse_string_quoteUnits (s : jsstring) :
  forall acc rest : jsstring,
    parse_string (quoteUnits s ++ QUOTE :: rest) acc = Some (rev acc ++ s, rest).
Proof.
  remember (List.length s) as k eqn:Hk. revert s Hk.
  induction k as [k IH] using lt_wf_ind. intros s Hk acc rest.
  assert (Hsur : forall x, isHighSurrogate x = true \/ isLowSurrogate x = true ->
                           (55296 <= x < 65536)%N).
  { unfold isHighSurrogate, isLowSurrogate. intros x [H|H];
      apply andb_true_iff in H as [H1 H2];
      apply N.leb_le in H1; apply N.leb_le in H2; lia. }
  destruct s as [|c r].
  { simpl. now rewrite app_nil_r. }
  simpl in Hk. cbn [quoteUnits].
  destruct (isHighSurrogate c) eqn:Hh.
  - pose proof (Hsur c (or_introl Hh)) as Bc.
    destruct r as [|l r'].
    + rewrite parse_string_unicodeEscape by lia. reflexivity.
    + destruct (isLowSurrogate l) eqn:Hl.
      * pose proof (Hsur l (or_intror Hl)) as Bl.
        cbn [app]. rewrite !parse_string_plain by lia.
        rewrite (IH (List.length r')) by (simpl in *; lia).
        simpl. now rewrite <- !app_assoc.
      * rewrite <- app_assoc, parse_string_unicodeEscape by lia.
        rewrite (IH (List.length (l :: r'))) by (simpl in *; lia).
        simpl. now rewrite <- app_assoc.
  - destruct (isLowSurrogate c) eqn:Hl.
    + pose proof (Hsur c (or_intror Hl)) as Bc.
      rewrite <- app_assoc, parse_string_unicodeEscape by lia.
      rewrite (IH (List.length r)) by lia.
      simpl. now rewrite <- app_assoc.
    + rewrite <- app_assoc, parse_string_quoteUnit.
      rewrite (IH (List.length r)) by lia.
      simpl. now rewrite <- app_assoc.
Qed.

Lemma parse_value_string (f : nat) (s rest : jsstring) :
  parse_value (S f) (quoteJSONString s ++ rest) = Parsed (JString s) rest.
Proof.
  unfold quoteJSONString. cbn [app]. rewrite <- app_assoc. cbn [app].
  unfold QUOTE at 1. cbn -[parse_string quoteUnits].
  now rewrite parse_string_quoteUnits.
Qed.

Lemma parse_members_more (f : nat) (key text r : jsstring) (v : json)
      (acc : list (jsstring * json)) :
  parse_value f text = Parsed v (44%N :: r) ->
  parse_members (S f) (quoteJSONString key ++ 58%N :: text) acc
  = parse_members f r ((key, v) :: acc).
Proof.
  intros H. unfold quoteJSONString. cbn [app]. rewrite <- app_assoc. cbn [app].
  unfold QUOTE at 1. cbn -[parse_string quoteUnits parse_value].
  rewrite parse_string_quoteUnits. cbn -[parse_value]. rewrite H. reflexivity.
Qed.

Lemma parse_members_last (f : nat) (key text r : jsstring) (v : json)
      (acc : list (jsstring * json)) :
  parse_value f text = Parsed v (125%N :: r) ->
  parse_members (S f) (quoteJSONString key ++ 58%N :: text) acc
  = Parsed (JObject (rev ((key, v) :: acc))) r.
Proof.
  intros H. unfold quoteJSONString. cbn [app]. rewrite <- app_assoc. cbn [app].
  unfold QUOTE at 1. cbn -[parse_string quoteUnits parse_value rev].
  rewrite parse_string_quoteUnits. cbn -[parse_value rev]. rewrite H.
  reflexivity.
Qed.

Lemma parse_elements_more (f : nat) (text r : jsstring) (v : json)
      (acc : list json) :
  parse_value f text = Parsed v (44%N :: r) ->
  parse_elements (S f) text acc = parse_elements f r (v :: acc).
Proof. intros H. cbn [parse_elements]. rewrite H. reflexivity. Qed.

Lemma parse_elements_last (f : nat) (text r : jsstring) (v : json)
      (acc : list json) :
  parse_value f text = Parsed v (93%N :: r) ->
  parse_elements (S f) text acc = Parsed (JArray (rev (v :: acc))) r.
Proof. intros H. cbn [parse_elements]. rewrite H. reflexivity. Qed.

(** The value JSON.parse gives for a card written by JSON.stringify. *)
Definition cardJson (c : CardInformation) : json :=
  JObject [(js "q", JString (q c)); (js "a", JString (a c))].

Lemma stringifyCard_shape (c : CardInformation) (rest : jsstring) :
  stringifyCard c ++ rest
  = 123%N :: quoteJSONString (js "q") ++ 58%N
      :: quoteJSONString (q c) ++ 44%N
      :: quoteJSONString (js "a") ++ 58%N
      :: quoteJSONString (a c) ++ 125%N :: rest.
Proof.
  unfold stringifyCard, quoted.
  change (quoteJSONString (js "q")) with (QUOTE :: js "q" ++ [QUOTE]).
  change (quoteJSONString (js "a")) with (QUOTE :: js "a" ++ [QUOTE]).
  repeat (rewrite <- ?app_assoc; cbn [app js map list_ascii_of_string
                                        N_of_ascii N_of_digits]).
  reflexivity.
Qed.

Lemma parse_value_card (f : nat) (c : CardInformation) (rest : jsstring) :
  (4 <= f)%nat ->
  parse_value f (stringifyCard c ++ rest) = Parsed (cardJson c) rest.
Proof.
  intros Hf.
  destruct f as [|[|[|[|f]]]]; try lia.
  rewrite stringifyCard_shape.
  change (parse_value (S (S (S (S f))))
            (123%N :: quoteJSONString (js "q") ++ 58%N
               :: quoteJSONString (q c) ++ 44%N
               :: quoteJSONString (js "a") ++ 58%N
               :: quoteJSONString (a c) ++ 125%N :: rest))
    with (parse_members (S (S (S f)))
            (quoteJSONString (js "q") ++ 58%N
               :: quoteJSONString (q c) ++ 44%N
               :: quoteJSONString (js "a") ++ 58%N
               :: quoteJSONString (a c) ++ 125%N :: rest) []).
  rewrite (@parse_members_more _ _ _ _ (JString (q c)) _
             (parse_value_string _ _ _)).
  rewrite (@parse_members_last _ _ _ _ (JString (a c)) _
             (parse_value_string _ _ _)).
  reflexivity.
Qed.

Lemma parse_elements_cards (cards : list CardInformation) :
  cards <> [] ->
  forall (f : nat) (acc : list json) (rest : jsstring),
    (List.length cards + 4 <= f)%nat ->
    parse_elements f (join (js ",") (map stringifyCard cards) ++ 93%N :: rest)
                   acc
    = Parsed (JArray (rev acc ++ map cardJson cards)) rest.
Proof.
  induction cards as [|c cards IH]; [congruence|]. intros _ f acc rest Hf.
  destruct f as [|f]; [simpl in Hf; lia|].
  destruct cards as [|c2 cs].
  - cbn [map join].
    rewrite (@parse_elements_last f _ rest (cardJson c) acc).
    + reflexivity.
    + apply parse_value_card. simpl in Hf. lia.
  - change (join (js ",") (map stringifyCard (c :: c2 :: cs)))
      with (stringifyCard c
            ++ js "," ++ join (js ",") (map stringifyCard (c2 :: cs))).
    rewrite <- app_assoc.
    change ((js "," ++ join (js ",") (map stringifyCard (c2 :: cs)))
            ++ 93%N :: rest)
      with (44%N :: join (js ",") (map stringifyCard (c2 :: cs))
                 ++ 93%N :: rest).
    rewrite (@parse_elements_more f _ _ (cardJson c) acc
               (@parse_value_card f c _ ltac:(simpl in Hf; lia))).
    rewrite IH; [|discriminate|simpl in *; lia].
    simpl. now rewrite <- app_assoc.
Qed.

Lemma join_cards_head (cards : list CardInformation) :
  cards <> [] ->
  exists t : jsstring,
    join (js ",") (map stringifyCard cards) = 123%N :: t.
Proof.
  destruct cards as [|c [|c2 cs]]; [congruence| |]; intros _.
  - cbn [map join]. rewrite <- (app_nil_r (stringifyCard c)).
    rewrite stringifyCard_shape. eexists. reflexivity.
  - change (join (js ",") (map stringifyCard (c :: c2 :: cs)))
      with (stringifyCard c
            ++ js "," ++ join (js ",") (map stringifyCard (c2 :: cs))).
    rewrite stringifyCard_shape. eexists. reflexivity.
Qed.

Lemma join_cards_length (cards : list CardInformation) :
  (List.length cards
   <= List.length (join (js ",") (map stringifyCard cards)))%nat.
Proof.
  assert (Hc : forall c, (1 <= List.length (stringifyCard c))%nat).
  { intros c. rewrite <- (app_nil_r (stringifyCard c)).
    rewrite stringifyCard_shape. simpl. lia. }
  induction cards as [|c cards IH]; [simpl; lia|].
  destruct cards as [|c2 cs].
  - cbn [map join]. specialize (Hc c). simpl. lia.
  - change (join (js ",") (map stringifyCard (c :: c2 :: cs)))
      with (stringifyCard c
            ++ js "," ++ join (js ",") (map stringifyCard (c2 :: cs))).
    rewrite !length_app. specialize (Hc c).
    change (List.length (c :: c2 :: cs)) with (S (List.length (c2 :: cs))).
    lia.
Qed.

Lemma stringifySample_shape (cards : list CardInformation) :
  stringifySample cards
  = 123%N :: quoteJSONString KEY ++ 58%N :: 91%N
      :: join (js ",") (map stringifyCard cards) ++ [93%N; 125%N].
Proof.
  reflexivity.
Qed.

Lemma parse_value_sample (cards : list CardInformation) (f : nat) :
  (List.length cards + 7 <= f)%nat ->
  parse_value f (stringifySample cards)
  = Parsed (JObject [(KEY, JArray (map cardJson cards))]) [].
Proof.
  intros Hf. destruct f as [|[|[|f]]]; try lia.
  rewrite stringifySample_shape.
  change (parse_value (S (S (S f)))
            (123%N :: quoteJSONString KEY ++ 58%N :: 91%N
               :: join (js ",") (map stringifyCard cards) ++ [93%N; 125%N]))
    with (parse_members (S (S f))
            (quoteJSONString KEY ++ 58%N :: 91%N
               :: join (js ",") (map stringifyCard cards) ++ [93%N; 125%N])
            []).
  rewrite (@parse_members_last _ _ _ [] (JArray (map cardJson cards)));
    [reflexivity|].
  destruct cards as [|c cards].
  - reflexivity.
  - destruct (@join_cards_head (c :: cards)) as [t Ht]; [discriminate|].
    assert (E : parse_value (S f)
                  (91%N :: join (js ",") (map stringifyCard (c :: cards))
                        ++ [93%N; 125%N])
                = parse_elements f
                    (join (js ",") (map stringifyCard (c :: cards))
                     ++ [93%N; 125%N]) []).
    { rewrite Ht. reflexivity. }
    rewrite E. rewrite parse_elements_cards; [reflexivity|discriminate|].
    simpl in *. lia.
Qed.

Lemma JSON_parse_sample (cards : list CardInformation) :
  JSON_parse (stringifySample cards)
  = Some (JObject [(KEY, JArray (map cardJson cards))]).
Proof.
  unfold JSON_parse. rewrite parse_value_sample; [reflexivity|].
  unfold fuel_for. rewrite stringifySample_shape.
  pose proof (join_cards_length cards).
  repeat (rewrite ?length_app; cbn [List.length]). lia.
Qed.

Lemma parseChoiceContent_sample (cards : list CardInformation) :
  parseChoiceContent (stringifySample cards)
  = Return (JArray (map cardJson cards)).
Proof.
  unfold parseChoiceContent. rewrite JSON_parse_sample. reflexivity.
Qed.

Lemma trim_braced (t : jsstring) :
  trim (123%N :: t ++ [125%N]) = 123%N :: t ++ [125%N].
Proof.
  unfold trim, trimEnd.
  change (trimStart (123%N :: t ++ [125%N])) with (123%N :: t ++ [125%N]).
  change (rev (123%N :: t ++ [125%N])) with (rev (t ++ [125%N]) ++ [123%N]).
  rewrite rev_app_distr.
  change (trimStart ((rev [125%N] ++ rev t) ++ [123%N]))
    with ((rev [125%N] ++ rev t) ++ [123%N]).
  rewrite rev_app_distr, rev_app_distr, !rev_involutive. reflexivity.
Qed.

Lemma trim_sample (cards : list CardInformation) :
  trim (stringifySample cards) = stringifySample cards.
Proof.
  rewrite stringifySample_shape.
  set (J := join (js ",") (map stringifyCard cards)).
  replace (quoteJSONString KEY ++ 58%N :: 91%N :: J ++ [93%N; 125%N])
    with ((quoteJSONString KEY ++ 58%N :: 91%N :: J ++ [93%N]) ++ [125%N]).
  - apply trim_braced.
  - rewrite <- app_assoc. cbn [app]. rewrite <- app_assoc. reflexivity.
Qed.

(** X12 (parseChoiceContent, parseChoices, stringify of the sample).  The
    reply format the prompt demonstrates is one the reply parser accepts.
    JSON.parse reads back every string JSON.stringify quotes.  A choice
    whose content is JSON.stringify({ questions_answers: cards }), the
    text of the assistant sample, yields the cards in order, for every
    list of cards and in both entry points; a completion of such choices
    yields one entry per choice, in the order of the choices.  The
    assistant message of createMessages is such a content, for the sample
    cards of the count asked. *)
Theorem sample_reply_round_trip :
  (forall s : jsstring, JSON_parse (quoteJSONString s) = Some (JString s))
  /\ (forall cards : list CardInformation,
         parseChoiceContent (stringifySample cards)
         = Return (JArray (map cardJson cards)))
  /\ (forall sets : list (list CardInformation),
         let response :=
           {| choices := map (fun cards =>
                                {| message_content :=
                                     Some (stringifySample cards) |}) sets |} in
         parseChoices noteChoiceContent response
         = map (fun cards => JArray (map cardJson cards)) sets
         /\ parseChoices fileChoiceContent response
            = map (fun cards => JArray (map cardJson cards)) sets)
  /\ (forall (notes : jsstring) (num : Z) (images : option (list ImageInfo)),
         exists text : jsstring,
           nth_error (createMessages notes num images) 2
           = Some {| role := assistant; content := plain text |}
           /\ parseChoiceContent text
              = Return (JArray (map cardJson
                                    (generateRepeatedSampleOutput num)))).
Proof.
  split; [|split; [|split]]; [| | |intros notes num images;
    exists (stringifySample (generateRepeatedSampleOutput num));
    split; [destruct images as [[|i l]|]; reflexivity
           |apply parseChoiceContent_sample]].
  - intros s. unfold JSON_parse, fuel_for.
    rewrite <- (app_nil_r (quoteJSONString s)).
    replace (2 * List.length (quoteJSONString s ++ []) + 2)%nat
      with (S (2 * List.length (quoteJSONString s ++ []) + 1)) by lia.
    rewrite parse_value_string. reflexivity.
  - exact parseChoiceContent_sample.
  - intros sets response. subst response.
    rewrite !parseChoices_flat_map. cbn [choices].
    split; induction sets as [|cards sets IH]; try reflexivity; cbn [map flat_map].
    + unfold noteChoiceContent at 1. cbn [message_content].
      rewrite parseChoiceContent_sample, IH. reflexivity.
    + unfold fileChoiceContent at 1. cbn [message_content].
      rewrite trim_sample.
      assert (E : str_or (stringifySample cards) [] = stringifySample cards)
        by (rewrite stringifySample_shape; reflexivity).
      rewrite E, parseChoiceContent_sample, IH. reflexivity.
Qed.

(* ===================================================================== *)
(** ** Further properties of the entry points *)
(* ===================================================================== *)

Lemma match_here_needs_backquote (c : N) (s : jsstring) :
  c <> cu "`" -> match_here FENCE_REGEX (c :: s) = None.
Proof.
  intros Hc. unfold match_here.
  change (run FENCE_REGEX (c :: s) [] (fun rest0 caps0 => Some (rest0, caps0)))
    with (if N.eqb c 96
          then run (Word "``") s []
                 (fun s1 c1 =>
                    run (Cat [Opt (Word "json"); Star isWhiteSpace;
                              Opt (Unit LF);
                              Group 1 (LazyStar (fun _ => true));
                              Opt (Unit LF); Star isWhiteSpace; Word "```"])
                        s1 c1 (fun rest0 caps0 => Some (rest0, caps0)))
          else None).
  destruct (N.eqb_spec c 96) as [E|]; [|reflexivity].
  exfalso. apply Hc. exact E.
Qed.

(** The fence search finds nothing in a text without a backquote. *)
Lemma search_fence_backquote (s : jsstring) (caps : captures) :
  search FENCE_REGEX s = Some caps -> In (cu "`") s.
Proof.
  induction s as [|c s IH]; [discriminate|].
  destruct (N.eq_dec c (cu "`")) as [->|Hc]; [intros _; now left|].
  cbn [search]. rewrite (match_here_needs_backquote s Hc).
  intros H. right. now apply IH.
Qed.

(** X13 (the forEach callback of both entry points).  What a choice must
    hold to add an entry: its content is itself a JSON text; the entry is
    the questions_answers member of that text and is not null, or else the
    content holds a backquote, the text has no such member and the entry
    is truthy.  A content without a backquote never reaches a fenced
    block. *)
Theorem accepted_choice_content (content : jsstring) (v : json) :
  parseChoiceContent content = Return v ->
  v <> JNull
  /\ exists parsedContent : json,
      JSON_parse content = Some parsedContent
      /\ (questions_answers parsedContent = Return (Some v)
          \/ (In (cu "`") content
              /\ questions_answers parsedContent = Return None
              /\ truthy v = true)).
Proof.
  unfold parseChoiceContent.
  destruct (JSON_parse content) as [p|]; [|discriminate].
  destruct (questions_answers p) as [[w|]|e] eqn:Q; [| |discriminate].
  - intros H. assert (E : w = v /\ v <> JNull).
    { destruct w;
        [discriminate H
        |injection H as H; subst v; split; [reflexivity|discriminate]..]. }
    destruct E as [-> Hv]. split; [exact Hv|].
    exists p. split; [reflexivity|]. left. exact Q.
  - destruct (search FENCE_REGEX content) as [jsonMatch|] eqn:S;
      [|discriminate].
    apply search_fence_backquote in S.
    destruct (JSON_parse (matchGroup1 jsonMatch)) as [j|]; [|discriminate].
    destruct (questions_answers j) as [[w|]|e]; try discriminate.
    destruct (truthy w) eqn:T; [|discriminate].
    intros [= <-]. split.
    + intros ->. discriminate.
    + exists p. split; [reflexivity|]. right.
      split; [exact S|]. split; [exact Q|exact T].
Qed.

Lemma accepted_choice_content_witness :
  parseChoiceContent unfenced = Return cardXY
  /\ cardXY <> JNull
  /\ exists parsedContent : json,
      JSON_parse unfenced = Some parsedContent
      /\ (questions_answers parsedContent = Return (Some cardXY)
          \/ (In (cu "`") unfenced
              /\ questions_answers parsedContent = Return None
              /\ truthy cardXY = true)).
Proof.
  assert (E : parseChoiceContent unfenced = Return cardXY)
    by (vm_compute; reflexivity).
  split; [exact E|].
  exact (@accepted_choice_content unfenced cardXY E).
Defined.

(** X14 (generateRepeatedSampleOutput).  A count of zero gives no sample
    card.  A negative count does not: slice counts a negative end from the
    end of the list, so the sample is the canonical list without its last
    -num entries, and it is empty only from -12 down. *)
Theorem generateRepeatedSampleOutput_nonpositive (num : Z) :
  (num <= 0)%Z ->
  generateRepeatedSampleOutput num
  = firstn (if (num =? 0)%Z then 0 else Z.to_nat (12 + num)) SAMPLE_OUTPUT
  /\ List.length (generateRepeatedSampleOutput num)
     = (if (num =? 0)%Z then 0%nat else Z.to_nat (12 + num))
  /\ (generateRepeatedSampleOutput num = [] <->
      (num = 0 \/ num <= -12)%Z).
Proof.
  intros Hnum.
  assert (E : generateRepeatedSampleOutput num
              = firstn (if (num =? 0)%Z then 0 else Z.to_nat (12 + num))
                       SAMPLE_OUTPUT).
  { unfold generateRepeatedSampleOutput.
    rewrite SAMPLE_OUTPUT_length. change (Z.of_nat 12) with 12%Z.
    destruct (Z.ltb_spec num 12) as [_|Hge]; [|lia].
    unfold slice0. rewrite SAMPLE_OUTPUT_length. change (Z.of_nat 12) with 12%Z.
    destruct (Z.eqb_spec num 0) as [->|Hnz]; [reflexivity|].
    destruct (Z.ltb_spec num 0) as [_|Hge]; [|lia].
    f_equal. lia. }
  assert (L : List.length (generateRepeatedSampleOutput num)
              = (if (num =? 0)%Z then 0%nat else Z.to_nat (12 + num))).
  { rewrite E, length_firstn, SAMPLE_OUTPUT_length.
    destruct (Z.eqb_spec num 0); lia. }
  split; [exact E|]. split; [exact L|].
  split.
  - intros H. rewrite H in L. cbn [List.length] in L.
    destruct (Z.eqb_spec num 0); lia.
  - intros H. apply length_zero_iff_nil. rewrite L.
    destruct (Z.eqb_spec num 0); lia.
Qed.

Lemma generateRepeatedSampleOutput_nonpositive_witness :
  (-3 <= 0)%Z
  /\ generateRepeatedSampleOutput (-3) = firstn 9 SAMPLE_OUTPUT
  /\ List.length (generateRepeatedSampleOutput (-3)) = 9%nat.
Proof.
  assert (H : (-3 <= 0)%Z) by lia.
  split; [exact H|].
  destruct (@generateRepeatedSampleOutput_nonpositive (-3) H) as (E & L & _).
  split; [exact E|exact L].
Defined.

(** X15 (checkAI, checkGpt, the client of both entry points).  A
    configuration checkAI accepts gives a usable client: the key handed to
    the client is not empty, and for ollama the base URL is the configured
    URL, which is not empty, followed by /v1.  checkGpt is the openai check,
    whatever the base URL. *)
Theorem checkAI_guards_the_client (provider : AIProvider) (apiKey : jsstring)
        (baseUrl : option jsstring) :
  checkAI provider apiKey baseUrl = true ->
  (forall processedNotes processedImages num_q num options modelName ms
          processedFile settings,
      let noteClient :=
        client (noteRequest provider apiKey processedNotes processedImages
                            num_q num options baseUrl modelName ms) in
      let fileClient :=
        client (fileRequest provider apiKey processedFile num_q num options
                            baseUrl settings) in
      fileClient = noteClient
      /\ clientApiKey noteClient <> []
      /\ match provider with
         | openai => noteClient = {| baseURL := None; clientApiKey := apiKey |}
         | ollama =>
             exists u : jsstring,
               baseUrl = Some u /\ u <> []
               /\ baseURL noteClient = Some (u ++ js "/v1")
         end)
  /\ (provider = openai -> checkGpt apiKey = true).
Proof.
  intros H. split.
  - intros processedNotes processedImages num_q num options modelName ms
           processedFile settings.
    destruct provider; cbn in H |- *.
    + split; [reflexivity|]. split; [|reflexivity].
      destruct apiKey; [discriminate|discriminate].
    + split; [reflexivity|]. split; [discriminate|].
      destruct baseUrl as [u|]; [|discriminate].
      exists u. split; [reflexivity|]. split; [|reflexivity].
      destruct u; [discriminate|discriminate].
  - intros ->. exact H.
Qed.

Lemma checkAI_guards_the_client_witness :
  checkAI ollama [] localhost = true
  /\ baseURL (client (noteRequest ollama [] plainNotes [] 5 1
                        DEFAULT_gptAdvancedOptions localhost None None))
     = Some (js "http://localhost:11434/v1").
Proof.
  assert (H : checkAI ollama [] localhost = true) by reflexivity.
  split; [exact H|].
  destruct (@checkAI_guards_the_client ollama [] localhost H) as [Hc _].
  destruct (Hc plainNotes [] 5%Z 1%Z DEFAULT_gptAdvancedOptions None None
               diagramFileInfo visionOn) as (_ & _ & u & [= <-] & _ & E).
  exact E.
Defined.


